(** * UBC prerequisites parsing: schema validator, dependency extractor,
      depth resolver and graph assembler

    A shallow embedding of [source/types.ts], [source/utilities.ts] (with the
    second copy of the validator the repository holds) and
    [source/export.ts], followed by the properties established about them.

    Conventions of the embedding.
    - An untyped JavaScript value ([any]) is a [JsValue]; an object is its
      list of own data properties, read first match first, a missing property
      reading [undefined].
    - A JavaScript [number] met by the validator is a [number]: an exact
      rational, [NaN] or an infinity.  The weights of the exporter are finite
      and are kept as rationals in lowest terms, so that equal numbers are
      equal terms; depths and sizes are naturals.
    - Code that may raise returns a [completion]; [try]/[catch] becomes a
      match on it.
    - A JavaScript [Map] is an association list in insertion order. *)

From Stdlib Require Import List String Ascii Bool Arith Lia ZArith.
From Stdlib Require Import QArith Qround Qreduction Lqa.
From Stdlib Require Import Permutation Sorted DecimalString.
Import ListNotations.

#[local] Set Warnings "-register-all".
#[local] Close Scope Q_scope.
#[local] Open Scope nat_scope.
#[local] Open Scope list_scope.
#[local] Open Scope string_scope.

(* ================================================================== *)
(** ** JavaScript values *)

Module Js.

(** IEEE numbers as far as the validator can tell them apart. *)
Inductive number : Type :=
| Finite (q : Q)
| NaN
| PosInfinity
| NegInfinity.

Definition Qltb (a b : Q) : bool := negb (Qle_bool b a).

(** [a < b]; every comparison with [NaN] is false. *)
Definition num_ltb (a b : number) : bool :=
  match a, b with
  | NaN, _ | _, NaN => false
  | Finite x, Finite y => Qltb x y
  | NegInfinity, NegInfinity => false
  | NegInfinity, _ => true
  | _, NegInfinity => false
  | PosInfinity, _ => false
  | Finite _, PosInfinity => true
  end.

(** [a <= b]. *)
Definition num_leb (a b : number) : bool :=
  match a, b with
  | NaN, _ | _, NaN => false
  | Finite x, Finite y => Qle_bool x y
  | NegInfinity, _ => true
  | _, NegInfinity => false
  | _, PosInfinity => true
  | PosInfinity, Finite _ => false
  end.

Definition num_of_Z (z : Z) : number := Finite (inject_Z z).

#[warnings="-register-all"]
Inductive JsValue : Type :=
| JUndefined
| JNull
| JBool (b : bool)
| JNumber (n : number)
| JString (s : string)
| JArray (elements : list JsValue)
| JObject (props : list (string * JsValue)).

(** The [typeof] operator. *)
Definition typeof (v : JsValue) : string :=
  match v with
  | JUndefined => "undefined"
  | JNull => "object"
  | JBool _ => "boolean"
  | JNumber _ => "number"
  | JString _ => "string"
  | JArray _ => "object"
  | JObject _ => "object"
  end.

(** ToBoolean: [!v] is [negb (truthy v)]. *)
Definition truthy (v : JsValue) : bool :=
  match v with
  | JUndefined | JNull => false
  | JBool b => b
  | JNumber (Finite q) => negb (Qeq_bool q 0%Q)
  | JNumber NaN => false
  | JNumber _ => true
  | JString s => negb (s =? EmptyString)
  | JArray _ | JObject _ => true
  end.

Definition isUndefined (v : JsValue) : bool :=
  match v with JUndefined => true | _ => false end.

(** [list.includes(v)] for a literal array of strings. *)
Definition includes (l : list string) (v : JsValue) : bool :=
  match v with
  | JString s => existsb (String.eqb s) l
  | _ => false
  end.

Fixpoint lookup (k : string) (props : list (string * JsValue)) : JsValue :=
  match props with
  | [] => JUndefined
  | (k', v) :: rest => if k =? k' then v else lookup k rest
  end.

(** What is raised: an [Error] instance with its message, or any other
    value. *)
Inductive thrown : Type :=
| ErrorObject (message : string)
| OtherValue.

Inductive completion (A : Type) : Type :=
| Normal (a : A)
| Throw (e : thrown).
Arguments Normal {A} a.
Arguments Throw {A} e.

Definition ret {A : Type} (a : A) : completion A := Normal a.

Definition bind {A B : Type} (c : completion A) (k : A -> completion B)
  : completion B :=
  match c with
  | Normal a => k a
  | Throw e => Throw e
  end.

(** Reading a named data property [o.k].  It raises a TypeError on
    [undefined] and [null]; only the fields of objects are modelled (the
    validator reads fixed field names, none of which is an index or
    [length]), so every other receiver reads [undefined]. *)
Definition getProp (o : JsValue) (k : string) : completion JsValue :=
  match o with
  | JUndefined =>
      Throw (ErrorObject ("Cannot read properties of undefined (reading '" ++ k ++ "')"))
  | JNull =>
      Throw (ErrorObject ("Cannot read properties of null (reading '" ++ k ++ "')"))
  | JObject props => Normal (lookup k props)
  | _ => Normal JUndefined
  end.

(** Nesting depth, the measure of the recursive descent. *)
Fixpoint nesting (v : JsValue) : nat :=
  match v with
  | JArray l => S (fold_right (fun x acc => Nat.max (nesting x) acc) 0 l)
  | JObject props =>
      S (fold_right (fun (p : string * JsValue) acc => Nat.max (nesting (snd p)) acc)
           0 props)
  | _ => 0
  end.

End Js.
Import Js.

Declare Scope js_scope.
Delimit Scope js_scope with js.
Notation "x <- c ;; k" := (bind c (fun x => k))
  (at level 61, c at next level, right associativity) : js_scope.
#[local] Open Scope js_scope.

(* ================================================================== *)
(** ** source/types.ts *)

Module Types.

Inductive Logic : Type := ALL_OF | ONE_OF | TWO_OF.

Inductive courseLevels : Type := L100 | L200 | L300 | L400.

Inductive Standing : Type := S1st | S2nd | S3rd | S4th | Sgraduate.

(** [T | T[]] *)
Inductive oneOrMany (T : Type) : Type :=
| One (x : T)
| Many (xs : list T).
Arguments One {T} x.
Arguments Many {T} xs.

#[warnings="-register-all"]
Inductive Requirements : Type :=
| RequirementGroup (logic : Logic) (children : list Requirements)
| RequirementCourse (course : string) (minGrade : option number)
    (canBeTakenConcurrently mustBeTakenConcurrently : option bool)
| RequirementCreditCount (credits : number)
    (department : option (oneOrMany string))
    (level : option (oneOrMany courseLevels)) (minGrade : option number)
| RequirementCourseCount (count : number)
    (department : option (oneOrMany string))
    (level : option (oneOrMany courseLevels)) (minGrade : option number)
| RequirementStanding (standing : Standing)
| RequirementProgram (program : string)
| RequirementPermission (note : string)
| RequirementOther (note : string).

Record CourseParsedRequirements : Type := {
  department : string;
  code : string;
  prerequisites : option Requirements;
  corequisites : option Requirements;
  recommendedPrerequisites : option Requirements;
  recommendedCorequisites : option Requirements
}.

Inductive Status : Type := parsed | unparsed | blacklisted | error.

(** The fields of a save file that the exporter reads ([schemaVersion],
    the original texts, the reasons and [lastUpdated] are not read). *)
Record CourseSaveFile : Type := {
  course : string;
  status : Status;
  parsedRequirements : option CourseParsedRequirements
}.

(** *** The JavaScript object a typed value is at run time *)

Definition logicName (l : Logic) : string :=
  match l with
  | ALL_OF => "ALL_OF"
  | ONE_OF => "ONE_OF"
  | TWO_OF => "TWO_OF"
  end.

Definition levelName (l : courseLevels) : string :=
  match l with
  | L100 => "100"
  | L200 => "200"
  | L300 => "300"
  | L400 => "400"
  end.

Definition standingName (s : Standing) : string :=
  match s with
  | S1st => "1st"
  | S2nd => "2nd"
  | S3rd => "3rd"
  | S4th => "4th"
  | Sgraduate => "graduate"
  end.

(** An optional field is an absent property. *)
Definition optField {T : Type} (k : string) (f : T -> JsValue) (o : option T)
  : list (string * JsValue) :=
  match o with
  | Some x => [(k, f x)]
  | None => []
  end.

Definition oneOrManyToJs {T : Type} (f : T -> string) (v : oneOrMany T) : JsValue :=
  match v with
  | One x => JString (f x)
  | Many xs => JArray (map (fun x => JString (f x)) xs)
  end.

Fixpoint toJs (r : Requirements) : JsValue :=
  match r with
  | RequirementGroup logic children =>
      JObject [("type", JString "group");
               ("logic", JString (logicName logic));
               ("children", JArray (map toJs children))]
  | RequirementCourse c g can must =>
      JObject ([("type", JString "course"); ("course", JString c)]
               ++ optField "minGrade" JNumber g
               ++ optField "canBeTakenConcurrently" JBool can
               ++ optField "mustBeTakenConcurrently" JBool must)%list
  | RequirementCreditCount n d l g =>
      JObject ([("type", JString "credit_count"); ("credits", JNumber n)]
               ++ optField "department" (oneOrManyToJs (fun s => s)) d
               ++ optField "level" (oneOrManyToJs levelName) l
               ++ optField "minGrade" JNumber g)%list
  | RequirementCourseCount n d l g =>
      JObject ([("type", JString "course_count"); ("count", JNumber n)]
               ++ optField "department" (oneOrManyToJs (fun s => s)) d
               ++ optField "level" (oneOrManyToJs levelName) l
               ++ optField "minGrade" JNumber g)%list
  | RequirementStanding s =>
      JObject [("type", JString "standing"); ("standing", JString (standingName s))]
  | RequirementProgram p =>
      JObject [("type", JString "program"); ("program", JString p)]
  | RequirementPermission n =>
      JObject [("type", JString "permission"); ("note", JString n)]
  | RequirementOther n =>
      JObject [("type", JString "other"); ("note", JString n)]
  end.

Definition parsedToJs (p : CourseParsedRequirements) : JsValue :=
  JObject ([("department", JString (department p)); ("code", JString (code p))]
           ++ optField "prerequisites" toJs (prerequisites p)
           ++ optField "corequisites" toJs (corequisites p)
           ++ optField "recommendedPrerequisites" toJs (recommendedPrerequisites p)
           ++ optField "recommendedCorequisites" toJs (recommendedCorequisites p))%list.

End Types.
Import Types.

(* ================================================================== *)
(** ** source/utilities.ts: the schema validator *)

Module Utilities.

(** [{ isValid: boolean; error?: string }] *)
Record ValidationResult : Type := {
  isValid : bool;
  error : option string
}.

Definition valid : ValidationResult := {| isValid := true; error := None |}.

Definition invalid (msg : string) : ValidationResult :=
  {| isValid := false; error := Some msg |}.

(** [`${r.error}`] *)
Definition errorText (r : ValidationResult) : string :=
  match error r with
  | Some e => e
  | None => "undefined"
  end.

(** [`${i}`] for a loop index. *)
Definition indexText (i : nat) : string :=
  NilEmpty.string_of_uint (Nat.to_uint i).

(** [v < n] and [v > n], evaluated only behind a [typeof v === 'number']
    guard. *)
Definition ltNumber (v : JsValue) (n : number) : bool :=
  match v with JNumber x => num_ltb x n | _ => false end.

Definition gtNumber (v : JsValue) (n : number) : bool :=
  match v with JNumber x => num_ltb n x | _ => false end.

Definition leNumber (v : JsValue) (n : number) : bool :=
  match v with JNumber x => num_leb x n | _ => false end.

(** The repository holds the validator twice: in [source/utilities.ts], and
    in a second copy that also checks the [recommended] field of a group and
    words one message differently. *)
Inductive Revision : Type := utilities_ts | utilities_copy.

(** The double-quote character, as a string. *)
Definition quote : string := String (ascii_of_nat 34) EmptyString.

Definition validLevels : list string := ["100"; "200"; "300"; "400"].

(** [req.minGrade !== undefined && (typeof req.minGrade !== 'number' ||
    req.minGrade < 0 || req.minGrade > 100)] *)
Definition badMinGrade (minGrade : JsValue) : bool :=
  negb (isUndefined minGrade)
  && (negb (typeof minGrade =? "number")
      || ltNumber minGrade (num_of_Z 0) || gtNumber minGrade (num_of_Z 100)).

(** [x !== undefined && typeof x !== 'boolean'] *)
Definition badBoolean (x : JsValue) : bool :=
  negb (isUndefined x) && negb (typeof x =? "boolean").

(** The [if (req.department !== undefined) { ... }] block: [Some] is the
    message of its early return, [None] falls through. *)
Definition checkDepartment (department : JsValue) : option string :=
  if negb (isUndefined department) then
    if typeof department =? "string" then None
    else
      match department with
      | JArray ds =>
          if negb (forallb (fun d => typeof d =? "string") ds)
          then Some "department array must contain only strings"
          else None
      | _ => Some "department must be a string or array of strings"
      end
  else None.

(** [catch (error) { return { isValid: false, error: `Validation error:
    ${error instanceof Error ? error.message : 'Unknown error'}` } }] around
    a block that ends by returning. *)
Definition catchValidation (block : completion ValidationResult)
  : ValidationResult :=
  match block with
  | Normal r => r
  | Throw (ErrorObject message) => invalid ("Validation error: " ++ message)
  | Throw OtherValue => invalid "Validation error: Unknown error"
  end.

Section Validator.

Variable rev : Revision.

Definition levelArrayMessage : string :=
  match rev with
  | utilities_ts =>
      "level array must contain only valid levels: 100, 200, 300, 400"
  | utilities_copy =>
      "level array must contain only valid level strings (100, 200, 300, 400)"
  end.

(** The [if (req.level !== undefined) { ... }] block. *)
Definition checkLevel (level : JsValue) : option string :=
  if negb (isUndefined level) then
    if typeof level =? "string" then
      if negb (includes validLevels level)
      then Some "level must be one of: 100, 200, 300, 400"
      else None
    else
      match level with
      | JArray ls =>
          if negb (forallb (fun l => (typeof l =? "string")
                                     && includes validLevels l) ls)
          then Some levelArrayMessage
          else None
      | _ => Some "level must be a string or array of strings"
      end
  else None.

(** [for (let i = 0; i < req.children.length; i++)], from index [i] on
    the remaining [children]; [after] is what follows the loop. *)
Fixpoint forChildren (self : JsValue -> completion ValidationResult)
    (i : nat) (children : list JsValue)
    (after : completion ValidationResult) : completion ValidationResult :=
  match children with
  | []%list => after
  | (child :: rest)%list =>
      childValidation <- self child ;;
      if negb (isValid childValidation) then
        ret (invalid ("Invalid child at index " ++ indexText i ++ ": "
                      ++ errorText childValidation))
      else forChildren self (S i) rest after
  end.

(** What follows the loop: [return { isValid: true }], in the second copy
    after [if (req.recommended !== undefined &&
    req.recommended !== 'true') return ...]. *)
Definition afterChildren (req : JsValue) : completion ValidationResult :=
  match rev with
  | utilities_ts => ret valid
  | utilities_copy =>
      recommended <- getProp req "recommended" ;;
      if negb (isUndefined recommended)
         && negb (match recommended with
                  | JString s => s =? "true"
                  | _ => false
                  end)
      then ret (invalid ("recommended field must be " ++ quote ++ "true"
                         ++ quote ++ " if present"))
      else ret valid
  end.

Definition validateRequirementGroup
    (self : JsValue -> completion ValidationResult) (req : JsValue)
  : completion ValidationResult :=
  logic <- getProp req "logic" ;;
  if negb (truthy logic) || negb (includes ["ALL_OF"; "ONE_OF"; "TWO_OF"] logic)
  then ret (invalid "Group must have logic field with value ALL_OF, ONE_OF, or TWO_OF")
  else
    children <- getProp req "children" ;;
    match children with
    | JArray cs =>
        if (List.length cs =? 0)%nat
        then ret (invalid "Group must have at least one child")
        else
          forChildren self 0 cs (afterChildren req)
    | _ => ret (invalid "Group must have children array")
    end.

Definition validateRequirementCourse (req : JsValue)
  : completion ValidationResult :=
  course <- getProp req "course" ;;
  if negb (truthy course) || negb (typeof course =? "string")
  then ret (invalid "Course requirement must have a course field")
  else
    minGrade <- getProp req "minGrade" ;;
    if badMinGrade minGrade
    then ret (invalid "minGrade must be a number between 0 and 100")
    else
      canBeTakenConcurrently <- getProp req "canBeTakenConcurrently" ;;
      if badBoolean canBeTakenConcurrently
      then ret (invalid "canBeTakenConcurrently must be a boolean")
      else
        mustBeTakenConcurrently <- getProp req "mustBeTakenConcurrently" ;;
        if badBoolean mustBeTakenConcurrently
        then ret (invalid "mustBeTakenConcurrently must be a boolean")
        else ret valid.

(** The optional fields shared by [credit_count] and [course_count]. *)
Definition validateCountOptions (req : JsValue)
  : completion ValidationResult :=
  department <- getProp req "department" ;;
  match checkDepartment department with
  | Some e => ret (invalid e)
  | None =>
      level <- getProp req "level" ;;
      match checkLevel level with
      | Some e => ret (invalid e)
      | None =>
          minGrade <- getProp req "minGrade" ;;
          if badMinGrade minGrade
          then ret (invalid "minGrade must be a number between 0 and 100")
          else ret valid
      end
  end.

Definition validateRequirementCreditCount (req : JsValue)
  : completion ValidationResult :=
  credits <- getProp req "credits" ;;
  if negb (truthy credits) || negb (typeof credits =? "number")
     || leNumber credits (num_of_Z 0)
  then ret (invalid "Credit count requirement must have a positive credits field")
  else validateCountOptions req.

Definition validateRequirementCourseCount (req : JsValue)
  : completion ValidationResult :=
  count <- getProp req "count" ;;
  if negb (truthy count) || negb (typeof count =? "number")
     || leNumber count (num_of_Z 0)
  then ret (invalid "Course count requirement must have a positive count field")
  else validateCountOptions req.

Definition validateRequirementStanding (req : JsValue)
  : completion ValidationResult :=
  standing <- getProp req "standing" ;;
  if negb (truthy standing)
     || negb (includes ["1st"; "2nd"; "3rd"; "4th"; "graduate"] standing)
  then ret (invalid "Standing requirement must have a valid standing field")
  else ret valid.

Definition validateRequirementProgram (req : JsValue)
  : completion ValidationResult :=
  program <- getProp req "program" ;;
  if negb (truthy program) || negb (typeof program =? "string")
  then ret (invalid "Program requirement must have a program field")
  else ret valid.

Definition validateRequirementPermission (req : JsValue)
  : completion ValidationResult :=
  note <- getProp req "note" ;;
  if negb (truthy note) || negb (typeof note =? "string")
  then ret (invalid "Permission requirement must have a note field")
  else ret valid.

Definition validateRequirementOther (req : JsValue)
  : completion ValidationResult :=
  note <- getProp req "note" ;;
  if negb (truthy note) || negb (typeof note =? "string")
  then ret (invalid "Other requirement must have a note field")
  else ret valid.

(** The body of [validateRequirements]; [self] is the function itself,
    called on the children of a group. *)
Definition validateRequirementsBody
    (self : JsValue -> completion ValidationResult) (req : JsValue)
  : completion ValidationResult :=
  if negb (truthy req) || negb (typeof req =? "object")
  then ret (invalid "Requirement must be an object")
  else
    type <- getProp req "type" ;;
    if negb (truthy type) || negb (typeof type =? "string")
    then ret (invalid "Requirement must have a valid type field")
    else
      match type with
      | JString t =>
          if t =? "group" then validateRequirementGroup self req
          else if t =? "course" then validateRequirementCourse req
          else if t =? "credit_count" then validateRequirementCreditCount req
          else if t =? "course_count" then validateRequirementCourseCount req
          else if t =? "standing" then validateRequirementStanding req
          else if t =? "program" then validateRequirementProgram req
          else if t =? "permission" then validateRequirementPermission req
          else if t =? "other" then validateRequirementOther req
          else ret (invalid ("Unknown requirement type: " ++ t))
      | _ => ret (invalid "Requirement must have a valid type field")
      end.

(** The recursion with [fuel] call frames left; running out of them is
    the engine's RangeError. *)
Fixpoint validateRequirementsFuel (fuel : nat) (req : JsValue)
  : completion ValidationResult :=
  match fuel with
  | 0 => Throw (ErrorObject "Maximum call stack size exceeded")
  | S fuel' => validateRequirementsBody (validateRequirementsFuel fuel') req
  end.

(** [validateRequirements]: a value of nesting depth [d] needs fewer than
    [d + 1] nested calls. *)
Definition validateRequirements (req : JsValue)
  : completion ValidationResult :=
  validateRequirementsFuel (S (nesting req)) req.

(** [if (data.f) { const v = validateRequirements(data.f);
    if (!v.isValid) return { ..., error: `Invalid <label>: ${v.error}` } }]
    followed by [next]. *)
Definition validateOptional (data : JsValue) (field label : string)
    (next : completion ValidationResult) : completion ValidationResult :=
  f <- getProp data field ;;
  if truthy f then
    validation <- validateRequirements f ;;
    if negb (isValid validation)
    then ret (invalid ("Invalid " ++ label ++ ": " ++ errorText validation))
    else next
  else next.

(** The [try] block of [validateParsedRequirements]. *)
Definition validateParsedRequirementsTry (data : JsValue)
  : completion ValidationResult :=
  if negb (truthy data) || negb (typeof data =? "object")
  then ret (invalid "Data must be an object")
  else
    department <- getProp data "department" ;;
    if negb (truthy department) || negb (typeof department =? "string")
    then ret (invalid "Missing or invalid department field")
    else
      code <- getProp data "code" ;;
      if negb (truthy code) || negb (typeof code =? "string")
      then ret (invalid "Missing or invalid code field")
      else
        validateOptional data "prerequisites" "prerequisites"
          (validateOptional data "corequisites" "corequisites"
             (validateOptional data "recommendedPrerequisites"
                "recommended prerequisites"
                (validateOptional data "recommendedCorequisites"
                   "recommended corequisites"
                   (ret valid)))).

(** [validateParsedRequirements]: the [try] block under its [catch]. *)
Definition validateParsedRequirements (data : JsValue) : ValidationResult :=
  catchValidation (validateParsedRequirementsTry data).

End Validator.

End Utilities.
Import Utilities.

(* ================================================================== *)
(** ** source/export.ts: extractor, depth resolver, graph assembler *)

Module Exporter.

(** *** [Map<string, V>], in insertion order *)

Definition Map (V : Type) : Type := list (string * V).

Fixpoint map_get {V : Type} (k : string) (m : Map V) : option V :=
  match m with
  | []%list => None
  | ((k', v) :: rest)%list => if k =? k' then Some v else map_get k rest
  end.

Definition map_has {V : Type} (k : string) (m : Map V) : bool :=
  match map_get k m with
  | Some _ => true
  | None => false
  end.

(** [m.set(k, v)]: an existing key keeps its place, a new one goes last. *)
Fixpoint map_set {V : Type} (k : string) (v : V) (m : Map V) : Map V :=
  match m with
  | []%list => [(k, v)]
  | ((k', v') :: rest)%list =>
      if k =? k' then (k', v) :: rest else (k', v') :: map_set k v rest
  end.

Definition map_values {V : Type} (m : Map V) : list V := map snd m.

(** [m.get(k) || 0] *)
Definition getOrZero (k : string) (m : Map nat) : nat :=
  match map_get k m with
  | Some d => d
  | None => 0
  end.

(** *** Numbers of the exporter *)

Definition ofNat (n : nat) : Q := inject_Z (Z.of_nat n).

(** [a / b], in lowest terms.  A division by zero (Infinity in the source)
    only arises for a group without children, whose value is never used.
    The quotient is the exact one: the rounding of the source's doubles,
    their underflow to 0 and their overflow to Infinity on very deep
    nestings are left out, so what is proved of weights is which operation
    is applied to what, not the size of the result. *)
Definition divide (a b : Q) : Q := Qred (a / b)%Q.

(** [a * b], exact in the same way. *)
Definition times (a b : Q) : Q := Qred (a * b)%Q.

(** [Math.round]: the nearest integer, halves going up. *)
Definition Math_round (x : Q) : Z := Qfloor (x + (1 # 2))%Q.

(** [Math.round(value * 100) / 100] *)
Definition round2 (value : Q) : Q :=
  divide (inject_Z (Math_round (times value 100%Q))) 100%Q.

(** [Math.min(...l)] and [Math.max(...l)] on depths; the empty list
    (plus or minus Infinity in the source) is excluded by the caller. *)
Definition Math_min (l : list nat) : nat :=
  match l with
  | []%list => 0
  | (d :: ds)%list => fold_left Nat.min ds d
  end.

Definition Math_max (l : list nat) : nat :=
  match l with
  | []%list => 0
  | (d :: ds)%list => fold_left Nat.max ds d
  end.

(** [l.sort((a, b) => a - b)] *)
Fixpoint insert (d : nat) (l : list nat) : list nat :=
  match l with
  | []%list => [d]
  | (x :: rest)%list =>
      if (d <=? x)%nat then (d :: x :: rest)%list else (x :: insert d rest)%list
  end.

Fixpoint sort (l : list nat) : list nat :=
  match l with
  | []%list => []
  | (d :: rest)%list => insert d (sort rest)
  end.

(** *** Records *)

Record Node : Type := {
  id : string;
  title : string;
  dept : string;
  size : nat;
  depth : nat
}.

Record Link : Type := {
  source : string;
  target : string;
  value : Q
}.

(** *** Dependency extractor *)

(** [extractCourseRequirementsWithValues(node, baseValue)]; an emitted
    [{ course, value }] is a pair. *)
Fixpoint extractCourseRequirementsWithValues (node : Requirements)
    (baseValue : Q) : list (string * Q) :=
  match node with
  | RequirementCourse c _ _ _ => ([] ++ [(c, baseValue)])%list
  | RequirementGroup logic children =>
      let childValue :=
        match logic with
        | ONE_OF => divide baseValue (ofNat (List.length children))
        | TWO_OF => divide (times baseValue 2%Q) (ofNat (List.length children))
        | ALL_OF => baseValue
        end in
      fold_left
        (fun courses child =>
           (courses ++ extractCourseRequirementsWithValues child childValue)%list)
        children []%list
  | _ => []%list
  end.

(** *** Depth of one requirement tree *)

Fixpoint calculatePrerequisiteDepth (node : Requirements)
    (courseDepths : Map nat) : nat :=
  match node with
  | RequirementCourse c _ _ _ => getOrZero c courseDepths + 1
  | RequirementGroup logic children =>
      if (List.length children =? 0)%nat then 0
      else
        let childDepths :=
          filter (fun d => (0 <? d)%nat)
            (map (fun child => calculatePrerequisiteDepth child courseDepths)
               children) in
        if (List.length childDepths =? 0)%nat then 0
        else
          match logic with
          | ONE_OF => Math_min childDepths
          | TWO_OF =>
              let sorted := sort childDepths in
              if (2 <=? List.length sorted)%nat
              then nth 1 sorted 0
              else nth 0 sorted 0
          | ALL_OF => Math_max childDepths
          end
  | _ => 0
  end.

(** *** [generateNodesAndLinks] *)

Definition isParsed (c : CourseSaveFile) : bool :=
  match status c, parsedRequirements c with
  | parsed, Some _ => true
  | _, _ => false
  end.

(** [courses.filter(c => c.status === 'parsed' && c.parsedRequirements)] *)
Definition parsedCoursesOf (courses : list CourseSaveFile) : list CourseSaveFile :=
  filter isParsed courses.

(** First pass, initialisation: every parsed course at depth 0. *)
Definition initialDepths (parsedCourses : list CourseSaveFile) : Map nat :=
  fold_left (fun courseDepths c => map_set (course c) 0 courseDepths)
    parsedCourses []%list.

Definition maxWith (maxDepth : nat) (tree : option Requirements)
    (courseDepths : Map nat) : nat :=
  match tree with
  | Some r => Nat.max maxDepth (calculatePrerequisiteDepth r courseDepths)
  | None => maxDepth
  end.

(** The body of the [forEach] inside the [while]: the state is the shared
    table and the [changed] flag. *)
Definition relaxCourse (st : Map nat * bool) (c : CourseSaveFile)
  : Map nat * bool :=
  let (courseDepths, changed) := st in
  match parsedRequirements c with
  | None => st
  | Some req =>
      let maxDepth := 0 in
      let maxDepth := maxWith maxDepth (prerequisites req) courseDepths in
      let maxDepth := maxWith maxDepth (corequisites req) courseDepths in
      let currentDepth := getOrZero (course c) courseDepths in
      if (currentDepth <? maxDepth)%nat
      then (map_set (course c) maxDepth courseDepths, true)
      else (courseDepths, changed)
  end.

(** One pass of the [while] body: [changed = false], then the [forEach]. *)
Definition relaxPass (parsedCourses : list CourseSaveFile)
    (courseDepths : Map nat) : Map nat * bool :=
  fold_left relaxCourse parsedCourses (courseDepths, false).

(** [while (changed && maxIterations > 0)] *)
Fixpoint relaxLoop (parsedCourses : list CourseSaveFile)
    (maxIterations : nat) (changed : bool) (courseDepths : Map nat)
  : Map nat :=
  match maxIterations with
  | 0 => courseDepths
  | S remaining =>
      if changed then
        let (courseDepths', changed') := relaxPass parsedCourses courseDepths in
        relaxLoop parsedCourses remaining changed' courseDepths'
      else courseDepths
  end.

(** The iteration ceiling, [let maxIterations = 10]. *)
Definition maxIterations : nat := 10.

(** First pass as a whole. *)
Definition resolveDepths (parsedCourses : list CourseSaveFile) : Map nat :=
  relaxLoop parsedCourses maxIterations true (initialDepths parsedCourses).

(** [s.split(' ')[0]] *)
Fixpoint firstToken (s : string) : string :=
  match s with
  | EmptyString => EmptyString
  | String c rest =>
      if Ascii.eqb c " "%char then EmptyString else String c (firstToken rest)
  end.

(** [id.split(' ')[0] || 'UNKNOWN'] *)
Definition deptOfId (courseId : string) : string :=
  let t := firstToken courseId in
  if t =? EmptyString then "UNKNOWN" else t.

(** [if (!nodesMap.has(id)) nodesMap.set(id, { ... size: 0 ... })] *)
Definition ensureNode (nodesMap : Map Node) (nodeId nodeDept : string)
    (nodeDepth : nat) : Map Node :=
  if negb (map_has nodeId nodesMap) then
    map_set nodeId
      {| id := nodeId; title := nodeId; dept := nodeDept; size := 0;
         depth := nodeDepth |} nodesMap
  else nodesMap.

Definition linkKeyOf (from to : string) : string := from ++ "->" ++ to.

(** [if (!linkMap.has(linkKey) || linkMap.get(linkKey)!.value < roundedValue)
    linkMap.set(linkKey, { source, target, value: roundedValue })] *)
Definition upsertLink (linkMap : Map Link) (linkKey from to : string)
    (roundedValue : Q) : Map Link :=
  if negb (map_has linkKey linkMap)
     || match map_get linkKey linkMap with
        | Some l => Qltb (value l) roundedValue
        | None => false
        end
  then map_set linkKey
         {| source := from; target := to; value := roundedValue |} linkMap
  else linkMap.

(** Body of the loop over [prerequisiteCourses]. *)
Definition addPrerequisite (courseDepths : Map nat) (targetId : string)
    (st : Map Node * Map Link) (p : string * Q) : Map Node * Map Link :=
  let (nodesMap, linkMap) := st in
  let (prereqId, value) := p in
  let prereqDept := deptOfId prereqId in
  let nodesMap :=
    ensureNode nodesMap prereqId prereqDept (getOrZero prereqId courseDepths) in
  let linkKey := linkKeyOf prereqId targetId in
  let roundedValue := round2 value in
  (nodesMap, upsertLink linkMap linkKey prereqId targetId roundedValue).

(** Body of the loop over [corequisiteCourses]. *)
Definition addCorequisite (courseDepths : Map nat) (targetId : string)
    (st : Map Node * Map Link) (p : string * Q) : Map Node * Map Link :=
  let (nodesMap, linkMap) := st in
  let (coreqId, value) := p in
  let coreqDept := deptOfId coreqId in
  let nodesMap :=
    ensureNode nodesMap coreqId coreqDept (getOrZero coreqId courseDepths) in
  let linkKey1 := linkKeyOf coreqId targetId in
  let linkKey2 := linkKeyOf targetId coreqId in
  let roundedValue := round2 value in
  let linkMap := upsertLink linkMap linkKey1 coreqId targetId roundedValue in
  let linkMap := upsertLink linkMap linkKey2 targetId coreqId roundedValue in
  (nodesMap, linkMap).

(** Body of the second pass, [for (const course of parsedCourses)]. *)
Definition addCourse (courseDepths : Map nat) (st : Map Node * Map Link)
    (c : CourseSaveFile) : Map Node * Map Link :=
  match parsedRequirements c with
  | None => st
  | Some req =>
      let (nodesMap, linkMap) := st in
      let targetId := course c in
      let nodesMap :=
        ensureNode nodesMap targetId (department req)
          (getOrZero targetId courseDepths) in
      let st := (nodesMap, linkMap) in
      let st :=
        match prerequisites req with
        | Some tree =>
            fold_left (addPrerequisite courseDepths targetId)
              (extractCourseRequirementsWithValues tree 1%Q) st
        | None => st
        end in
      match corequisites req with
      | Some tree =>
          fold_left (addCorequisite courseDepths targetId)
            (extractCourseRequirementsWithValues tree 1%Q) st
      | None => st
      end
  end.

(** [incomingCounts]: links per target. *)
Definition countIncoming (linkArray : list Link) : Map nat :=
  fold_left
    (fun incomingCounts l =>
       map_set (target l) (getOrZero (target l) incomingCounts + 1)
         incomingCounts)
    linkArray []%list.

Definition setSize (n : Node) (s : nat) : Node :=
  {| id := id n; title := title n; dept := dept n; size := s;
     depth := depth n |}.

(** [linkedNodeIds.has(x)], the set being the sources and targets. *)
Definition isLinked (linkArray : list Link) (x : string) : bool :=
  existsb (fun l => (x =? source l) || (x =? target l)) linkArray.

Record Graph : Type := {
  nodes : list Node;
  links : list Link
}.

(** Second pass: the two maps after every parsed course was added. *)
Definition secondPass (parsedCourses : list CourseSaveFile)
    (courseDepths : Map nat) : Map Node * Map Link :=
  fold_left (addCourse courseDepths) parsedCourses ([]%list, []%list).

Definition generateNodesAndLinks (courses : list CourseSaveFile) : Graph :=
  let parsedCourses := parsedCoursesOf courses in
  let courseDepths := resolveDepths parsedCourses in
  let (nodesMap, linkMap) := secondPass parsedCourses courseDepths in
  let linkArray := map_values linkMap in
  let incomingCounts := countIncoming linkArray in
  let nodesMap :=
    map (fun kv : string * Node =>
           (fst kv, setSize (snd kv) (getOrZero (fst kv) incomingCounts)))
      nodesMap in
  let prunedNodes :=
    filter (fun node => isLinked linkArray (id node)) (map_values nodesMap) in
  {| nodes := prunedNodes; links := linkArray |}.

End Exporter.
Import Exporter.

(* ================================================================== *)
(** ** Notions in which the properties are stated *)

Module Spec.

(** The weight a group hands to each of its [n] children. *)
Definition childWeight (logic : Logic) (w : Q) (n : nat) : Q :=
  match logic with
  | ALL_OF => w
  | ONE_OF => (w / ofNat n)%Q
  | TWO_OF => (w * 2 / ofNat n)%Q
  end.

(** The [course] leaves of a tree, depth first and left to right. *)
Fixpoint courseLeaves (r : Requirements) : list string :=
  match r with
  | RequirementCourse c _ _ _ => [c]
  | RequirementGroup _ children => flat_map courseLeaves children
  | _ => []%list
  end.

Definition isGroup (r : Requirements) : bool :=
  match r with RequirementGroup _ _ => true | _ => false end.

Definition isCourse (r : Requirements) : bool :=
  match r with RequirementCourse _ _ _ _ => true | _ => false end.

(** [m] is the least (greatest) element of [l]. *)
Definition is_min (m : nat) (l : list nat) : Prop :=
  In m l /\ forall x, In x l -> m <= x.

Definition is_max (m : nat) (l : list nat) : Prop :=
  In m l /\ forall x, In x l -> x <= m.

(** [m] comes second when [l] is put in ascending order. *)
Definition is_second_smallest (m : nat) (l : list nat) : Prop :=
  exists s, Permutation l s /\ StronglySorted le s /\ nth_error s 1 = Some m.

(** The depths of the children of a group that are not zero. *)
Definition nonZeroChildDepths (children : list Requirements)
    (courseDepths : Map nat) : list nat :=
  filter (fun d => (0 <? d)%nat)
    (map (fun child => calculatePrerequisiteDepth child courseDepths) children).

(** The values [validateRequirements] calls itself on. *)
Definition childrenOf (req : JsValue) : list JsValue :=
  match req with
  | JObject props =>
      match lookup "children" props with
      | JArray cs => cs
      | _ => []%list
      end
  | _ => []%list
  end.

(** A result record as the validator's return type describes it: valid
    without a message, or invalid with one. *)
Definition wellFormedResult (r : ValidationResult) : Prop :=
  (isValid r = true /\ error r = None) \/
  (isValid r = false /\ exists msg, error r = Some msg).

(** A computation that returns such a record and does not raise. *)
Definition returnsRecord (c : completion ValidationResult) : Prop :=
  exists r, c = Normal r /\ wellFormedResult r.

(** Neither [undefined] nor [null]: a property can be read. *)
Definition isObjectLike (req : JsValue) : Prop :=
  match req with
  | JUndefined | JNull => False
  | _ => True
  end.

(** A candidate [course] requirement whose [minGrade] is any value. *)
Definition courseCandidate (c : string) (minGrade : JsValue)
    (can must : option bool) : JsValue :=
  JObject ([("type", JString "course"); ("course", JString c);
            ("minGrade", minGrade)]
           ++ optField "canBeTakenConcurrently" JBool can
           ++ optField "mustBeTakenConcurrently" JBool must)%list.

Definition minGradeMessage : string :=
  "minGrade must be a number between 0 and 100".

Definition groupLogics : list string := ["ALL_OF"; "ONE_OF"; "TWO_OF"].

(** Registering an edge given as a record, under a key. *)
Definition register (linkMap : Map Link) (linkKey : string) (l : Link)
  : Map Link :=
  upsertLink linkMap linkKey (source l) (target l) (value l).

(** A parsed course with prerequisites and corequisites only. *)
Definition parsedCourse (courseId dept : string)
    (prereq coreq : option Requirements) : CourseSaveFile :=
  {| course := courseId;
     status := parsed;
     parsedRequirements :=
       Some {| department := dept; code := EmptyString;
               prerequisites := prereq; corequisites := coreq;
               recommendedPrerequisites := None;
               recommendedCorequisites := None |} |}.

Definition courseNamed (c : string) : Requirements :=
  RequirementCourse c None None None.

(** The edges a parsed course offers to the edge map, as (source, target,
    extracted weight): one per prerequisite leaf, two per corequisite
    leaf. *)
Definition offeredBy (c : CourseSaveFile) : list (string * string * Q) :=
  match parsedRequirements c with
  | None => []%list
  | Some req =>
      (match prerequisites req with
       | Some tree =>
           map (fun p : string * Q => (fst p, course c, snd p))
             (extractCourseRequirementsWithValues tree 1%Q)
       | None => []%list
       end
       ++
       match corequisites req with
       | Some tree =>
           flat_map
             (fun p : string * Q =>
                [(fst p, course c, snd p); (course c, fst p, snd p)])
             (extractCourseRequirementsWithValues tree 1%Q)
       | None => []%list
       end)%list
  end.

Definition offered (courses : list CourseSaveFile)
  : list (string * string * Q) :=
  flat_map offeredBy (parsedCoursesOf courses).

(** Every edge of the graph carries the weight of an offer, as it is. *)
Definition carriesExactWeight (courses : list CourseSaveFile) : Prop :=
  forall l : Link,
    In l (links (generateNodesAndLinks courses)) ->
    exists w : Q,
      In (source l, target l, w) (offered courses) /\ (value l == w)%Q.

(** An edge map all of whose edges come from the offers [offers]. *)
Definition fromOffers (offers : list (string * string * Q)) (m : Map Link)
  : Prop :=
  forall l : Link,
    In l (map_values m) ->
    exists w : Q, In (source l, target l, w) offers /\ value l = round2 w.

(** A course X that needs one of A, B, C. *)
Definition oneOfThree : list CourseSaveFile :=
  [parsedCourse "X" "X"
     (Some (RequirementGroup ONE_OF
              [courseNamed "A"; courseNamed "B"; courseNamed "C"])) None].

(** A needs B, and has one of B, C as a corequisite. *)
Definition prereqAndCoreq : list CourseSaveFile :=
  [parsedCourse "A" "A" (Some (courseNamed "B"))
     (Some (RequirementGroup ONE_OF [courseNamed "B"; courseNamed "C"]))].

(** Every corequisite leaf [q] of a course yields the two edges between [q]
    and the course, with equal value. *)
Definition corequisitesSymmetric (courses : list CourseSaveFile) : Prop :=
  forall (c : CourseSaveFile) (req : CourseParsedRequirements)
         (tree : Requirements) (q : string) (w : Q),
    In c (parsedCoursesOf courses) ->
    parsedRequirements c = Some req ->
    corequisites req = Some tree ->
    In (q, w) (extractCourseRequirementsWithValues tree 1%Q) ->
    exists l1 l2 : Link,
      In l1 (links (generateNodesAndLinks courses)) /\
      In l2 (links (generateNodesAndLinks courses)) /\
      source l1 = q /\ target l1 = course c /\
      source l2 = course c /\ target l2 = q /\
      (value l1 == value l2)%Q.

(** The map holds under [k] an edge of value at least [v]. *)
Definition holdsAtLeast (k : string) (v : Q) (m : Map Link) : Prop :=
  exists l : Link, map_get k m = Some l /\ (v <= value l)%Q.

(** The edge map at the end of the second pass. *)
Definition finalLinkMap (courses : list CourseSaveFile) : Map Link :=
  snd (secondPass (parsedCoursesOf courses)
         (resolveDepths (parsedCoursesOf courses))).

(** The depth table after [n] passes over the parsed courses. *)
Fixpoint afterPasses (parsedCourses : list CourseSaveFile) (n : nat)
    (courseDepths : Map nat) : Map nat :=
  match n with
  | 0 => courseDepths
  | S k => fst (relaxPass parsedCourses (afterPasses parsedCourses k courseDepths))
  end.

(** Whether the pass number [n + 1] changes the table it starts from. *)
Definition passChanges (parsedCourses : list CourseSaveFile) (n : nat)
    (courseDepths : Map nat) : bool :=
  snd (relaxPass parsedCourses (afterPasses parsedCourses n courseDepths)).

(** Two courses that require each other. *)
Definition cyclicPair : list CourseSaveFile :=
  [parsedCourse "A" "A" (Some (courseNamed "B")) None;
   parsedCourse "B" "B" (Some (courseNamed "A")) None].

End Spec.
Import Spec.

(* ================================================================== *)
(** ** source/utilities.ts: the pretty printer *)

Module Printer.

Definition newline : string := String (ascii_of_nat 10) EmptyString.

(** [s.repeat(n)] *)
Fixpoint repeatText (s : string) (n : nat) : string :=
  match n with
  | 0 => EmptyString
  | S k => s ++ repeatText s k
  end.

(** [l.join(sep)] *)
Fixpoint joinText (sep : string) (l : list string) : string :=
  match l with
  | []%list => EmptyString
  | [x]%list => x
  | (x :: rest)%list => x ++ sep ++ joinText sep rest
  end.

(** [if (req.minGrade)] on an optional number. *)
Definition truthyNumber (g : option number) : bool :=
  match g with
  | Some n => truthy (JNumber n)
  | None => false
  end.

(** [g >= b] *)
Definition geNumber (g : number) (b : Z) : bool := num_leb (num_of_Z b) g.

(** The chain of conditionals that turns a percentage into a letter. *)
Definition gradeStr (minGrade : number) : string :=
  if geNumber minGrade 85 then "A"
  else if geNumber minGrade 80 then "A-"
  else if geNumber minGrade 77 then "B+"
  else if geNumber minGrade 73 then "B"
  else if geNumber minGrade 70 then "B-"
  else if geNumber minGrade 67 then "C+"
  else if geNumber minGrade 64 then "C"
  else if geNumber minGrade 60 then "C-"
  else if geNumber minGrade 57 then "D+"
  else if geNumber minGrade 53 then "D"
  else if geNumber minGrade 50 then "D-"
  else "F".

(** [if (req.minGrade) { ...; str += ` (minimum "${gradeStr}")` }] *)
Definition gradeSuffix (g : option number) : string :=
  match g with
  | Some n =>
      if truthy (JNumber n)
      then " (minimum " ++ quote ++ gradeStr n ++ quote ++ ")"
      else EmptyString
  | None => EmptyString
  end.

(** [if (flag) str += text] on an optional boolean. *)
Definition flagSuffix (flag : option bool) (text : string) : string :=
  match flag with
  | Some true => text
  | _ => EmptyString
  end.

(** [Array.isArray(x) ? x.join(', ') : x] *)
Definition oneOrManyText {T : Type} (f : T -> string) (v : oneOrMany T) : string :=
  match v with
  | One x => f x
  | Many xs => joinText ", " (map f xs)
  end.

(** [if (req.department)] and [if (req.level)]: an array is truthy, a
    string is when it is not empty. *)
Definition truthyOneOrMany {T : Type} (f : T -> string) (v : option (oneOrMany T))
  : bool :=
  match v with
  | Some (One x) => negb (f x =? EmptyString)
  | Some (Many _) => true
  | None => false
  end.

(** The [department], [level] and [minGrade] suffixes of the two count
    variants. *)
Definition countSuffix (d : option (oneOrMany string))
    (l : option (oneOrMany courseLevels)) (g : option number) : string :=
  (match d with
   | Some v =>
       if truthyOneOrMany (fun s => s) d
       then " in " ++ oneOrManyText (fun s => s) v
       else EmptyString
   | None => EmptyString
   end)
  ++ (match l with
      | Some v =>
          if truthyOneOrMany levelName l
          then " (level " ++ oneOrManyText levelName v ++ ")"
          else EmptyString
      | None => EmptyString
      end)
  ++ gradeSuffix g.

Section Numbers.

(** [`${n}`] for a number: the text JavaScript gives it. *)
Variable numberText : number -> string.

(** [prettyPrintRequirements(req, indent)] on a typed tree; the two
    fallback texts of the source are for values outside the type. *)
Fixpoint prettyPrintRequirements (req : Requirements) (indent : nat) : string :=
  let spaces := repeatText "  " indent in
  match req with
  | RequirementGroup logic children =>
      fold_left
        (fun result child =>
           result ++ newline ++ prettyPrintRequirements child (indent + 1))
        children
        (spaces ++ "Group (" ++ logicName logic ++ "):")
  | RequirementCourse c g can must =>
      spaces ++ c ++ gradeSuffix g
      ++ flagSuffix can " (can be concurrent)"
      ++ flagSuffix must " (must be concurrent)"
  | RequirementCreditCount n d l g =>
      spaces ++ numberText n ++ " credits" ++ countSuffix d l g
  | RequirementCourseCount n d l g =>
      spaces ++ numberText n ++ " courses" ++ countSuffix d l g
  | RequirementStanding s => spaces ++ "Standing: " ++ standingName s
  | RequirementProgram p => spaces ++ "Program: " ++ p
  | RequirementPermission n => spaces ++ "Permission: " ++ n
  | RequirementOther n => spaces ++ "Other: " ++ n
  end.

(** One [if (parsed.f) { if (result) result += '\n'; result += header;
    result += prettyPrintRequirements(parsed.f, spacing) }] block. *)
Definition printSection (result : string) (tree : option Requirements)
    (header : string) (spacing : nat) : string :=
  match tree with
  | Some r =>
      (if negb (result =? EmptyString) then result ++ newline else result)
      ++ repeatText "  " spacing ++ header ++ newline
      ++ prettyPrintRequirements r spacing
  | None => result
  end.

(** [prettyPrintCourseParsedRequirements(parsed, spacing)] *)
Definition prettyPrintCourseParsedRequirements (p : CourseParsedRequirements)
    (spacing : nat) : string :=
  let result := EmptyString in
  let result := printSection result (prerequisites p) "Prerequisite:" spacing in
  let result := printSection result (corequisites p) "Corequisite:" spacing in
  let result :=
    printSection result (recommendedPrerequisites p)
      "Recommended Prerequisite:" spacing in
  printSection result (recommendedCorequisites p)
    "Recommended Corequisite:" spacing.

End Numbers.

End Printer.
Import Printer.

(* ================================================================== *)
(** ** source/stats.ts: the pure helpers *)

Module Stats.

(** What [getRequirementDepth] returns: a count of levels, or -Infinity. *)
Inductive depthValue : Type :=
| MinusInfinity
| Levels (n : nat).

Definition maxValue (a b : depthValue) : depthValue :=
  match a, b with
  | MinusInfinity, _ => b
  | _, MinusInfinity => a
  | Levels x, Levels y => Levels (Nat.max x y)
  end.

(** [Math.max(...l)], which is -Infinity without arguments. *)
Definition maxOf (l : list depthValue) : depthValue :=
  fold_left maxValue l MinusInfinity.

(** [1 + v] *)
Definition onePlus (v : depthValue) : depthValue :=
  match v with
  | MinusInfinity => MinusInfinity
  | Levels n => Levels (1 + n)
  end.

Fixpoint getRequirementDepth (req : Requirements) : depthValue :=
  match req with
  | RequirementGroup _ children =>
      onePlus (maxOf (map getRequirementDepth children))
  | _ => Levels 1
  end.

(** [req.type] *)
Definition typeName (req : Requirements) : string :=
  match req with
  | RequirementGroup _ _ => "group"
  | RequirementCourse _ _ _ _ => "course"
  | RequirementCreditCount _ _ _ _ => "credit_count"
  | RequirementCourseCount _ _ _ _ => "course_count"
  | RequirementStanding _ => "standing"
  | RequirementProgram _ => "program"
  | RequirementPermission _ => "permission"
  | RequirementOther _ => "other"
  end.

(** [analyzeRequirementTypes(req, typeCounts)]: the counters after the
    call; the [Record<string, number>] is a map in insertion order. *)
Fixpoint analyzeRequirementTypes (req : Requirements) (typeCounts : Map nat)
  : Map nat :=
  let typeCounts :=
    map_set (typeName req) (getOrZero (typeName req) typeCounts + 1) typeCounts in
  match req with
  | RequirementGroup _ children =>
      fold_left (fun counts child => analyzeRequirementTypes child counts)
        children typeCounts
  | _ => typeCounts
  end.

(** [s.includes(sub)] *)
Fixpoint includesText (s sub : string) : bool :=
  String.prefix sub s
  || match s with
     | EmptyString => false
     | String _ rest => includesText rest sub
     end.

Definition extractErrorType (errorMessage : string) : string :=
  if includesText errorMessage "validation" then "Validation Error"
  else if includesText errorMessage "schema" then "Schema Error"
  else if includesText errorMessage "JSON" then "JSON Parse Error"
  else if includesText errorMessage "prerequisites" then "Prerequisites Error"
  else if includesText errorMessage "corequisites" then "Corequisites Error"
  else "Other Error".

End Stats.
Import Stats.

(* ================================================================== *)
(** ** source/export.ts: the CSV writer *)

Module Csv.

Definition quoteChar : ascii := ascii_of_nat 34.

(** [value.replace] of every quote by two quotes. *)
Fixpoint doubleQuotes (s : string) : string :=
  match s with
  | EmptyString => EmptyString
  | String c rest =>
      if Ascii.eqb c quoteChar
      then String quoteChar (String quoteChar (doubleQuotes rest))
      else String c (doubleQuotes rest)
  end.

(** The object a node is at run time, its keys in the order in which the
    second pass writes them. *)
Definition nodeObject (n : Node) : list (string * JsValue) :=
  [("id", JString (id n)); ("title", JString (title n));
   ("dept", JString (dept n));
   ("size", JNumber (num_of_Z (Z.of_nat (size n))));
   ("depth", JNumber (num_of_Z (Z.of_nat (depth n))))].

Definition linkObject (l : Link) : list (string * JsValue) :=
  [("source", JString (source l)); ("target", JString (target l));
   ("value", JNumber (Finite (value l)))].

Section Numbers.

(** [`${n}`] for a number: the text JavaScript gives it. *)
Variable numberText : number -> string.

(** The text [Array.prototype.join] puts in for an element: nothing for
    [undefined] and [null], the string of the value otherwise. *)
Fixpoint joinedText (v : JsValue) : string :=
  match v with
  | JUndefined | JNull => EmptyString
  | JBool true => "true"
  | JBool false => "false"
  | JNumber n => numberText n
  | JString s => s
  | JArray elements => joinText "," (map joinedText elements)
  | JObject _ => "[object Object]"
  end.

(** The callback of [headers.map]: the value of the row under [header],
    put in quotes when it is a string with a comma or a quote. *)
Definition csvValue (row : list (string * JsValue)) (header : string) : JsValue :=
  let value := lookup header row in
  match value with
  | JString s =>
      if includesText s "," || includesText s quote
      then JString (quote ++ doubleQuotes s ++ quote)
      else value
  | _ => value
  end.

(** [values.join(',')] for one row. *)
Definition csvRow (headers : list string) (row : list (string * JsValue))
  : string :=
  joinText "," (map (fun header => joinedText (csvValue row header)) headers).

(** [arrayToCSV(data)], the rows being objects given by their keys and
    values. *)
Definition arrayToCSV (data : list (list (string * JsValue))) : string :=
  match data with
  | []%list => EmptyString
  | (first :: _)%list =>
      let headers := map fst first in
      let csvRows := [joinText "," headers]%list in
      let csvRows := (csvRows ++ map (csvRow headers) data)%list in
      joinText newline csvRows
  end.

End Numbers.

End Csv.
Import Csv.

(* ================================================================== *)
(** ** Notions for the further properties *)

Module Notions.

(** The key under which an edge is stored. *)
Definition edgeKey (l : Link) : string := linkKeyOf (source l) (target l).

(** The number of edges that point at [k]. *)
Definition inDegree (linkArray : list Link) (k : string) : nat :=
  List.length (filter (fun l => target l =? k) linkArray).

(** What the second pass keeps true of its two maps: a node sits under its
    own identifier, with the resolved depth and no size yet; an edge sits
    under its own key and both its ends have a node; no key is held twice.
    (The title is the identifier throughout.) *)
Record assembled (courseDepths : Map nat) (st : Map Node * Map Link) : Prop := {
  nodes_own :
    forall k n, In (k, n) (fst st) ->
      id n = k /\ depth n = getOrZero k courseDepths /\ size n = 0 /\
      title n = k;
  nodes_once : NoDup (map fst (fst st));
  links_own :
    forall k l, In (k, l) (snd st) ->
      k = edgeKey l /\
      map_has (source l) (fst st) = true /\ map_has (target l) (fst st) = true;
  links_once : NoDup (map fst (snd st))
}.

(** The node map at the end of the second pass, and the depth table it
    was built with. *)
Definition resolvedDepths (courses : list CourseSaveFile) : Map nat :=
  resolveDepths (parsedCoursesOf courses).

Definition finalNodeMap (courses : list CourseSaveFile) : Map Node :=
  fst (secondPass (parsedCoursesOf courses) (resolvedDepths courses)).

(** Every depth of the table is at most [bound]. *)
Definition boundedBy (bound : nat) (courseDepths : Map nat) : Prop :=
  forall k, getOrZero k courseDepths <= bound.

Definition hasCourseLeaf (tree : option Requirements) : bool :=
  match tree with
  | Some r => negb (List.length (courseLeaves r) =? 0)%nat
  | None => false
  end.

(** The record names a course among its prerequisites or corequisites. *)
Definition namesCourse (c : CourseSaveFile) : bool :=
  match parsedRequirements c with
  | Some req => hasCourseLeaf (prerequisites req) || hasCourseLeaf (corequisites req)
  | None => false
  end.

(** [s] is not the empty string. *)
Definition nonEmpty (s : string) : bool := negb (s =? EmptyString).

(** An absent grade, or one that is neither below 0 nor above 100. *)
Definition gradeInRange (g : option number) : bool :=
  match g with
  | None => true
  | Some n => negb (num_ltb n (num_of_Z 0)) && negb (num_ltb (num_of_Z 100) n)
  end.

(** A number that is truthy and not at most 0. *)
Definition positiveNumber (n : number) : bool :=
  truthy (JNumber n) && negb (num_leb n (num_of_Z 0)).

(** The typed trees the validator accepts. *)
Fixpoint wellFormed (r : Requirements) : bool :=
  match r with
  | RequirementGroup _ children =>
      negb (List.length children =? 0)%nat && forallb wellFormed children
  | RequirementCourse c g _ _ => nonEmpty c && gradeInRange g
  | RequirementCreditCount n _ _ g => positiveNumber n && gradeInRange g
  | RequirementCourseCount n _ _ g => positiveNumber n && gradeInRange g
  | RequirementStanding _ => true
  | RequirementProgram p => nonEmpty p
  | RequirementPermission n => nonEmpty n
  | RequirementOther n => nonEmpty n
  end.

Definition wellFormedOption (tree : option Requirements) : bool :=
  match tree with
  | Some r => wellFormed r
  | None => true
  end.

(** What a call answers on a typed tree: a record whose flag is
    [wellFormed]. *)
Definition answers (c : completion ValidationResult) (r : Requirements) : Prop :=
  exists res, c = Normal res /\ isValid res = wellFormed r.

(** A group marked [recommended: true], a boolean where the second copy of
    the validator wants the string. *)
Definition recommendedGroup : JsValue :=
  JObject [("type", JString "group"); ("logic", JString "ALL_OF");
           ("children", JArray [toJs (courseNamed "CPSC 110")]);
           ("recommended", JBool true)].

(** The eight discriminants. *)
Definition knownTypes : list string :=
  ["group"; "course"; "credit_count"; "course_count"; "standing"; "program";
   "permission"; "other"].

(** The optional fields of a record in the order they are validated, each
    with the label its error message carries. *)
Definition optionalFields : list (string * string) :=
  [("prerequisites", "prerequisites");
   ("corequisites", "corequisites");
   ("recommendedPrerequisites", "recommended prerequisites");
   ("recommendedCorequisites", "recommended corequisites")].

(** An optional field that does not stop the validation: it is falsy, or
    the requirement it holds is accepted. *)
Definition passes (rev : Revision) (v : JsValue) : Prop :=
  truthy v = false \/ validateRequirements rev v = Normal valid.

(** A record value whose department and code are non-empty strings. *)
Definition hasIdentity (props : list (string * JsValue)) : Prop :=
  (exists d, lookup "department" props = JString d /\ d <> EmptyString) /\
  (exists c, lookup "code" props = JString c /\ c <> EmptyString).

(** A group all of whose children are hollow, in particular one without
    children. *)
Fixpoint hollow (r : Requirements) : bool :=
  match r with
  | RequirementGroup _ children => forallb hollow children
  | _ => false
  end.

(** No group of the tree is without children. *)
Fixpoint noEmptyGroup (r : Requirements) : bool :=
  match r with
  | RequirementGroup _ children =>
      negb (List.length children =? 0)%nat && forallb noEmptyGroup children
  | _ => true
  end.

(** The number of nodes on the longest path from the root to a leaf. *)
Fixpoint height (r : Requirements) : nat :=
  match r with
  | RequirementGroup _ children => 1 + fold_left Nat.max (map height children) 0
  | _ => 1
  end.

(** The number of nodes of the tree whose type is [k]. *)
Fixpoint countType (k : string) (r : Requirements) : nat :=
  (if typeName r =? k then 1 else 0)
  + match r with
    | RequirementGroup _ children => list_sum (map (countType k) children)
    | _ => 0
    end.

(** The words [extractErrorType] looks for, in its order. *)
Definition keywords : list string :=
  [ "validation"; "schema"; "JSON"; "prerequisites"; "corequisites" ].

(** A message that holds none of these words. *)
Definition quiet (s : string) : bool :=
  forallb (fun k => negb (includesText s k)) keywords.

(** A call that returns a record which is valid or whose message is
    quiet. *)
Definition answersQuietly (c : completion ValidationResult) : Prop :=
  exists res, c = Normal res /\ isValid res || quiet (errorText res) = true.

(** The class of the first thing that is wrong in a typed record. *)
Definition errorClass (p : CourseParsedRequirements) : string :=
  if negb (nonEmpty (department p)) || negb (nonEmpty (code p))
  then "Other Error"
  else if negb (wellFormedOption (prerequisites p)) then "Prerequisites Error"
  else if negb (wellFormedOption (corequisites p)) then "Corequisites Error"
  else if negb (wellFormedOption (recommendedPrerequisites p))
  then "Prerequisites Error"
  else "Corequisites Error".

(** The place of a letter grade on the scale, "F" lowest. *)
Definition letterRank (letter : string) : nat :=
  if letter =? "A" then 11
  else if letter =? "A-" then 10
  else if letter =? "B+" then 9
  else if letter =? "B" then 8
  else if letter =? "B-" then 7
  else if letter =? "C+" then 6
  else if letter =? "C" then 5
  else if letter =? "C-" then 4
  else if letter =? "D+" then 3
  else if letter =? "D" then 2
  else if letter =? "D-" then 1
  else 0.

(** The number of nodes of a tree. *)
Fixpoint nodeCount (r : Requirements) : nat :=
  match r with
  | RequirementGroup _ children => 1 + list_sum (map nodeCount children)
  | _ => 1
  end.

(** The lines of a tree, one for each node, a group before its children
    and these one level further in. *)
Fixpoint outline (numberText : number -> string) (r : Requirements)
    (indent : nat) : list string :=
  match r with
  | RequirementGroup logic children =>
      (repeatText "  " indent ++ "Group (" ++ logicName logic ++ "):")
      :: flat_map (fun c => outline numberText c (indent + 1)) children
  | _ => [prettyPrintRequirements numberText r indent]
  end.

(** The lines of one section of a record: its header and its tree. *)
Definition sectionLines (numberText : number -> string)
    (tree : option Requirements) (header : string) (spacing : nat)
  : list string :=
  match tree with
  | Some r => (repeatText "  " spacing ++ header) :: outline numberText r spacing
  | None => []
  end.

(** The lines of a record: those of the sections it has, in order. *)
Definition recordLines (numberText : number -> string)
    (p : CourseParsedRequirements) (spacing : nat) : list string :=
  (sectionLines numberText (prerequisites p) "Prerequisite:" spacing
   ++ sectionLines numberText (corequisites p) "Corequisite:" spacing
   ++ sectionLines numberText (recommendedPrerequisites p)
        "Recommended Prerequisite:" spacing
   ++ sectionLines numberText (recommendedCorequisites p)
        "Recommended Corequisite:" spacing)%list.

(** Lines of which the first, if there is one, is not empty. *)
Definition startsFilled (lines : list string) : Prop :=
  match lines with
  | x :: _ => x <> EmptyString
  | [] => True
  end.

(** Where the department of the node of course [k] can come from: the
    first word of [k], or the record of a parsed course [k]. *)
Definition namedDept (courses : list CourseSaveFile) (k d : string) : Prop :=
  d = deptOfId k \/
  exists c req,
    In c (parsedCoursesOf courses) /\ parsedRequirements c = Some req /\
    course c = k /\ d = department req.


(** A reader of one line of CSV: fields are separated by commas; a field
    that starts with a quote runs to the next quote that is not doubled,
    and a doubled quote inside it stands for one quote.  [quoted] tells
    whether the reader is inside such a field, [field] is what it has read
    of the current field. *)
Fixpoint readCsv (s : string) (quoted : bool) (field : string) : list string :=
  match s with
  | EmptyString => [field]
  | String c rest =>
      if quoted then
        if Ascii.eqb c quoteChar then
          match rest with
          | String c' rest' =>
              if Ascii.eqb c' quoteChar
              then readCsv rest' true (field ++ String quoteChar EmptyString)
              else readCsv rest false field
          | EmptyString => [field]
          end
        else readCsv rest true (field ++ String c EmptyString)
      else if Ascii.eqb c ","%char then field :: readCsv rest false EmptyString
      else if Ascii.eqb c quoteChar && (field =? EmptyString)
      then readCsv rest true field
      else readCsv rest false (field ++ String c EmptyString)
  end.

(** A text without a comma and without a quote. *)
Definition plainText (s : string) : bool :=
  negb (includesText s ",") && negb (includesText s quote).

(** A value the writer can put into a row: a string, or a value whose
    text is plain. *)
Definition writable (numberText : number -> string) (v : JsValue) : Prop :=
  match v with
  | JString _ => True
  | _ => plainText (joinedText numberText v) = true
  end.

(** A text without a hyphen. *)
Definition noDash (s : string) : Prop :=
  ~ In "-"%char (list_ascii_of_string s).

(** The depth one tree of a record asks for, 0 when the record has none. *)
Definition treeDepth (tree : option Requirements) (courseDepths : Map nat)
  : nat :=
  match tree with
  | Some r => calculatePrerequisiteDepth r courseDepths
  | None => 0
  end.

(** The depth a record asks for: the larger of what its prerequisites and
    its corequisites give from the table. *)
Definition requiredDepth (req : CourseParsedRequirements)
    (courseDepths : Map nat) : nat :=
  Nat.max (treeDepth (prerequisites req) courseDepths)
          (treeDepth (corequisites req) courseDepths).

(** A table in which every course is at least as deep as its record asks
    for. *)
Definition settled (parsedCourses : list CourseSaveFile)
    (courseDepths : Map nat) : Prop :=
  forall c req,
    In c parsedCourses -> parsedRequirements c = Some req ->
    requiredDepth req courseDepths <= getOrZero (course c) courseDepths.

(** X needs all of Y and Z inside a group, Y has Z as a corequisite. *)
Definition groupAndCorequisite : list CourseSaveFile :=
  [parsedCourse "X" "X"
     (Some (RequirementGroup ALL_OF [courseNamed "Y"; courseNamed "Z"])) None;
   parsedCourse "Y" "Y" None (Some (courseNamed "Z"));
   parsedCourse "Z" "Z" None None].

(** The courses a tree names, none for an absent tree. *)
Definition optionLeaves (tree : option Requirements) : list string :=
  match tree with
  | Some r => courseLeaves r
  | None => []
  end.

(** The times the second pass comes upon a course while it handles [c],
    each with the department it would give the node: first the course of
    the record with the department of the record, then the courses its
    prerequisites name and then those its corequisites name, each with the
    first word of its id. *)
Definition mentions (c : CourseSaveFile) : list (string * string) :=
  match parsedRequirements c with
  | Some req =>
      (course c, department req)
      :: (map (fun q => (q, deptOfId q)) (optionLeaves (prerequisites req))
          ++ map (fun q => (q, deptOfId q)) (optionLeaves (corequisites req)))%list
  | None => []
  end.

(** All of them, in the order of the second pass. *)
Definition mentioned (courses : list CourseSaveFile) : list (string * string) :=
  flat_map mentions (parsedCoursesOf courses).

(** The nodes of the map carry the department of their first mention. *)
Definition deptsFirst (nodesMap : Map Node) (ms : list (string * string)) : Prop :=
  forall k, option_map dept (map_get k nodesMap) = map_get k ms.

(** X 1 needs C 1, whose own record comes later and says department ZED. *)
Definition referredFirst : list CourseSaveFile :=
  [parsedCourse "X 1" "X" (Some (courseNamed "C 1")) None;
   parsedCourse "C 1" "ZED" None None].

(** The same two records in the other order. *)
Definition recordFirst : list CourseSaveFile :=
  [parsedCourse "C 1" "ZED" None None;
   parsedCourse "X 1" "X" (Some (courseNamed "C 1")) None].

End Notions.
Import Notions.

(* ================================================================== *)
(** ** Lists, maps and rationals *)

Lemma fold_left_app_flat_map {A B : Type} (f : A -> list B) (l : list A)
    (acc : list B) :
  fold_left (fun xs a => (xs ++ f a)%list) l acc = (acc ++ flat_map f l)%list.
Proof.
  revert acc. induction l as [|a l IH]; intros acc; simpl.
  - now rewrite app_nil_r.
  - rewrite IH. now rewrite app_assoc.
Qed.

(** Induction on requirement trees, with the hypothesis on every child. *)
Lemma Requirements_nested_ind (P : Requirements -> Prop) :
  (forall logic children, Forall P children ->
     P (RequirementGroup logic children)) ->
  (forall r, isGroup r = false -> P r) ->
  forall r, P r.
Proof.
  intros Hgroup Hleaf.
  fix IH 1.
  intros r. destruct r as [logic children| | | | | | |];
    try (apply Hleaf; reflexivity).
  apply Hgroup.
  induction children as [|c cs IHcs]; constructor.
  - apply IH.
  - exact IHcs.
Qed.

(* ================================================================== *)
(** ** Dependency extractor *)

(** A group hands one value to all its children and concatenates what they
    emit. *)
Lemma extract_group (logic : Logic) (children : list Requirements) (w : Q) :
  extractCourseRequirementsWithValues (RequirementGroup logic children) w =
  flat_map
    (fun child =>
       extractCourseRequirementsWithValues child
         match logic with
         | ONE_OF => divide w (ofNat (List.length children))
         | TWO_OF => divide (times w 2%Q) (ofNat (List.length children))
         | ALL_OF => w
         end)
    children.
Proof.
  simpl. now rewrite fold_left_app_flat_map.
Qed.

Lemma divide_spec (a b : Q) : (divide a b == a / b)%Q.
Proof. unfold divide. apply Qred_correct. Qed.

Lemma times_spec (a b : Q) : (times a b == a * b)%Q.
Proof. unfold times. apply Qred_correct. Qed.

Lemma extract_leaves (r : Requirements) :
  forall w, map fst (extractCourseRequirementsWithValues r w) = courseLeaves r.
Proof.
  induction r as [logic children IH|r Hr] using Requirements_nested_ind;
    intros w.
  - rewrite extract_group. simpl courseLeaves.
    generalize (match logic with
                | ONE_OF => divide w (ofNat (List.length children))
                | TWO_OF => divide (times w 2%Q) (ofNat (List.length children))
                | ALL_OF => w
                end) as v.
    intros v. induction IH as [|c cs Hc _ IHcs]; simpl; [reflexivity|].
    rewrite map_app, Hc. f_equal. apply IHcs.
  - destruct r; try discriminate Hr; reflexivity.
Qed.

(** The value handed down is, as a number, the one of [childWeight]. *)
Lemma childValue_spec (logic : Logic) (w : Q) (n : nat) :
  (match logic with
   | ONE_OF => divide w (ofNat n)
   | TWO_OF => divide (times w 2%Q) (ofNat n)
   | ALL_OF => w
   end == childWeight logic w n)%Q.
Proof.
  destruct logic; simpl.
  - reflexivity.
  - apply divide_spec.
  - rewrite divide_spec, times_spec. reflexivity.
Qed.

(** C1.  Weight distribution of the dependency extractor: at every weight
    [w], a group emits what its children emit, in order, each child being
    called with one common value [v]; [v] is [w] itself under ALL_OF, [w]
    divided by the number of children under ONE_OF, and twice [w] divided by
    the number of children under TWO_OF.  In particular
    ALL_OF[A, ONE_OF[B, C]] at weight 1 gives A:1, B:1/2, C:1/2. *)
Theorem C1_weight_distribution :
  (forall (logic : Logic) (children : list Requirements) (w : Q),
      exists v : Q,
        (v == childWeight logic w (List.length children))%Q /\
        (logic = ALL_OF -> v = w) /\
        extractCourseRequirementsWithValues (RequirementGroup logic children) w =
        flat_map (fun child => extractCourseRequirementsWithValues child v)
          children) /\
  (forall (c : string) g can must (w : Q),
      extractCourseRequirementsWithValues (RequirementCourse c g can must) w =
      [(c, w)]) /\
  extractCourseRequirementsWithValues
    (RequirementGroup ALL_OF
       [RequirementCourse "A" None None None;
        RequirementGroup ONE_OF
          [RequirementCourse "B" None None None;
           RequirementCourse "C" None None None]]) 1%Q =
  [("A", 1%Q); ("B", (1 # 2)%Q); ("C", (1 # 2)%Q)].
Proof.
  split; [|split].
  - intros logic children w.
    eexists. split; [apply childValue_spec|]. split.
    + intros ->. reflexivity.
    + apply extract_group.
  - reflexivity.
  - reflexivity.
Qed.

(* ================================================================== *)
(** ** Schema validator: the recursion *)

Lemma forChildren_ext (self1 self2 : JsValue -> completion ValidationResult)
    (cs : list JsValue) :
  (forall c, In c cs -> self1 c = self2 c) ->
  forall i after,
    forChildren self1 i cs after = forChildren self2 i cs after.
Proof.
  induction cs as [|c cs IH]; intros Hagree i after; simpl; [reflexivity|].
  rewrite (Hagree c (or_introl eq_refl)).
  destruct (self2 c) as [r|e]; simpl; [|reflexivity].
  destruct (isValid r); simpl; [|reflexivity].
  apply IH. intros c' Hc'. apply Hagree. now right.
Qed.

Lemma validateRequirementsBody_ext rev
    (self1 self2 : JsValue -> completion ValidationResult) (req : JsValue) :
  (forall c, In c (childrenOf req) -> self1 c = self2 c) ->
  validateRequirementsBody rev self1 req = validateRequirementsBody rev self2 req.
Proof.
  intros Hagree. unfold validateRequirementsBody.
  destruct req as [| | | | |elements|props]; try reflexivity.
  cbn [getProp bind truthy typeof negb orb String.eqb Ascii.eqb Bool.eqb].
  destruct (negb (truthy (lookup "type" props))
            || negb (typeof (lookup "type" props) =? "string")); [reflexivity|].
  destruct (lookup "type" props) as [| | | |t| |]; try reflexivity.
  destruct (t =? "group"); [|reflexivity].
  unfold validateRequirementGroup. cbn [getProp bind].
  destruct (negb (truthy (lookup "logic" props)) || _); [reflexivity|].
  unfold childrenOf in Hagree.
  destruct (lookup "children" props) as [| | | | |cs|]; try reflexivity.
  destruct (List.length cs =? 0)%nat; [reflexivity|].
  now apply forChildren_ext.
Qed.

Lemma nesting_element (c : JsValue) (l : list JsValue) :
  In c l -> nesting c < nesting (JArray l).
Proof.
  simpl. induction l as [|x l IH]; simpl; [contradiction|].
  intros [->|Hin]; [lia|]. specialize (IH Hin). lia.
Qed.

Lemma nesting_lookup (k : string) (props : list (string * JsValue)) :
  nesting (lookup k props) < nesting (JObject props).
Proof.
  simpl. induction props as [|[k' v] props IH]; simpl; [lia|].
  destruct (k =? k'); simpl in *; lia.
Qed.

Lemma nesting_child (req c : JsValue) :
  In c (childrenOf req) -> S (nesting c) < nesting req.
Proof.
  destruct req as [| | | | | |props]; simpl; try contradiction.
  intros Hin. pose proof (nesting_lookup "children" props) as Hlt.
  destruct (lookup "children" props) as [| | | | |cs|]; try contradiction.
  pose proof (nesting_element c cs Hin). simpl in *. lia.
Qed.

(** Enough call frames: the result does not depend on how many are left. *)
Lemma validateRequirementsFuel_enough rev (n : nat) :
  forall (m : nat) (req : JsValue),
    nesting req < n -> nesting req < m ->
    validateRequirementsFuel rev n req = validateRequirementsFuel rev m req.
Proof.
  induction n as [|n IH]; intros m req Hn Hm; [lia|].
  destruct m as [|m]; [lia|]. simpl.
  apply validateRequirementsBody_ext.
  intros c Hc. pose proof (nesting_child req c Hc).
  apply IH; lia.
Qed.

(** The equation of [validateRequirements], as the source states it. *)
Lemma validateRequirements_eq rev (req : JsValue) :
  validateRequirements rev req =
  validateRequirementsBody rev (validateRequirements rev) req.
Proof.
  unfold validateRequirements at 1. simpl.
  apply validateRequirementsBody_ext.
  intros c Hc. pose proof (nesting_child req c Hc).
  unfold validateRequirements.
  apply validateRequirementsFuel_enough; lia.
Qed.

(* ================================================================== *)
(** ** Schema validator: no call raises *)

Lemma returnsRecord_valid : returnsRecord (ret valid).
Proof. exists valid. split; [reflexivity|]. left. now split. Qed.

Lemma returnsRecord_invalid (msg : string) : returnsRecord (ret (invalid msg)).
Proof.
  exists (invalid msg). split; [reflexivity|]. right. split; [reflexivity|].
  now exists msg.
Qed.

Create HintDb validator.
#[local] Hint Resolve returnsRecord_valid returnsRecord_invalid : validator.

(** Splits on the test or scrutinee at the head of the goal's computation. *)
Ltac split_head :=
  match goal with
  | |- returnsRecord (if ?b then _ else _) => destruct b
  | |- returnsRecord (match ?x with _ => _ end) => destruct x
  end.

Lemma getProp_objectLike (req : JsValue) (k : string) :
  isObjectLike req -> exists v, getProp req k = Normal v.
Proof. destruct req; simpl; intros H; try contradiction; eauto. Qed.

Ltac read_prop req k :=
  let v := fresh "v" in
  let Hv := fresh "Hv" in
  match goal with
  | Hobj : isObjectLike req |- _ =>
      destruct (getProp_objectLike req k Hobj) as [v Hv]; rewrite Hv; clear Hv;
      cbn [bind]
  end.

Lemma validateRequirementCourse_returns (req : JsValue) :
  isObjectLike req -> returnsRecord (validateRequirementCourse req).
Proof.
  intros Hobj. unfold validateRequirementCourse.
  read_prop req "course". split_head; auto with validator.
  read_prop req "minGrade". split_head; auto with validator.
  read_prop req "canBeTakenConcurrently". split_head; auto with validator.
  read_prop req "mustBeTakenConcurrently". split_head; auto with validator.
Qed.

Lemma validateCountOptions_returns rev (req : JsValue) :
  isObjectLike req -> returnsRecord (validateCountOptions rev req).
Proof.
  intros Hobj. unfold validateCountOptions.
  read_prop req "department". split_head; auto with validator.
  read_prop req "level". split_head; auto with validator.
  read_prop req "minGrade". split_head; auto with validator.
Qed.

Lemma validateRequirementCreditCount_returns rev (req : JsValue) :
  isObjectLike req -> returnsRecord (validateRequirementCreditCount rev req).
Proof.
  intros Hobj. unfold validateRequirementCreditCount.
  read_prop req "credits". split_head; auto with validator.
  now apply validateCountOptions_returns.
Qed.

Lemma validateRequirementCourseCount_returns rev (req : JsValue) :
  isObjectLike req -> returnsRecord (validateRequirementCourseCount rev req).
Proof.
  intros Hobj. unfold validateRequirementCourseCount.
  read_prop req "count". split_head; auto with validator.
  now apply validateCountOptions_returns.
Qed.

Lemma validateRequirementStanding_returns (req : JsValue) :
  isObjectLike req -> returnsRecord (validateRequirementStanding req).
Proof.
  intros Hobj. unfold validateRequirementStanding.
  read_prop req "standing". split_head; auto with validator.
Qed.

Lemma validateRequirementProgram_returns (req : JsValue) :
  isObjectLike req -> returnsRecord (validateRequirementProgram req).
Proof.
  intros Hobj. unfold validateRequirementProgram.
  read_prop req "program". split_head; auto with validator.
Qed.

Lemma validateRequirementPermission_returns (req : JsValue) :
  isObjectLike req -> returnsRecord (validateRequirementPermission req).
Proof.
  intros Hobj. unfold validateRequirementPermission.
  read_prop req "note". split_head; auto with validator.
Qed.

Lemma validateRequirementOther_returns (req : JsValue) :
  isObjectLike req -> returnsRecord (validateRequirementOther req).
Proof.
  intros Hobj. unfold validateRequirementOther.
  read_prop req "note". split_head; auto with validator.
Qed.

Lemma forChildren_returns (self : JsValue -> completion ValidationResult)
    (cs : list JsValue) :
  (forall c, In c cs -> returnsRecord (self c)) ->
  forall i after, returnsRecord after ->
    returnsRecord (forChildren self i cs after).
Proof.
  induction cs as [|c cs IH]; intros Hself i after Hafter; simpl;
    [assumption|].
  destruct (Hself c (or_introl eq_refl)) as [r [-> _]]. cbn [bind].
  split_head; auto with validator.
  apply IH; [|assumption]. intros c' Hc'. apply Hself. now right.
Qed.

Lemma validateRequirementGroup_returns rev
    (self : JsValue -> completion ValidationResult) (req : JsValue) :
  isObjectLike req ->
  (forall c, In c (childrenOf req) -> returnsRecord (self c)) ->
  returnsRecord (validateRequirementGroup rev self req).
Proof.
  intros Hobj Hself. unfold validateRequirementGroup.
  read_prop req "logic". split_head; auto with validator.
  destruct req as [| | | | |elements|props]; try contradiction;
    cbn [getProp bind]; auto with validator.
  unfold childrenOf in Hself.
  destruct (lookup "children" props) as [| | | | |cs|]; auto with validator.
  split_head; auto with validator.
  apply forChildren_returns; [assumption|].
  unfold afterChildren. destruct rev; auto with validator.
  cbn [getProp bind]. split_head; auto with validator.
Qed.

Lemma validateRequirementsBody_returns rev
    (self : JsValue -> completion ValidationResult) (req : JsValue) :
  (forall c, In c (childrenOf req) -> returnsRecord (self c)) ->
  returnsRecord (validateRequirementsBody rev self req).
Proof.
  intros Hself. unfold validateRequirementsBody.
  assert (Hcases : isObjectLike req \/ negb (truthy req) = true).
  { destruct req; simpl; auto. }
  destruct Hcases as [Hobj|Hfalsy].
  2:{ rewrite Hfalsy. cbn [orb]. auto with validator. }
  split_head; auto with validator.
  read_prop req "type". split_head; auto with validator.
  destruct v as [| | | |t| |]; auto with validator.
  repeat split_head;
    auto using validateRequirementGroup_returns,
      validateRequirementCourse_returns,
      validateRequirementCreditCount_returns,
      validateRequirementCourseCount_returns,
      validateRequirementStanding_returns,
      validateRequirementProgram_returns,
      validateRequirementPermission_returns,
      validateRequirementOther_returns with validator.
Qed.

(** [validateRequirements] returns a record on every value. *)
Lemma validateRequirements_returns rev (req : JsValue) :
  returnsRecord (validateRequirements rev req).
Proof.
  remember (nesting req) as n eqn:Hn.
  assert (Hle : nesting req <= n) by lia. clear Hn.
  revert req Hle.
  induction n as [n IH] using lt_wf_ind. intros req Hle.
  rewrite validateRequirements_eq.
  apply validateRequirementsBody_returns.
  intros c Hc. pose proof (nesting_child req c Hc).
  apply (IH (nesting c)); lia.
Qed.

Lemma validateOptional_returns rev (data : JsValue) (field label : string)
    (next : completion ValidationResult) :
  isObjectLike data -> returnsRecord next ->
  returnsRecord (validateOptional rev data field label next).
Proof.
  intros Hobj Hnext. unfold validateOptional.
  read_prop data field. split_head; [|assumption].
  destruct (validateRequirements_returns rev v) as [r [-> _]]. cbn [bind].
  split_head; auto with validator.
Qed.

Lemma validateParsedRequirementsTry_returns rev (data : JsValue) :
  returnsRecord (validateParsedRequirementsTry rev data).
Proof.
  unfold validateParsedRequirementsTry.
  assert (Hcases : isObjectLike data \/ negb (truthy data) = true).
  { destruct data; simpl; auto. }
  destruct Hcases as [Hobj|Hfalsy].
  2:{ rewrite Hfalsy. cbn [orb]. auto with validator. }
  split_head; auto with validator.
  read_prop data "department". split_head; auto with validator.
  read_prop data "code". split_head; auto with validator.
  repeat apply validateOptional_returns; auto with validator.
Qed.

(** C10.  Top-level validation is total: on every value whatsoever the
    [try] block of [validateParsedRequirements] completes normally with a
    record, never by raising, and [validateParsedRequirements] returns that
    record, which is either valid without an error message or invalid with
    one; and whatever a [try] block raises, the [catch] clause turns it into
    an invalid record with a message. *)
Theorem C10_validation_total :
  forall (rev : Revision) (data : JsValue),
    (exists r : ValidationResult,
        validateParsedRequirementsTry rev data = Normal r /\
        validateParsedRequirements rev data = r /\
        ((isValid r = true /\ error r = None) \/
         (isValid r = false /\ exists msg, error r = Some msg))) /\
    (forall e : thrown,
        isValid (catchValidation (Throw e)) = false /\
        exists msg, error (catchValidation (Throw e)) = Some msg).
Proof.
  intros rev data. split.
  - destruct (validateParsedRequirementsTry_returns rev data) as [r [Hr Hwf]].
    exists r. split; [assumption|]. split; [|exact Hwf].
    unfold validateParsedRequirements. now rewrite Hr.
  - intros [message|]; simpl; eauto.
Qed.

(* ================================================================== *)
(** ** Schema validator: grades and groups *)

Lemma eqb_empty_false (c : string) : c <> EmptyString -> (c =? EmptyString) = false.
Proof. intros Hc. now apply String.eqb_neq. Qed.

Lemma courseCandidate_result rev (c : string) (g : JsValue)
    (can must : option bool) :
  c <> EmptyString ->
  validateRequirements rev (courseCandidate c g can must) =
  Normal (if badMinGrade g then invalid minGradeMessage else valid).
Proof.
  intros Hc. rewrite validateRequirements_eq.
  unfold validateRequirementsBody, courseCandidate, validateRequirementCourse.
  cbn. rewrite (eqb_empty_false c Hc). cbn.
  destruct (badMinGrade g); [reflexivity|].
  destruct can as [can|], must as [must|]; reflexivity.
Qed.

Lemma badMinGrade_finite (q : Q) :
  badMinGrade (JNumber (Finite q)) = negb (Qle_bool 0 q && Qle_bool q 100).
Proof.
  unfold badMinGrade, ltNumber, gtNumber, num_of_Z, num_ltb, Qltb. cbn.
  change (inject_Z 0) with 0%Q. change (inject_Z 100) with 100%Q.
  now destruct (Qle_bool 0 q), (Qle_bool q 100).
Qed.

(** C8.  A [course] requirement named by a non-empty string, whatever its
    concurrency flags, is rejected with the minGrade message when its
    [minGrade] is -1, 101, any rational outside [0, 100] or any string, and
    accepted when it is 0, 100 or any rational within [0, 100]. *)
Theorem C8_minGrade_range :
  forall (rev : Revision) (c : string) (can must : option bool),
    c <> EmptyString ->
    let check g := validateRequirements rev (courseCandidate c g can must) in
    check (JNumber (num_of_Z (-1))) = Normal (invalid minGradeMessage) /\
    check (JNumber (num_of_Z 101)) = Normal (invalid minGradeMessage) /\
    (forall s : string, check (JString s) = Normal (invalid minGradeMessage)) /\
    check (JNumber (num_of_Z 0)) = Normal valid /\
    check (JNumber (num_of_Z 100)) = Normal valid /\
    (forall q : Q, (0 <= q)%Q -> (q <= 100)%Q ->
       check (JNumber (Finite q)) = Normal valid) /\
    (forall q : Q, (q < 0)%Q \/ (100 < q)%Q ->
       check (JNumber (Finite q)) = Normal (invalid minGradeMessage)).
Proof.
  intros rev c can must Hc check. unfold check.
  repeat split; intros; rewrite courseCandidate_result by assumption;
    try reflexivity.
  - rewrite badMinGrade_finite.
    assert (H1 : Qle_bool 0 q = true) by now apply Qle_bool_iff.
    assert (H2 : Qle_bool q 100 = true) by now apply Qle_bool_iff.
    now rewrite H1, H2.
  - rewrite badMinGrade_finite.
    destruct (Qle_bool 0 q) eqn:H0; [|reflexivity].
    destruct (Qle_bool q 100) eqn:H100; [|reflexivity].
    apply Qle_bool_iff in H0, H100.
    destruct H as [H|H]; exfalso.
    + exact (Qlt_not_le _ _ H H0).
    + exact (Qlt_not_le _ _ H H100).
Qed.

(** C8 at the course CPSC 110. *)
Lemma C8_minGrade_range_witness :
  "CPSC 110" <> EmptyString /\
  validateRequirements utilities_ts
    (courseCandidate "CPSC 110" (JNumber (num_of_Z 101)) None None) =
  Normal (invalid minGradeMessage).
Proof.
  split; [discriminate|].
  refine (proj1 (proj2 (C8_minGrade_range utilities_ts "CPSC 110" None None _))).
  discriminate.
Defined.

Lemma forChildren_first_failure
    (self : JsValue -> completion ValidationResult) (cs : list JsValue) :
  forall (i start : nat) (child : JsValue) (r : ValidationResult)
         (after : completion ValidationResult),
    nth_error cs i = Some child ->
    (forall j c, j < i -> nth_error cs j = Some c ->
       exists rj, self c = Normal rj /\ isValid rj = true) ->
    self child = Normal r -> isValid r = false ->
    forChildren self start cs after =
    Normal (invalid ("Invalid child at index " ++ indexText (start + i) ++ ": "
                     ++ errorText r)).
Proof.
  induction cs as [|c cs IH]; intros i start child r after Hnth Hbefore Hr Hbad.
  - destruct i; discriminate Hnth.
  - destruct i as [|i]; simpl in Hnth.
    + injection Hnth as ->. simpl. rewrite Hr. cbn [bind]. rewrite Hbad.
      cbn [negb]. now rewrite Nat.add_0_r.
    + simpl. destruct (Hbefore 0 c (Nat.lt_0_succ i) eq_refl) as [r0 [-> Hok]].
      cbn [bind]. rewrite Hok. cbn [negb].
      rewrite (IH i (S start) child r after Hnth); [|
        intros j c' Hj Hc'; apply (Hbefore (S j) c'); [lia|exact Hc']| | ];
        try assumption.
      now rewrite Nat.add_succ_comm.
Qed.

Lemma includes_truthy (l : list string) (v : JsValue) :
  ~ In EmptyString l -> includes l v = true -> truthy v = true.
Proof.
  intros Hl. destruct v as [| | | |s| |]; simpl; try discriminate.
  intros Hin. apply existsb_exists in Hin. destruct Hin as [x [Hx Heq]].
  apply String.eqb_eq in Heq. subst x.
  destruct (String.eqb_spec s EmptyString) as [->|]; [contradiction|reflexivity].
Qed.

Lemma group_unfold rev (props : list (string * JsValue)) (cs : list JsValue) :
  lookup "type" props = JString "group" ->
  includes groupLogics (lookup "logic" props) = true ->
  lookup "children" props = JArray cs ->
  validateRequirements rev (JObject props) =
  if (List.length cs =? 0)%nat
  then Normal (invalid "Group must have at least one child")
  else forChildren (validateRequirements rev) 0 cs
         (afterChildren rev (JObject props)).
Proof.
  intros Htype Hlogic Hchildren. rewrite validateRequirements_eq.
  unfold validateRequirementsBody. cbn [getProp bind truthy typeof].
  rewrite Htype. cbn.
  unfold validateRequirementGroup. cbn [getProp bind].
  fold groupLogics. rewrite Hlogic.
  rewrite (includes_truthy groupLogics _) by
    (try exact Hlogic; simpl; intuition discriminate).
  cbn [negb orb]. rewrite Hchildren. reflexivity.
Qed.

Lemma group_bad_logic rev (props : list (string * JsValue)) :
  lookup "type" props = JString "group" ->
  includes groupLogics (lookup "logic" props) = false ->
  validateRequirements rev (JObject props) =
  Normal (invalid "Group must have logic field with value ALL_OF, ONE_OF, or TWO_OF").
Proof.
  intros Htype Hlogic. rewrite validateRequirements_eq.
  unfold validateRequirementsBody. cbn [getProp bind truthy typeof].
  rewrite Htype. cbn.
  unfold validateRequirementGroup. cbn [getProp bind].
  fold groupLogics. rewrite Hlogic. cbn [negb]. now rewrite orb_true_r.
Qed.

(** C9.  A value of type "group" whose children array is empty is always
    rejected, and with the at-least-one-child reason when its logic is one
    of the three; and when the logic is one of the three and the child at
    index [i] is the first one that fails, with result [r], the group is
    rejected with the reason "Invalid child at index i: " followed by the
    reason of [r].  Both copies of the validator agree on this. *)
Theorem C9_group_children :
  forall (rev : Revision) (props : list (string * JsValue)),
    lookup "type" props = JString "group" ->
    (lookup "children" props = JArray [] ->
     exists r : ValidationResult,
       validateRequirements rev (JObject props) = Normal r /\
       isValid r = false /\
       (includes groupLogics (lookup "logic" props) = true ->
        r = invalid "Group must have at least one child")) /\
    (forall (cs : list JsValue) (i : nat) (child : JsValue)
            (r : ValidationResult),
        includes groupLogics (lookup "logic" props) = true ->
        lookup "children" props = JArray cs ->
        nth_error cs i = Some child ->
        (forall j c, j < i -> nth_error cs j = Some c ->
           exists rj, validateRequirements rev c = Normal rj /\
                      isValid rj = true) ->
        validateRequirements rev child = Normal r ->
        isValid r = false ->
        validateRequirements rev (JObject props) =
        Normal (invalid ("Invalid child at index " ++ indexText i ++ ": "
                         ++ errorText r))).
Proof.
  intros rev props Htype. split.
  - intros Hchildren.
    destruct (includes groupLogics (lookup "logic" props)) eqn:Hlogic.
    + rewrite (group_unfold rev props [] Htype Hlogic Hchildren).
      eexists. split; [reflexivity|]. split; reflexivity.
    + rewrite (group_bad_logic rev props Htype Hlogic).
      eexists. split; [reflexivity|]. split; [reflexivity|discriminate].
  - intros cs i child r Hlogic Hchildren Hnth Hbefore Hr Hbad.
    rewrite (group_unfold rev props cs Htype Hlogic Hchildren).
    destruct cs as [|c cs]; [destruct i; discriminate Hnth|].
    cbn [List.length Nat.eqb].
    apply (forChildren_first_failure _ _ i 0 child r); assumption.
Qed.

(** C9 at ONE_OF[A, ALL_OF[]]: the second child is the first to fail. *)
Lemma C9_group_children_witness :
  validateRequirements utilities_ts
    (toJs (RequirementGroup ONE_OF
             [RequirementCourse "A" None None None;
              RequirementGroup ALL_OF []])) =
  Normal (invalid "Invalid child at index 1: Group must have at least one child").
Proof.
  refine (proj2 (C9_group_children utilities_ts
                   [("type", JString "group"); ("logic", JString "ONE_OF");
                    ("children",
                     JArray [toJs (RequirementCourse "A" None None None);
                             toJs (RequirementGroup ALL_OF [])])]
                   eq_refl)
            _ 1 _ (invalid "Group must have at least one child")
            eq_refl eq_refl eq_refl _ _ eq_refl).
  - intros j c Hj Hc. destruct j as [|j]; [|lia].
    injection Hc as <-. exists valid. split; reflexivity.
  - reflexivity.
Defined.

(** The path-qualified message of the top level, on a record whose
    prerequisites hold an empty group at index 2. *)
Example validateParsedRequirements_path :
  validateParsedRequirements utilities_ts
    (parsedToJs
       {| department := "CPSC"; code := "213";
          prerequisites :=
            Some (RequirementGroup ONE_OF
                    [RequirementCourse "CPSC 110" None None None;
                     RequirementCourse "CPSC 121" None None None;
                     RequirementGroup ALL_OF []]);
          corequisites := None;
          recommendedPrerequisites := None;
          recommendedCorequisites := None |}) =
  invalid "Invalid prerequisites: Invalid child at index 2: Group must have at least one child".
Proof. vm_compute. reflexivity. Qed.

(** C3.  For a requirement tree the validator accepts, at every base
    weight, the courses the extractor emits are exactly the [course] leaves
    of the tree in document order, one pair per leaf; a node that is neither
    a course nor a group emits nothing. *)
Theorem C3_extractor_leaves :
  forall (rev : Revision) (r : Requirements) (w : Q),
    validateRequirements rev (toJs r) = Normal valid ->
    map fst (extractCourseRequirementsWithValues r w) = courseLeaves r /\
    List.length (extractCourseRequirementsWithValues r w) =
      List.length (courseLeaves r) /\
    (isGroup r = false -> isCourse r = false ->
     extractCourseRequirementsWithValues r w = []%list).
Proof.
  intros rev r w _. split; [apply extract_leaves|]. split.
  - rewrite <- (extract_leaves r w). now rewrite length_map.
  - destruct r; intros Hg Hc; try discriminate; reflexivity.
Qed.

(** C3 at ALL_OF[A, ONE_OF[B, 2nd-year standing], C]. *)
Lemma C3_extractor_leaves_witness :
  map fst
    (extractCourseRequirementsWithValues
       (RequirementGroup ALL_OF
          [RequirementCourse "A" None None None;
           RequirementGroup ONE_OF
             [RequirementCourse "B" None None None; RequirementStanding S2nd];
           RequirementCourse "C" None None None]) 1%Q) =
  ["A"; "B"; "C"].
Proof.
  refine (proj1 (C3_extractor_leaves utilities_ts
                   (RequirementGroup ALL_OF
                      [RequirementCourse "A" None None None;
                       RequirementGroup ONE_OF
                         [RequirementCourse "B" None None None;
                          RequirementStanding S2nd];
                       RequirementCourse "C" None None None]) 1%Q _)).
  vm_compute. reflexivity.
Defined.

(* ================================================================== *)
(** ** Depth of one requirement tree *)

Lemma fold_min_is_min (ds : list nat) :
  forall d, is_min (fold_left Nat.min ds d) (d :: ds).
Proof.
  induction ds as [|a ds IH]; intros d; simpl.
  - split; [now left|]. intros x [->|[]]. lia.
  - destruct (IH (Nat.min d a)) as [Hin Hle]. split.
    + destruct Hin as [Heq|Hin]; [|now right; right].
      rewrite <- Heq. destruct (Nat.min_spec d a) as [[_ ->]|[_ ->]]; simpl; auto.
    + intros x Hx.
      assert (Hm : fold_left Nat.min ds (Nat.min d a) <= Nat.min d a)
        by (apply Hle; now left).
      destruct Hx as [->|[->|Hx]]; [lia|lia|].
      apply Hle. now right.
Qed.

Lemma fold_max_is_max (ds : list nat) :
  forall d, is_max (fold_left Nat.max ds d) (d :: ds).
Proof.
  induction ds as [|a ds IH]; intros d; simpl.
  - split; [now left|]. intros x [->|[]]. lia.
  - destruct (IH (Nat.max d a)) as [Hin Hle]. split.
    + destruct Hin as [Heq|Hin]; [|now right; right].
      rewrite <- Heq. destruct (Nat.max_spec d a) as [[_ ->]|[_ ->]]; simpl; auto.
    + intros x Hx.
      assert (Hm : Nat.max d a <= fold_left Nat.max ds (Nat.max d a))
        by (apply Hle; now left).
      destruct Hx as [->|[->|Hx]]; [lia|lia|].
      apply Hle. now right.
Qed.

Lemma Math_min_is_min (l : list nat) : l <> []%list -> is_min (Math_min l) l.
Proof. destruct l as [|d ds]; [congruence|]. intros _. apply fold_min_is_min. Qed.

Lemma Math_max_is_max (l : list nat) : l <> []%list -> is_max (Math_max l) l.
Proof. destruct l as [|d ds]; [congruence|]. intros _. apply fold_max_is_max. Qed.

Lemma insert_permutation (d : nat) (l : list nat) :
  Permutation (d :: l) (insert d l).
Proof.
  induction l as [|x l IH]; simpl; [reflexivity|].
  destruct (d <=? x)%nat; [reflexivity|].
  rewrite perm_swap. now constructor.
Qed.

Lemma sort_permutation (l : list nat) : Permutation l (sort l).
Proof.
  induction l as [|d l IH]; simpl; [constructor|].
  rewrite <- insert_permutation. now constructor.
Qed.

Lemma insert_sorted (d : nat) (l : list nat) :
  StronglySorted le l -> StronglySorted le (insert d l).
Proof.
  induction 1 as [|x l Hsorted IH Hall]; simpl.
  - repeat constructor.
  - destruct (Nat.leb_spec d x) as [Hle|Hgt].
    + constructor; [now constructor|].
      constructor; [assumption|].
      eapply Forall_impl; [|exact Hall]. simpl. intros y Hy. lia.
    + constructor; [assumption|].
      apply (Permutation_Forall (insert_permutation d l)).
      constructor; [lia|assumption].
Qed.

Lemma sort_sorted (l : list nat) : StronglySorted le (sort l).
Proof.
  induction l as [|d l IH]; simpl; [constructor|]. now apply insert_sorted.
Qed.

Lemma group_depth (logic : Logic) (children : list Requirements)
    (courseDepths : Map nat) :
  calculatePrerequisiteDepth (RequirementGroup logic children) courseDepths =
  let childDepths := nonZeroChildDepths children courseDepths in
  match childDepths with
  | []%list => 0
  | _ =>
      match logic with
      | ONE_OF => Math_min childDepths
      | TWO_OF =>
          if (2 <=? List.length (sort childDepths))%nat
          then nth 1 (sort childDepths) 0
          else nth 0 (sort childDepths) 0
      | ALL_OF => Math_max childDepths
      end
  end.
Proof.
  cbn [calculatePrerequisiteDepth]. fold (nonZeroChildDepths children courseDepths).
  destruct children as [|c cs]; [reflexivity|].
  cbn [List.length Nat.eqb].
  destruct (nonZeroChildDepths (c :: cs) courseDepths); reflexivity.
Qed.

(** C2.  The depth combinator: a [course] node yields 1 plus the depth the
    table knows for the course, so 1 when it knows none; a group whose
    children all have depth 0 yields 0; otherwise, over the non-zero depths
    of its children, ONE_OF yields the least, ALL_OF the greatest and TWO_OF
    the second in ascending order, or the only one when there is just one;
    every other variant yields 0.  With Y known at depth 1 and Z at depth 2,
    ALL_OF[Y, Z] yields 3, ONE_OF[Y, Z] yields 2 and TWO_OF[Y, Z] yields 3. *)
Theorem C2_depth_combinator :
  (forall (courseDepths : Map nat) (c : string) g can must,
      calculatePrerequisiteDepth (RequirementCourse c g can must) courseDepths =
        1 + getOrZero c courseDepths /\
      (map_get c courseDepths = None ->
       calculatePrerequisiteDepth (RequirementCourse c g can must) courseDepths
       = 1)) /\
  (forall (courseDepths : Map nat) (logic : Logic)
          (children : list Requirements),
      let childDepths := nonZeroChildDepths children courseDepths in
      let result :=
        calculatePrerequisiteDepth (RequirementGroup logic children)
          courseDepths in
      (childDepths = []%list -> result = 0) /\
      (childDepths <> []%list ->
       match logic with
       | ONE_OF => is_min result childDepths
       | ALL_OF => is_max result childDepths
       | TWO_OF =>
           (forall d, childDepths = [d] -> result = d) /\
           (2 <= List.length childDepths ->
            is_second_smallest result childDepths)
       end)) /\
  (forall (courseDepths : Map nat) (r : Requirements),
      isGroup r = false -> isCourse r = false ->
      calculatePrerequisiteDepth r courseDepths = 0) /\
  (let Y := RequirementCourse "Y" None None None in
   let Z := RequirementCourse "Z" None None None in
   let courseDepths := [("Y", 1); ("Z", 2)] in
   calculatePrerequisiteDepth (RequirementGroup ALL_OF [Y; Z]) courseDepths = 3 /\
   calculatePrerequisiteDepth (RequirementGroup ONE_OF [Y; Z]) courseDepths = 2 /\
   calculatePrerequisiteDepth (RequirementGroup TWO_OF [Y; Z]) courseDepths = 3).
Proof.
  split; [|split; [|split]].
  - intros courseDepths c g can must. simpl. split; [lia|].
    unfold getOrZero. now intros ->.
  - intros courseDepths logic children childDepths result.
    unfold result. rewrite group_depth. fold childDepths. cbv zeta.
    split; [now intros ->|]. intros Hne.
    destruct childDepths as [|d ds] eqn:Hds; [congruence|].
    rewrite <- Hds in *. clear Hne.
    destruct logic.
    + apply Math_max_is_max. rewrite Hds. discriminate.
    + apply Math_min_is_min. rewrite Hds. discriminate.
    + split.
      * intros d' Hd'. rewrite Hd'. reflexivity.
      * intros Hlen.
        pose proof (sort_permutation childDepths) as Hperm.
        rewrite (Permutation_length Hperm) in Hlen.
        destruct (Nat.leb_spec 2 (List.length (sort childDepths))); [|lia].
        exists (sort childDepths). split; [assumption|].
        split; [apply sort_sorted|].
        destruct (sort childDepths) as [|a [|b rest]]; simpl in *; try lia.
        reflexivity.
  - intros courseDepths r Hg Hc. destruct r; try discriminate; reflexivity.
  - cbv zeta. repeat split.
Qed.

(* ================================================================== *)
(** ** Maps and the edge upsert *)

Lemma Qltb_lt (a b : Q) : Qltb a b = true <-> (a < b)%Q.
Proof.
  unfold Qltb. rewrite negb_true_iff. split.
  - intros H. apply Qnot_le_lt. intros Hle.
    apply Qle_bool_iff in Hle. congruence.
  - intros H. destruct (Qle_bool b a) eqn:Hb; [|reflexivity].
    apply Qle_bool_iff in Hb. exfalso. exact (Qlt_not_le _ _ H Hb).
Qed.

Lemma Qltb_ge (a b : Q) : Qltb a b = false <-> (b <= a)%Q.
Proof.
  unfold Qltb. rewrite negb_false_iff. apply Qle_bool_iff.
Qed.

Lemma map_get_set_same {V : Type} (k : string) (v : V) (m : Map V) :
  map_get k (map_set k v m) = Some v.
Proof.
  induction m as [|[k' v'] m IH]; simpl.
  - now rewrite String.eqb_refl.
  - destruct (k =? k') eqn:Hk; simpl; rewrite Hk; [reflexivity|exact IH].
Qed.

Lemma map_get_set_other {V : Type} (k k' : string) (v : V) (m : Map V) :
  k <> k' -> map_get k' (map_set k v m) = map_get k' m.
Proof.
  intros Hne. induction m as [|[k0 v0] m IH]; simpl.
  - destruct (String.eqb_spec k' k); [congruence|reflexivity].
  - destruct (String.eqb_spec k k0) as [->|Hk]; simpl.
    + destruct (String.eqb_spec k' k0); [congruence|reflexivity].
    + destruct (k' =? k0); [reflexivity|exact IH].
Qed.

Lemma map_has_get {V : Type} (k : string) (m : Map V) :
  map_has k m = false <-> map_get k m = None.
Proof.
  unfold map_has. destruct (map_get k m); split; congruence.
Qed.

Lemma upsertLink_absent (m : Map Link) (key from to : string) (v : Q) :
  map_get key m = None ->
  upsertLink m key from to v =
  map_set key {| source := from; target := to; value := v |} m.
Proof.
  intros Hget. unfold upsertLink, map_has. now rewrite Hget.
Qed.

Lemma upsertLink_present (m : Map Link) (key from to : string) (v : Q)
    (l : Link) :
  map_get key m = Some l ->
  upsertLink m key from to v =
  if Qltb (value l) v
  then map_set key {| source := from; target := to; value := v |} m
  else m.
Proof.
  intros Hget. unfold upsertLink, map_has. now rewrite Hget.
Qed.

(** C4.  Edge upsert under one key not yet in the map: after registering a
    first edge with value [v1] and a second with value [v2], the key holds
    the second edge when [v1 < v2] and the first one otherwise, the second
    registration then leaving the map as it was (so a tie keeps the
    first-registered edge); hence in either order of registration the final
    value is the larger of the two.  Through the whole assembly, weights 1
    then 2 for A->B give value 2, and so do weights 2 then 1. *)
Theorem C4_edge_dedup :
  forall (linkMap : Map Link) (key : string) (first second : Link),
    map_has key linkMap = false ->
    let v1 := value first in
    let v2 := value second in
    let once := register linkMap key first in
    let twice := register once key second in
    let swapped := register (register linkMap key second) key first in
    ((v1 < v2)%Q -> map_get key twice = Some second) /\
    ((v2 <= v1)%Q -> map_get key twice = Some first /\ twice = once) /\
    (exists l l',
        map_get key twice = Some l /\ map_get key swapped = Some l' /\
        (value l == value l')%Q /\
        (v1 <= value l)%Q /\ (v2 <= value l)%Q /\
        (value l = v1 \/ value l = v2)) /\
    links (generateNodesAndLinks
             [parsedCourse "B" "B"
                (Some (RequirementGroup ALL_OF
                         [courseNamed "A";
                          RequirementGroup TWO_OF [courseNamed "A"]])) None]) =
      [{| source := "A"; target := "B"; value := 2%Q |}] /\
    links (generateNodesAndLinks
             [parsedCourse "B" "B"
                (Some (RequirementGroup ALL_OF
                         [RequirementGroup TWO_OF [courseNamed "A"];
                          courseNamed "A"])) None]) =
      [{| source := "A"; target := "B"; value := 2%Q |}].
Proof.
  intros linkMap key first second Habsent v1 v2 once twice swapped.
  apply map_has_get in Habsent.
  assert (Hrecord : forall l : Link,
             {| source := source l; target := target l; value := value l |} = l)
    by (now intros []).
  assert (Honce : forall l, map_get key (register linkMap key l) = Some l).
  { intros l. unfold register. rewrite upsertLink_absent by assumption.
    rewrite Hrecord. apply map_get_set_same. }
  assert (Hlt : forall a b, (value a < value b)%Q ->
             map_get key (register (register linkMap key a) key b) = Some b).
  { intros a b Hab. unfold register at 1.
    rewrite (upsertLink_present _ _ _ _ _ a (Honce a)).
    apply Qltb_lt in Hab. rewrite Hab, Hrecord. apply map_get_set_same. }
  assert (Hge : forall a b, (value b <= value a)%Q ->
             register (register linkMap key a) key b = register linkMap key a).
  { intros a b Hab. unfold register at 1.
    rewrite (upsertLink_present _ _ _ _ _ a (Honce a)).
    apply Qltb_ge in Hab. now rewrite Hab. }
  split; [|split; [|split; [|split]]].
  - intros Hv. now apply Hlt.
  - intros Hv. unfold twice, once. rewrite (Hge first second Hv).
    split; [apply Honce|reflexivity].
  - destruct (Qlt_le_dec v1 v2) as [Hv|Hv].
    + exists second, second. unfold twice, once, swapped.
      rewrite (Hlt first second Hv).
      rewrite (Hge second first (Qlt_le_weak _ _ Hv)), Honce.
      repeat split; try reflexivity; auto using Qlt_le_weak, Qle_refl.
    + destruct (Qlt_le_dec v2 v1) as [Hv'|Hv'].
      * exists first, first. unfold twice, once, swapped.
        rewrite (Hge first second Hv), Honce, (Hlt second first Hv').
        repeat split; try reflexivity; auto using Qle_refl.
      * exists first, second. unfold twice, once, swapped.
        rewrite (Hge first second Hv), (Hge second first Hv'), !Honce.
        repeat split; try reflexivity; auto using Qle_refl.
        now apply Qle_antisym.
  - vm_compute. reflexivity.
  - vm_compute. reflexivity.
Qed.

(** C4 on the empty map, values 1 then 2. *)
Lemma C4_edge_dedup_witness :
  map_has "A->B" ([]%list : Map Link) = false /\
  map_get "A->B"
    (register
       (register []%list "A->B" {| source := "A"; target := "B"; value := 1%Q |})
       "A->B" {| source := "A"; target := "B"; value := 2%Q |}) =
  Some {| source := "A"; target := "B"; value := 2%Q |}.
Proof.
  split; [reflexivity|].
  refine (proj1 (C4_edge_dedup []%list "A->B"
                   {| source := "A"; target := "B"; value := 1%Q |}
                   {| source := "A"; target := "B"; value := 2%Q |} eq_refl) _).
  reflexivity.
Defined.

(* ================================================================== *)
(** ** Graph assembly: where edge values come from *)

Lemma fold_left_invariant {A B : Type} (f : A -> B -> A) (Inv : A -> Prop)
    (l : list B) :
  (forall a b, In b l -> Inv a -> Inv (f a b)) ->
  forall a, Inv a -> Inv (fold_left f l a).
Proof.
  induction l as [|b l IH]; intros Hstep a Ha; simpl; [assumption|].
  apply IH.
  - intros a' b' Hb'. apply Hstep. now right.
  - apply Hstep; [now left|assumption].
Qed.

Lemma map_set_values {V : Type} (k : string) (v x : V) (m : Map V) :
  In x (map_values (map_set k v m)) -> x = v \/ In x (map_values m).
Proof.
  unfold map_values. induction m as [|[k' v'] m IH]; simpl.
  - intros [<-|[]]. now left.
  - destruct (k =? k'); simpl.
    + intros [<-|Hin]; auto.
    + intros [<-|Hin]; auto. destruct (IH Hin); auto.
Qed.

Lemma upsertLink_values (m : Map Link) (key from to : string) (v : Q)
    (x : Link) :
  In x (map_values (upsertLink m key from to v)) ->
  x = {| source := from; target := to; value := v |} \/ In x (map_values m).
Proof.
  unfold upsertLink. destruct (negb (map_has key m) || _); [|now right].
  apply map_set_values.
Qed.

Lemma upsertLink_fromOffers (offers : list (string * string * Q))
    (m : Map Link) (key from to : string) (w : Q) :
  In (from, to, w) offers -> fromOffers offers m ->
  fromOffers offers (upsertLink m key from to (round2 w)).
Proof.
  intros Hoffer Hm l Hl. apply upsertLink_values in Hl.
  destruct Hl as [->|Hl]; [|now apply Hm].
  exists w. now split.
Qed.

Lemma addCourse_fromOffers (offers : list (string * string * Q))
    (courseDepths : Map nat) (c : CourseSaveFile)
    (st : Map Node * Map Link) :
  incl (offeredBy c) offers -> fromOffers offers (snd st) ->
  fromOffers offers (snd (addCourse courseDepths st c)).
Proof.
  intros Hincl Hst. unfold addCourse. unfold offeredBy in Hincl.
  destruct (parsedRequirements c) as [req|]; [|assumption].
  destruct st as [nodesMap linkMap].
  set (st1 := (ensureNode nodesMap (course c) (department req)
                 (getOrZero (course c) courseDepths), linkMap)).
  assert (H1 : fromOffers offers (snd st1)) by exact Hst.
  clearbody st1.
  assert (H2 : fromOffers offers
                 (snd match prerequisites req with
                      | Some tree =>
                          fold_left (addPrerequisite courseDepths (course c))
                            (extractCourseRequirementsWithValues tree 1%Q) st1
                      | None => st1
                      end)).
  { destruct (prerequisites req) as [tree|]; [|assumption].
    apply (fold_left_invariant _ (fun s => fromOffers offers (snd s)));
      [|assumption].
    intros [ns ls] [p w] Hp Hs. simpl. apply upsertLink_fromOffers; [|assumption].
    apply Hincl. apply in_or_app. left.
    apply (in_map (fun q : string * Q => (fst q, course c, snd q)) _ _ Hp). }
  destruct (corequisites req) as [tree|]; [|assumption].
  apply (fold_left_invariant _ (fun s => fromOffers offers (snd s)));
    [|assumption].
  intros [ns ls] [p w] Hp Hs. simpl.
  assert (Hboth : In (p, course c, w) offers /\ In (course c, p, w) offers).
  { split; apply Hincl; apply in_or_app; right; apply in_flat_map;
      exists (p, w); (split; [assumption|]); simpl; auto. }
  destruct Hboth as [Hfwd Hback].
  repeat apply upsertLink_fromOffers; assumption.
Qed.

Lemma links_generate (courses : list CourseSaveFile) :
  links (generateNodesAndLinks courses) = map_values (finalLinkMap courses).
Proof.
  unfold generateNodesAndLinks, finalLinkMap.
  now destruct (secondPass _ _) as [nodesMap linkMap].
Qed.

(** C5, as the code has it.  Every edge of the assembled graph carries the
    weight the extractor computed for one of the offers of its source and
    target, rounded to two decimals by [Math.round(value * 100) / 100]. *)
Theorem C5_edge_values_rounded :
  forall (courses : list CourseSaveFile) (l : Link),
    In l (links (generateNodesAndLinks courses)) ->
    exists w : Q,
      In (source l, target l, w) (offered courses) /\ value l = round2 w.
Proof.
  intros courses l. rewrite links_generate. revert l.
  change (fromOffers (offered courses) (finalLinkMap courses)).
  unfold finalLinkMap, secondPass.
  apply (fold_left_invariant _ (fun s => fromOffers (offered courses) (snd s))).
  - intros st c Hc Hst. apply addCourse_fromOffers; [|assumption].
    intros o Ho. unfold offered. apply in_flat_map. now exists c.
  - intros l [].
Qed.

(** C5 at the edge A -> X of a course X that needs one of A, B, C. *)
Lemma C5_edge_values_rounded_witness :
  In {| source := "A"; target := "X"; value := (33 # 100)%Q |}
    (links (generateNodesAndLinks oneOfThree)) /\
  exists w : Q,
    In ("A", "X", w) (offered oneOfThree) /\ (33 # 100)%Q = round2 w.
Proof.
  split; [vm_compute; left; reflexivity|].
  refine (C5_edge_values_rounded oneOfThree
            {| source := "A"; target := "X"; value := (33 # 100)%Q |} _).
  vm_compute. left. reflexivity.
Defined.

(** C5 as stated fails: the edge A -> X has value 33/100 while the
    extractor's weight for it is 1/3. *)
Lemma C5_exact_weight_counterexample : ~ carriesExactWeight oneOfThree.
Proof.
  intros H.
  destruct (H {| source := "A"; target := "X"; value := (33 # 100)%Q |})
    as [w [Hin Heq]].
  - vm_compute. left. reflexivity.
  - vm_compute in Hin.
    destruct Hin as [Hin|[Hin|[Hin|[]]]]; try discriminate Hin.
    injection Hin as <-. vm_compute in Heq. discriminate Heq.
Qed.

(* ================================================================== *)
(** ** Graph assembly: corequisites and prerequisites *)

Lemma map_get_values {V : Type} (k : string) (v : V) (m : Map V) :
  map_get k m = Some v -> In v (map_values m).
Proof.
  unfold map_values. induction m as [|[k' v'] m IH]; simpl; [discriminate|].
  destruct (k =? k'); [intros [= ->]; now left|]. intros H. right. now apply IH.
Qed.

Lemma upsertLink_other (m : Map Link) (key from to k : string) (v : Q) :
  key <> k -> map_get k (upsertLink m key from to v) = map_get k m.
Proof.
  intros Hne. unfold upsertLink.
  destruct (negb (map_has key m) || _); [|reflexivity].
  now apply map_get_set_other.
Qed.

Lemma upsertLink_holds (m : Map Link) (key from to : string) (v : Q) :
  holdsAtLeast key v (upsertLink m key from to v).
Proof.
  destruct (map_get key m) as [l|] eqn:Hget.
  - rewrite (upsertLink_present _ _ _ _ _ l Hget).
    destruct (Qltb (value l) v) eqn:Hlt.
    + eexists. split; [apply map_get_set_same|]. apply Qle_refl.
    + exists l. split; [assumption|]. now apply Qltb_ge.
  - rewrite upsertLink_absent by assumption.
    eexists. split; [apply map_get_set_same|]. apply Qle_refl.
Qed.

Lemma upsertLink_keeps (m : Map Link) (key from to k : string) (v v' : Q) :
  holdsAtLeast k v m -> holdsAtLeast k v (upsertLink m key from to v').
Proof.
  intros [l [Hget Hle]].
  destruct (String.eqb_spec key k) as [->|Hne].
  - rewrite (upsertLink_present _ _ _ _ _ l Hget).
    destruct (Qltb (value l) v') eqn:Hlt.
    + eexists. split; [apply map_get_set_same|]. simpl.
      apply Qltb_lt in Hlt. apply Qlt_le_weak in Hlt.
      now apply (Qle_trans _ (value l)).
    + now exists l.
  - exists l. split; [|assumption]. now rewrite upsertLink_other.
Qed.

Lemma upsertLink_fresh (m : Map Link) (key from to : string) (v : Q) :
  map_get key m = None ->
  map_get key (upsertLink m key from to v) =
  Some {| source := from; target := to; value := v |}.
Proof.
  intros Hget. rewrite upsertLink_absent by assumption. apply map_get_set_same.
Qed.

Lemma addPrerequisite_keeps courseDepths targetId st p k v :
  holdsAtLeast k v (snd st) ->
  holdsAtLeast k v (snd (addPrerequisite courseDepths targetId st p)).
Proof.
  destruct st as [ns ls], p as [q w]. simpl. apply upsertLink_keeps.
Qed.

Lemma addCorequisite_keeps courseDepths targetId st p k v :
  holdsAtLeast k v (snd st) ->
  holdsAtLeast k v (snd (addCorequisite courseDepths targetId st p)).
Proof.
  destruct st as [ns ls], p as [q w]. simpl. intros H.
  now repeat apply upsertLink_keeps.
Qed.

Lemma addCorequisite_holds courseDepths targetId st q w :
  holdsAtLeast (linkKeyOf q targetId) (round2 w)
    (snd (addCorequisite courseDepths targetId st (q, w))) /\
  holdsAtLeast (linkKeyOf targetId q) (round2 w)
    (snd (addCorequisite courseDepths targetId st (q, w))).
Proof.
  destruct st as [ns ls]. simpl. split.
  - apply upsertLink_keeps, upsertLink_holds.
  - apply upsertLink_holds.
Qed.

Lemma fold_left_reaches {A B : Type} (f : A -> B -> A) (Inv : A -> Prop)
    (l : list B) (x : B) :
  In x l ->
  (forall a, Inv (f a x)) ->
  (forall a b, Inv a -> Inv (f a b)) ->
  forall a, Inv (fold_left f l a).
Proof.
  intros Hin Hset Hkeep.
  induction l as [|b l IH]; intros a; simpl; [contradiction|].
  destruct Hin as [->|Hin].
  - apply fold_left_invariant; [|apply Hset]. intros; now apply Hkeep.
  - now apply IH.
Qed.

Lemma addCourse_keeps courseDepths st c k v :
  holdsAtLeast k v (snd st) ->
  holdsAtLeast k v (snd (addCourse courseDepths st c)).
Proof.
  intros Hst. unfold addCourse.
  destruct (parsedRequirements c) as [req|]; [|assumption].
  destruct st as [nodesMap linkMap].
  assert (Hpre : forall s tree,
             holdsAtLeast k v (snd s) ->
             holdsAtLeast k v
               (snd (fold_left (addPrerequisite courseDepths (course c))
                       (extractCourseRequirementsWithValues tree 1%Q) s))).
  { intros s tree Hs.
    apply (fold_left_invariant _ (fun s => holdsAtLeast k v (snd s)));
      [|assumption].
    intros; now apply addPrerequisite_keeps. }
  assert (Hco : forall s tree,
             holdsAtLeast k v (snd s) ->
             holdsAtLeast k v
               (snd (fold_left (addCorequisite courseDepths (course c))
                       (extractCourseRequirementsWithValues tree 1%Q) s))).
  { intros s tree Hs.
    apply (fold_left_invariant _ (fun s => holdsAtLeast k v (snd s)));
      [|assumption].
    intros; now apply addCorequisite_keeps. }
  destruct (prerequisites req), (corequisites req); auto.
Qed.

Lemma addCourse_corequisite courseDepths st c req tree q w :
  parsedRequirements c = Some req ->
  corequisites req = Some tree ->
  In (q, w) (extractCourseRequirementsWithValues tree 1%Q) ->
  holdsAtLeast (linkKeyOf q (course c)) (round2 w)
    (snd (addCourse courseDepths st c)) /\
  holdsAtLeast (linkKeyOf (course c) q) (round2 w)
    (snd (addCourse courseDepths st c)).
Proof.
  intros Hreq Htree Hin. unfold addCourse. rewrite Hreq, Htree.
  destruct st as [nodesMap linkMap].
  match goal with
  | |- context [fold_left _ _ ?s] => generalize s
  end.
  apply (fold_left_reaches _
           (fun s => holdsAtLeast (linkKeyOf q (course c)) (round2 w) (snd s) /\
                     holdsAtLeast (linkKeyOf (course c) q) (round2 w) (snd s))
           _ (q, w) Hin).
  - intros a. apply addCorequisite_holds.
  - intros a b [H1 H2]. split; now apply addCorequisite_keeps.
Qed.

Lemma secondPass_corequisite (courses : list CourseSaveFile)
    (c : CourseSaveFile) (req : CourseParsedRequirements)
    (tree : Requirements) (q : string) (w : Q) :
  In c (parsedCoursesOf courses) ->
  parsedRequirements c = Some req ->
  corequisites req = Some tree ->
  In (q, w) (extractCourseRequirementsWithValues tree 1%Q) ->
  holdsAtLeast (linkKeyOf q (course c)) (round2 w) (finalLinkMap courses) /\
  holdsAtLeast (linkKeyOf (course c) q) (round2 w) (finalLinkMap courses).
Proof.
  intros Hc Hreq Htree Hin. unfold finalLinkMap, secondPass.
  apply (fold_left_reaches _
           (fun s => holdsAtLeast (linkKeyOf q (course c)) (round2 w) (snd s) /\
                     holdsAtLeast (linkKeyOf (course c) q) (round2 w) (snd s))
           _ c Hc).
  - intros st. now apply (addCourse_corequisite _ _ _ req tree).
  - intros st b [H1 H2]. split; now apply addCourse_keeps.
Qed.

(* ================================================================== *)
(** ** Depth resolution *)

Lemma getOrZero_set_same (k : string) (v : nat) (m : Map nat) :
  getOrZero k (map_set k v m) = v.
Proof. unfold getOrZero. now rewrite map_get_set_same. Qed.

Lemma getOrZero_set_other (k k' : string) (v : nat) (m : Map nat) :
  k <> k' -> getOrZero k' (map_set k v m) = getOrZero k' m.
Proof. intros H. unfold getOrZero. now rewrite map_get_set_other. Qed.

(** One course either leaves the state alone or raises its own depth and
    the flag. *)
Lemma relaxCourse_cases (d : Map nat) (ch : bool) (c : CourseSaveFile) :
  relaxCourse (d, ch) c = (d, ch) \/
  exists m, getOrZero (course c) d < m /\
            relaxCourse (d, ch) c = (map_set (course c) m d, true).
Proof.
  unfold relaxCourse. destruct (parsedRequirements c) as [req|]; [|now left].
  cbv zeta.
  destruct (Nat.ltb_spec (getOrZero (course c) d)
              (maxWith (maxWith 0 (prerequisites req) d) (corequisites req) d))
    as [Hlt|Hge]; [right|now left].
  eexists. split; [exact Hlt|reflexivity].
Qed.

Lemma relaxCourse_grows (st : Map nat * bool) (c : CourseSaveFile)
    (k : string) :
  getOrZero k (fst st) <= getOrZero k (fst (relaxCourse st c)).
Proof.
  destruct st as [d ch].
  destruct (relaxCourse_cases d ch c) as [->|[m [Hlt ->]]]; [reflexivity|].
  simpl. destruct (String.eqb_spec (course c) k) as [<-|Hne].
  - rewrite getOrZero_set_same. lia.
  - now rewrite getOrZero_set_other.
Qed.

Lemma relaxPass_quiet (parsedCourses : list CourseSaveFile) (d : Map nat) :
  snd (relaxPass parsedCourses d) = false -> fst (relaxPass parsedCourses d) = d.
Proof.
  unfold relaxPass.
  apply (fold_left_invariant relaxCourse
           (fun st => snd st = false -> fst st = d)); [|reflexivity].
  intros [d' ch] c _ Hst.
  destruct (relaxCourse_cases d' ch c) as [->|[m [_ ->]]];
    [exact Hst|discriminate].
Qed.

Lemma relaxPass_grows (parsedCourses : list CourseSaveFile) (d : Map nat) :
  (forall k, getOrZero k d <= getOrZero k (fst (relaxPass parsedCourses d))) /\
  (snd (relaxPass parsedCourses d) = true ->
   exists k, getOrZero k d < getOrZero k (fst (relaxPass parsedCourses d))).
Proof.
  unfold relaxPass.
  apply (fold_left_invariant relaxCourse
           (fun st => (forall k, getOrZero k d <= getOrZero k (fst st)) /\
                      (snd st = true ->
                       exists k, getOrZero k d < getOrZero k (fst st)))).
  - intros st c _ [Hmono Hflag]. split.
    + intros k. specialize (Hmono k).
      pose proof (relaxCourse_grows st c k). lia.
    + destruct st as [d' ch].
      destruct (relaxCourse_cases d' ch c) as [->|[m [Hlt Heq]]];
        [exact Hflag|].
      intros _. exists (course c). rewrite Heq. simpl.
      rewrite getOrZero_set_same. specialize (Hmono (course c)). simpl in Hmono.
      lia.
  - split; [reflexivity|discriminate].
Qed.

Lemma afterPasses_shift (parsedCourses : list CourseSaveFile) (n : nat)
    (d : Map nat) :
  afterPasses parsedCourses (S n) d =
  afterPasses parsedCourses n (fst (relaxPass parsedCourses d)).
Proof.
  induction n as [|n IH]; [reflexivity|].
  change (afterPasses parsedCourses (S (S n)) d)
    with (fst (relaxPass parsedCourses (afterPasses parsedCourses (S n) d))).
  rewrite IH. reflexivity.
Qed.

(** The loop started with the flag up and [S ceiling] iterations allowed. *)
Lemma relaxLoop_passes (parsedCourses : list CourseSaveFile) (ceiling : nat) :
  forall d : Map nat,
  exists n : nat,
    1 <= n <= S ceiling /\
    relaxLoop parsedCourses (S ceiling) true d = afterPasses parsedCourses n d /\
    (forall k, S k < n -> passChanges parsedCourses k d = true) /\
    (n = S ceiling \/ passChanges parsedCourses (n - 1) d = false).
Proof.
  induction ceiling as [|ceiling IH]; intros d.
  - exists 1. split; [lia|]. split.
    + simpl. now destruct (relaxPass parsedCourses d).
    + split; [intros k Hk; lia|now left].
  - cbn [relaxLoop].
    destruct (relaxPass parsedCourses d) as [d' ch] eqn:Hpass.
    destruct ch.
    + destruct (IH d') as [n [Hn [Hloop [Hbefore Hlast]]]].
      assert (Hd' : d' = fst (relaxPass parsedCourses d)) by now rewrite Hpass.
      exists (S n). split; [lia|]. split; [|split].
      * rewrite afterPasses_shift, <- Hd'. exact Hloop.
      * intros k Hk. destruct k as [|k].
        -- unfold passChanges. simpl. now rewrite Hpass.
        -- unfold passChanges. rewrite afterPasses_shift, <- Hd'.
           apply Hbefore. lia.
      * destruct Hlast as [->|Hlast]; [now left|right].
        destruct n as [|n]; [lia|].
        unfold passChanges in *. simpl Nat.sub in *.
        rewrite Nat.sub_0_r in Hlast.
        rewrite afterPasses_shift, <- Hd'. exact Hlast.
    + exists 1. split; [lia|]. split; [|split].
      * simpl. now rewrite Hpass.
      * intros k Hk. lia.
      * right. unfold passChanges. simpl. now rewrite Hpass.
Qed.

Lemma initialDepths_zero (parsedCourses : list CourseSaveFile) :
  (forall k, getOrZero k (initialDepths parsedCourses) = 0) /\
  (forall c, In c parsedCourses ->
     map_get (course c) (initialDepths parsedCourses) = Some 0).
Proof.
  unfold initialDepths. split.
  - apply (fold_left_invariant
             (fun (m : Map nat) (c : CourseSaveFile) => map_set (course c) 0 m)
             (fun m => forall k, getOrZero k m = 0)); [|reflexivity].
    intros m c _ Hm k. destruct (String.eqb_spec (course c) k) as [<-|Hne].
    + apply getOrZero_set_same.
    + now rewrite getOrZero_set_other.
  - intros c Hc.
    generalize ([]%list : Map nat).
    apply (fold_left_reaches
             (fun (m : Map nat) (c : CourseSaveFile) => map_set (course c) 0 m)
             (fun m => map_get (course c) m = Some 0) _ c Hc).
    + intros m. apply map_get_set_same.
    + intros m b Hm. destruct (String.eqb_spec (course b) (course c)) as [->|Hne].
      * apply map_get_set_same.
      * now rewrite map_get_set_other.
Qed.

Lemma relaxCourse_step (d : Map nat) (ch : bool) (c : CourseSaveFile)
    (req : CourseParsedRequirements) :
  parsedRequirements c = Some req ->
  relaxCourse (d, ch) c =
  if (getOrZero (course c) d <? requiredDepth req d)%nat
  then (map_set (course c) (requiredDepth req d) d, true)
  else (d, ch).
Proof.
  intros Hreq. unfold relaxCourse, requiredDepth, treeDepth, maxWith.
  rewrite Hreq. cbv zeta.
  destruct (prerequisites req), (corequisites req);
    rewrite ?Nat.max_0_l, ?Nat.max_0_r; reflexivity.
Qed.

Lemma relaxCourse_unparsed (st : Map nat * bool) (c : CourseSaveFile) :
  parsedRequirements c = None -> relaxCourse st c = st.
Proof. intros Hreq. destruct st. unfold relaxCourse. now rewrite Hreq. Qed.

Lemma relaxCourses_flag (parsedCourses : list CourseSaveFile)
    (st : Map nat * bool) :
  snd st = true -> snd (fold_left relaxCourse parsedCourses st) = true.
Proof.
  apply (fold_left_invariant relaxCourse (fun st => snd st = true)).
  intros [d ch] c _ Hst.
  destruct (relaxCourse_cases d ch c) as [->|[m [_ ->]]]; [exact Hst|reflexivity].
Qed.

Lemma relaxPass_settled (parsedCourses : list CourseSaveFile) (d : Map nat) :
  snd (relaxPass parsedCourses d) = false <-> settled parsedCourses d.
Proof.
  unfold relaxPass, settled.
  induction parsedCourses as [|c cs IH]; cbn [fold_left].
  - split; [intros _ c req []|reflexivity].
  - destruct (parsedRequirements c) as [req|] eqn:Hreq.
    + rewrite (relaxCourse_step d false c req Hreq).
      destruct (Nat.ltb_spec (getOrZero (course c) d) (requiredDepth req d))
        as [Hlt|Hge].
      * split.
        -- intros Hquiet. rewrite relaxCourses_flag in Hquiet by reflexivity.
           discriminate Hquiet.
        -- intros Hall. specialize (Hall c req (or_introl eq_refl) Hreq). lia.
      * rewrite IH. split.
        -- intros Hall c' req' [<-|Hin] Hreq'; [|now apply Hall].
           rewrite Hreq in Hreq'. injection Hreq' as <-. exact Hge.
        -- intros Hall c' req' Hin. apply Hall. now right.
    + rewrite (relaxCourse_unparsed (d, false) c Hreq). rewrite IH. split.
      * intros Hall c' req' [<-|Hin] Hreq'; [congruence|now apply Hall].
      * intros Hall c' req' Hin. apply Hall. now right.
Qed.

Lemma resolveDepths_settled_or_ceiling (parsedCourses : list CourseSaveFile) :
  settled parsedCourses (resolveDepths parsedCourses) \/
  resolveDepths parsedCourses =
    afterPasses parsedCourses maxIterations (initialDepths parsedCourses).
Proof.
  unfold resolveDepths at 2.
  destruct (relaxLoop_passes parsedCourses 9 (initialDepths parsedCourses))
    as [n [Hn [Hloop [_ [->|Hlast]]]]]; [now right|left].
  unfold resolveDepths, maxIterations. rewrite Hloop.
  destruct n as [|n]; [lia|]. simpl Nat.sub in Hlast.
  rewrite Nat.sub_0_r in Hlast. unfold passChanges in Hlast.
  cbn [afterPasses]. rewrite (relaxPass_quiet _ _ Hlast).
  now apply relaxPass_settled.
Qed.

(** C7.  Depth resolution.  The table starts with depth 0 for every course
    (each parsed course is entered with 0, any other reads as 0).  A pass
    goes through the courses in their order, flag down at the start, and
    recomputes each from the table as it stands: the depth its record asks
    for is the larger of what [calculatePrerequisiteDepth] gives for its
    prerequisites and for its corequisites, and when that is above the
    course's depth the course is set to it and the flag raised, otherwise
    nothing changes.  A pass only raises depths; its flag is up exactly when
    some depth grew, a pass whose flag stays down leaves the table as it
    was, and the flag stays down exactly when every course already is as
    deep as its record asks for.  The resolver returns the table after [n]
    passes, for some [n] between 1 and the ceiling of 10: every pass before
    the last raised the flag, and either the last pass changed nothing, so
    that the table returned is one no pass would change, or [n] is the
    ceiling.  At the ceiling the table reached so far is returned all the
    same: for two courses that require each other it is A:19, B:20, which
    one more pass would still change.  For X that needs Y and Z in a group
    and Y that has Z as a corequisite the table is X:2, Y:1, Z:0. *)
Theorem C7_depth_resolution :
  (forall parsedCourses : list CourseSaveFile,
      (forall k, getOrZero k (initialDepths parsedCourses) = 0) /\
      (forall c, In c parsedCourses ->
         map_get (course c) (initialDepths parsedCourses) = Some 0)) /\
  (forall (parsedCourses : list CourseSaveFile) (d : Map nat),
      (snd (relaxPass parsedCourses d) = false ->
       fst (relaxPass parsedCourses d) = d) /\
      (forall k, getOrZero k d <= getOrZero k (fst (relaxPass parsedCourses d))) /\
      (snd (relaxPass parsedCourses d) = true ->
       exists k, getOrZero k d < getOrZero k (fst (relaxPass parsedCourses d)))) /\
  (forall parsedCourses : list CourseSaveFile,
      exists n : nat,
        1 <= n <= maxIterations /\
        resolveDepths parsedCourses =
          afterPasses parsedCourses n (initialDepths parsedCourses) /\
        (forall k, S k < n ->
           passChanges parsedCourses k (initialDepths parsedCourses) = true) /\
        (n = maxIterations \/
         passChanges parsedCourses (n - 1) (initialDepths parsedCourses) = false)) /\
  (resolveDepths cyclicPair = [("A", 19); ("B", 20)] /\
   resolveDepths cyclicPair =
     afterPasses cyclicPair maxIterations (initialDepths cyclicPair) /\
   passChanges cyclicPair maxIterations (initialDepths cyclicPair) = true) /\
  (forall (d : Map nat) (changed : bool) (c : CourseSaveFile)
          (req : CourseParsedRequirements),
      parsedRequirements c = Some req ->
      relaxCourse (d, changed) c =
      if (getOrZero (course c) d <? requiredDepth req d)%nat
      then (map_set (course c) (requiredDepth req d) d, true)
      else (d, changed)) /\
  (forall (parsedCourses : list CourseSaveFile) (d : Map nat),
      relaxPass parsedCourses d = fold_left relaxCourse parsedCourses (d, false) /\
      (snd (relaxPass parsedCourses d) = false <-> settled parsedCourses d)) /\
  (forall parsedCourses : list CourseSaveFile,
      settled parsedCourses (resolveDepths parsedCourses) \/
      resolveDepths parsedCourses =
        afterPasses parsedCourses maxIterations (initialDepths parsedCourses)) /\
  (resolveDepths groupAndCorequisite = [("X", 2); ("Y", 1); ("Z", 0)] /\
   settled groupAndCorequisite (resolveDepths groupAndCorequisite) /\
   ~ settled cyclicPair (resolveDepths cyclicPair)).
Proof.
  split; [|split; [|split; [|split; [|split; [|split; [|split]]]]]].
  - apply initialDepths_zero.
  - intros parsedCourses d. split; [apply relaxPass_quiet|].
    apply relaxPass_grows.
  - intros parsedCourses. unfold resolveDepths, maxIterations.
    apply relaxLoop_passes.
  - repeat split; vm_compute; reflexivity.
  - intros d changed c req. apply relaxCourse_step.
  - intros parsedCourses d. split; [reflexivity|apply relaxPass_settled].
  - apply resolveDepths_settled_or_ceiling.
  - split; [vm_compute; reflexivity|]. split.
    + apply relaxPass_settled. vm_compute. reflexivity.
    + intros Hsettled. apply relaxPass_settled in Hsettled.
      vm_compute in Hsettled. discriminate Hsettled.
Qed.

(* ================================================================== *)
(** ** The assembly end to end *)

(** X needs ALL_OF[Y] and Y needs nothing: X at depth 1 with one incoming
    edge, Y at depth 0, and the edge Y -> X of value 1; a course without any
    edge is pruned.  The node of Y is made when X names it, so its
    department is the leading token of its identifier. *)
Example generateNodesAndLinks_end_to_end :
  generateNodesAndLinks
    [parsedCourse "CourseX" "X"
       (Some (RequirementGroup ALL_OF [courseNamed "CourseY"])) None;
     parsedCourse "CourseY" "Y" None None;
     parsedCourse "CourseZ" "Z" None None] =
  {| nodes :=
       [{| id := "CourseX"; title := "CourseX"; dept := "X"; size := 1;
           depth := 1 |};
        {| id := "CourseY"; title := "CourseY"; dept := "CourseY"; size := 0;
           depth := 0 |}];
     links := [{| source := "CourseY"; target := "CourseX"; value := 1%Q |}] |}.
Proof. vm_compute. reflexivity. Qed.


(* ================================================================== *)
(** ** Insertion-ordered maps *)

Lemma map_set_In {V : Type} (k k' : string) (v v' : V) (m : Map V) :
  In (k', v') (map_set k v m) -> (k' = k /\ v' = v) \/ In (k', v') m.
Proof.
  induction m as [|[k0 v0] m IH]; simpl.
  - intros [[= <- <-]|[]]. now left.
  - destruct (String.eqb_spec k k0) as [->|Hne]; simpl.
    + intros [[= <- <-]|Hin]; auto.
    + intros [Heq|Hin]; auto. destruct (IH Hin); auto.
Qed.

Lemma map_has_In {V : Type} (k : string) (m : Map V) :
  map_has k m = true <-> In k (map fst m).
Proof.
  unfold map_has. induction m as [|[k0 v0] m IH]; simpl.
  - split; [discriminate|contradiction].
  - destruct (String.eqb_spec k k0) as [->|Hne].
    + split; auto.
    + rewrite IH. split; [auto|]. intros [Heq|Hin]; [congruence|assumption].
Qed.

Lemma map_set_keys {V : Type} (k : string) (v : V) (m : Map V) :
  map fst (map_set k v m) =
  if map_has k m then map fst m else (map fst m ++ [k])%list.
Proof.
  unfold map_has. induction m as [|[k0 v0] m IH]; simpl; [reflexivity|].
  destruct (String.eqb_spec k k0) as [->|Hne]; simpl; [reflexivity|].
  rewrite IH. now destruct (map_get k m).
Qed.

Lemma map_set_once {V : Type} (k : string) (v : V) (m : Map V) :
  NoDup (map fst m) -> NoDup (map fst (map_set k v m)).
Proof.
  intros Hm. rewrite map_set_keys. destruct (map_has k m) eqn:Hhas; [assumption|].
  apply NoDup_app; [assumption|repeat constructor; intros []|].
  intros x Hx [<-|[]]. apply map_has_In in Hx. congruence.
Qed.

Lemma map_set_has {V : Type} (k k' : string) (v : V) (m : Map V) :
  map_has k' m = true -> map_has k' (map_set k v m) = true.
Proof.
  rewrite !map_has_In, map_set_keys.
  destruct (map_has k m); [auto|]. intros H. apply in_or_app. now left.
Qed.

Lemma map_set_has_same {V : Type} (k : string) (v : V) (m : Map V) :
  map_has k (map_set k v m) = true.
Proof. unfold map_has. now rewrite map_get_set_same. Qed.

Lemma map_get_In {V : Type} (k : string) (v : V) (m : Map V) :
  map_get k m = Some v -> In (k, v) m.
Proof.
  induction m as [|[k0 v0] m IH]; simpl; [discriminate|].
  destruct (String.eqb_spec k k0) as [->|Hne].
  - intros [= ->]. now left.
  - intros H. right. now apply IH.
Qed.

Lemma map_In_get {V : Type} (k : string) (v : V) (m : Map V) :
  NoDup (map fst m) -> In (k, v) m -> map_get k m = Some v.
Proof.
  induction m as [|[k0 v0] m IH]; simpl; [contradiction|].
  intros Hnd Hin. inversion Hnd as [|? ? Hnotin Hnd']; subst.
  destruct Hin as [[= -> ->]|Hin].
  - now rewrite String.eqb_refl.
  - destruct (String.eqb_spec k k0) as [->|Hne]; [|now apply IH].
    exfalso. apply Hnotin. apply (in_map fst) in Hin. exact Hin.
Qed.

(* ================================================================== *)
(** ** Graph assembly: what the second pass keeps true *)

Lemma ensureNode_has (ns : Map Node) (k dept : string) (d : nat) :
  map_has k (ensureNode ns k dept d) = true.
Proof.
  unfold ensureNode. destruct (map_has k ns) eqn:Hhas; simpl; [assumption|].
  apply map_set_has_same.
Qed.

Lemma ensureNode_keeps (ns : Map Node) (k k' dept : string) (d : nat) :
  map_has k' ns = true -> map_has k' (ensureNode ns k dept d) = true.
Proof.
  intros H. unfold ensureNode. destruct (negb (map_has k ns)); [|assumption].
  now apply map_set_has.
Qed.

Lemma ensureNode_assembled (courseDepths : Map nat) (ns : Map Node)
    (ls : Map Link) (k dept : string) :
  assembled courseDepths (ns, ls) ->
  assembled courseDepths
    (ensureNode ns k dept (getOrZero k courseDepths), ls).
Proof.
  intros [Hown Honce Hlinks Hlonce]. simpl in *. split; simpl.
  - intros k' n Hin. unfold ensureNode in Hin.
    destruct (negb (map_has k ns)); [|now apply Hown].
    apply map_set_In in Hin. destruct Hin as [[-> ->]|Hin]; [|now apply Hown].
    simpl. auto.
  - unfold ensureNode. destruct (negb (map_has k ns)); [|assumption].
    now apply map_set_once.
  - intros k' l Hin. destruct (Hlinks k' l Hin) as [Hk [Hs Ht]].
    auto using ensureNode_keeps.
  - assumption.
Qed.

Lemma upsertLink_assembled (courseDepths : Map nat) (ns : Map Node)
    (ls : Map Link) (from to : string) (v : Q) :
  assembled courseDepths (ns, ls) ->
  map_has from ns = true -> map_has to ns = true ->
  assembled courseDepths (ns, upsertLink ls (linkKeyOf from to) from to v).
Proof.
  intros [Hown Honce Hlinks Hlonce] Hfrom Hto. simpl in *.
  split; simpl; try assumption.
  - intros k l Hin. unfold upsertLink in Hin.
    destruct (negb (map_has (linkKeyOf from to) ls) || _); [|now apply Hlinks].
    apply map_set_In in Hin. destruct Hin as [[-> ->]|Hin]; [|now apply Hlinks].
    simpl. auto.
  - unfold upsertLink.
    destruct (negb (map_has (linkKeyOf from to) ls) || _); [|assumption].
    now apply map_set_once.
Qed.

Lemma addPrerequisite_assembled courseDepths targetId st p :
  assembled courseDepths st /\ map_has targetId (fst st) = true ->
  assembled courseDepths (addPrerequisite courseDepths targetId st p) /\
  map_has targetId (fst (addPrerequisite courseDepths targetId st p)) = true.
Proof.
  destruct st as [ns ls], p as [q w]. intros [Hst Htarget]. simpl in *. split.
  - apply upsertLink_assembled.
    + now apply ensureNode_assembled.
    + apply ensureNode_has.
    + now apply ensureNode_keeps.
  - now apply ensureNode_keeps.
Qed.

Lemma addCorequisite_assembled courseDepths targetId st p :
  assembled courseDepths st /\ map_has targetId (fst st) = true ->
  assembled courseDepths (addCorequisite courseDepths targetId st p) /\
  map_has targetId (fst (addCorequisite courseDepths targetId st p)) = true.
Proof.
  destruct st as [ns ls], p as [q w]. intros [Hst Htarget]. simpl in *. split.
  - apply upsertLink_assembled; [apply upsertLink_assembled| |].
    + now apply ensureNode_assembled.
    + apply ensureNode_has.
    + now apply ensureNode_keeps.
    + now apply ensureNode_keeps.
    + apply ensureNode_has.
  - now apply ensureNode_keeps.
Qed.

Lemma addCourse_assembled courseDepths st c :
  assembled courseDepths st -> assembled courseDepths (addCourse courseDepths st c).
Proof.
  intros Hst. unfold addCourse.
  destruct (parsedRequirements c) as [req|]; [|assumption].
  destruct st as [ns ls].
  set (st1 := (ensureNode ns (course c) (department req)
                 (getOrZero (course c) courseDepths), ls)).
  assert (H1 : assembled courseDepths st1 /\ map_has (course c) (fst st1) = true).
  { split; [now apply ensureNode_assembled|apply ensureNode_has]. }
  clearbody st1.
  assert (H2 : assembled courseDepths
                 match prerequisites req with
                 | Some tree =>
                     fold_left (addPrerequisite courseDepths (course c))
                       (extractCourseRequirementsWithValues tree 1%Q) st1
                 | None => st1
                 end /\
               map_has (course c)
                 (fst match prerequisites req with
                      | Some tree =>
                          fold_left (addPrerequisite courseDepths (course c))
                            (extractCourseRequirementsWithValues tree 1%Q) st1
                      | None => st1
                      end) = true).
  { destruct (prerequisites req) as [tree|]; [|assumption].
    apply (fold_left_invariant _
             (fun s => assembled courseDepths s /\
                       map_has (course c) (fst s) = true)); [|assumption].
    intros a b _. apply addPrerequisite_assembled. }
  destruct (corequisites req) as [tree|]; [|apply H2].
  apply (fold_left_invariant _
           (fun s => assembled courseDepths s /\
                     map_has (course c) (fst s) = true)); [|assumption].
  intros a b _. apply addCorequisite_assembled.
Qed.

Lemma secondPass_assembled (parsedCourses : list CourseSaveFile)
    (courseDepths : Map nat) :
  assembled courseDepths (secondPass parsedCourses courseDepths).
Proof.
  unfold secondPass. apply fold_left_invariant.
  - intros st c _. apply addCourse_assembled.
  - split; simpl; try apply NoDup_nil; intros ? ? [].
Qed.


(* ================================================================== *)
(** ** Graph assembly: the nodes and edges handed out *)

Lemma nodes_generate (courses : list CourseSaveFile) :
  nodes (generateNodesAndLinks courses) =
  filter (fun n => isLinked (links (generateNodesAndLinks courses)) (id n))
    (map (fun kv : string * Node =>
            setSize (snd kv)
              (getOrZero (fst kv)
                 (countIncoming (links (generateNodesAndLinks courses)))))
       (finalNodeMap courses)).
Proof.
  unfold generateNodesAndLinks, finalNodeMap, resolvedDepths.
  destruct (secondPass _ _) as [nodesMap linkMap]. simpl.
  unfold map_values. now rewrite map_map.
Qed.

Lemma finalMaps_assembled (courses : list CourseSaveFile) :
  assembled (resolvedDepths courses) (finalNodeMap courses, finalLinkMap courses).
Proof.
  unfold finalNodeMap, finalLinkMap, resolvedDepths.
  rewrite <- surjective_pairing. apply secondPass_assembled.
Qed.

(* ================================================================== *)
(** ** Graph assembly: both directions of a corequisite *)

Lemma linkKeyOf_injective (a b a' b' : string) :
  noDash a -> noDash a' -> linkKeyOf a b = linkKeyOf a' b' -> a = a' /\ b = b'.
Proof.
  unfold noDash, linkKeyOf. revert a'.
  induction a as [|x a IH]; intros [|x' a'] Ha Ha'; simpl.
  - intros [= ->]. auto.
  - intros [= <- _]. exfalso. apply Ha'. now left.
  - intros [= -> _]. exfalso. apply Ha. now left.
  - intros [= -> Hrest]. simpl in Ha, Ha'.
    destruct (IH a') as [-> ->]; auto.
Qed.

Lemma finalLinkMap_keys (courses : list CourseSaveFile) (k : string) (l : Link) :
  map_get k (finalLinkMap courses) = Some l -> edgeKey l = k.
Proof.
  intros Hget. apply map_get_In in Hget.
  destruct (finalMaps_assembled courses) as [_ _ Hown _].
  destruct (Hown k l Hget) as [Hk _]. now symmetry.
Qed.

(** C6, as the code has it.  A corequisite leaf [q] of weight [w] of a
    course offers the value [w] rounded to two decimals to both keys,
    q->course and course->q.  When neither key is in the map yet, both then
    hold an edge of exactly that value, the first from [q] to the course and
    the second from the course to [q] (when the two keys are the same text,
    as for a course that names itself, it is one edge).  At the end of the
    assembly both keys hold an edge of the graph that is stored under its own
    key, source->target, and whose value is at least that value (an edge
    keeps a larger value offered to it elsewhere, so the two values may
    differ); for identifiers without a hyphen the key tells both ends.  A
    prerequisite leaf [p] touches the key p->course alone, and the edge it
    puts under a key that was free goes from [p] to the course. *)
Theorem C6_corequisite_edges :
  (forall (courses : list CourseSaveFile) (c : CourseSaveFile)
          (req : CourseParsedRequirements) (tree : Requirements)
          (q : string) (w : Q),
      In c (parsedCoursesOf courses) ->
      parsedRequirements c = Some req ->
      corequisites req = Some tree ->
      In (q, w) (extractCourseRequirementsWithValues tree 1%Q) ->
      exists l1 l2 : Link,
        map_get (linkKeyOf q (course c)) (finalLinkMap courses) = Some l1 /\
        map_get (linkKeyOf (course c) q) (finalLinkMap courses) = Some l2 /\
        In l1 (links (generateNodesAndLinks courses)) /\
        In l2 (links (generateNodesAndLinks courses)) /\
        (round2 w <= value l1)%Q /\ (round2 w <= value l2)%Q /\
        edgeKey l1 = linkKeyOf q (course c) /\
        edgeKey l2 = linkKeyOf (course c) q /\
        (noDash q -> noDash (source l1) ->
         source l1 = q /\ target l1 = course c) /\
        (noDash (course c) -> noDash (source l2) ->
         source l2 = course c /\ target l2 = q)) /\
  (forall (courseDepths : Map nat) (targetId : string) (nodesMap : Map Node)
          (linkMap : Map Link) (q : string) (w : Q),
      map_get (linkKeyOf q targetId) linkMap = None ->
      map_get (linkKeyOf targetId q) linkMap = None ->
      let linkMap' :=
        snd (addCorequisite courseDepths targetId (nodesMap, linkMap) (q, w)) in
      exists l1 l2 : Link,
        map_get (linkKeyOf q targetId) linkMap' = Some l1 /\
        map_get (linkKeyOf targetId q) linkMap' = Some l2 /\
        value l1 = round2 w /\ value l2 = round2 w /\
        source l1 = q /\ target l1 = targetId /\
        edgeKey l2 = linkKeyOf targetId q /\
        (linkKeyOf targetId q <> linkKeyOf q targetId ->
         source l2 = targetId /\ target l2 = q)) /\
  (forall (courseDepths : Map nat) (targetId : string)
          (st : Map Node * Map Link) (p : string) (w : Q),
      holdsAtLeast (linkKeyOf p targetId) (round2 w)
        (snd (addPrerequisite courseDepths targetId st (p, w))) /\
      (map_get (linkKeyOf p targetId) (snd st) = None ->
       map_get (linkKeyOf p targetId)
         (snd (addPrerequisite courseDepths targetId st (p, w))) =
       Some {| source := p; target := targetId; value := round2 w |}) /\
      forall k : string,
        k <> linkKeyOf p targetId ->
        map_get k (snd (addPrerequisite courseDepths targetId st (p, w))) =
        map_get k (snd st)).
Proof.
  split; [|split].
  - intros courses c req tree q w Hc Hreq Htree Hin.
    destruct (secondPass_corequisite courses c req tree q w Hc Hreq Htree Hin)
      as [[l1 [Hget1 Hle1]] [l2 [Hget2 Hle2]]].
    pose proof (finalLinkMap_keys courses _ _ Hget1) as Hkey1.
    pose proof (finalLinkMap_keys courses _ _ Hget2) as Hkey2.
    exists l1, l2. rewrite links_generate.
    split; [exact Hget1|]. split; [exact Hget2|].
    split; [eauto using map_get_values|].
    split; [eauto using map_get_values|].
    split; [exact Hle1|]. split; [exact Hle2|].
    split; [exact Hkey1|]. split; [exact Hkey2|]. split.
    + intros Hq Hs. exact (linkKeyOf_injective _ _ _ _ Hs Hq Hkey1).
    + intros Hq Hs. exact (linkKeyOf_injective _ _ _ _ Hs Hq Hkey2).
  - intros courseDepths targetId nodesMap linkMap q w Hnone1 Hnone2 linkMap'.
    unfold linkMap'. simpl.
    pose proof (upsertLink_fresh linkMap (linkKeyOf q targetId) q targetId
                  (round2 w) Hnone1) as Hfirst.
    destruct (String.eqb_spec (linkKeyOf targetId q) (linkKeyOf q targetId))
      as [Heq|Hne].
    + rewrite Heq.
      rewrite (upsertLink_present _ _ _ _ _ _ Hfirst). simpl.
      assert (Hself : Qltb (round2 w) (round2 w) = false)
        by (apply Qltb_ge, Qle_refl).
      rewrite Hself. eexists _, _.
      split; [exact Hfirst|]. split; [exact Hfirst|].
      cbn [value source target edgeKey].
      do 5 (split; [reflexivity|]). intros Hdiff. now elim Hdiff.
    + rewrite upsertLink_other by assumption. rewrite Hfirst.
      rewrite upsertLink_fresh
        by (rewrite upsertLink_other; [assumption|congruence]).
      eexists _, _. split; [reflexivity|]. split; [reflexivity|].
      cbn [value source target edgeKey].
      do 5 (split; [reflexivity|]). intros _. split; reflexivity.
  - intros courseDepths targetId [ns ls] p w. simpl. split; [|split].
    + apply upsertLink_holds.
    + apply upsertLink_fresh.
    + intros k Hk. apply upsertLink_other. congruence.
Qed.

(** C6 at the course A with corequisite ONE_OF[B, C] and prerequisite B. *)
Lemma C6_corequisite_edges_witness :
  exists l1 l2 : Link,
    map_get "B->A" (finalLinkMap prereqAndCoreq) = Some l1 /\
    map_get "A->B" (finalLinkMap prereqAndCoreq) = Some l2 /\
    In l1 (links (generateNodesAndLinks prereqAndCoreq)) /\
    In l2 (links (generateNodesAndLinks prereqAndCoreq)) /\
    (round2 (1 # 2) <= value l1)%Q /\ (round2 (1 # 2) <= value l2)%Q /\
    edgeKey l1 = "B->A" /\
    edgeKey l2 = "A->B" /\
    (noDash "B" -> noDash (source l1) -> source l1 = "B" /\ target l1 = "A") /\
    (noDash "A" -> noDash (source l2) -> source l2 = "A" /\ target l2 = "B").
Proof.
  refine (proj1 C6_corequisite_edges prereqAndCoreq
            (parsedCourse "A" "A" (Some (courseNamed "B"))
               (Some (RequirementGroup ONE_OF [courseNamed "B"; courseNamed "C"])))
            _ _ "B" (1 # 2)%Q _ eq_refl eq_refl _).
  - vm_compute. left. reflexivity.
  - vm_compute. left. reflexivity.
Defined.

(** C6 as stated fails: A needs B (weight 1) and has ONE_OF[B, C] as
    corequisite (weight 1/2 each); the edge B -> A keeps value 1 while the
    edge A -> B has value 1/2. *)
Lemma C6_equal_value_counterexample :
  links (generateNodesAndLinks prereqAndCoreq) =
    [{| source := "B"; target := "A"; value := 1%Q |};
     {| source := "A"; target := "B"; value := (1 # 2)%Q |};
     {| source := "C"; target := "A"; value := (1 # 2)%Q |};
     {| source := "A"; target := "C"; value := (1 # 2)%Q |}] /\
  ~ corequisitesSymmetric prereqAndCoreq.
Proof.
  split; [vm_compute; reflexivity|].
  intros H.
  assert (Hc : In (parsedCourse "A" "A" (Some (courseNamed "B"))
                     (Some (RequirementGroup ONE_OF
                              [courseNamed "B"; courseNamed "C"])))
                 (parsedCoursesOf prereqAndCoreq))
    by (vm_compute; left; reflexivity).
  assert (Hq : In ("B", (1 # 2)%Q)
                 (extractCourseRequirementsWithValues
                    (RequirementGroup ONE_OF [courseNamed "B"; courseNamed "C"])
                    1%Q))
    by (vm_compute; left; reflexivity).
  destruct (H _ _ _ "B" (1 # 2)%Q Hc eq_refl eq_refl Hq)
    as [l1 [l2 [Hin1 [Hin2 [Hs1 [Ht1 [Hs2 [Ht2 Hv]]]]]]]].
  - vm_compute in Hin1, Hin2.
    destruct Hin1 as [<-|[<-|[<-|[<-|[]]]]]; try discriminate Hs1;
      try discriminate Ht1.
    destruct Hin2 as [<-|[<-|[<-|[<-|[]]]]]; try discriminate Hs2;
      try discriminate Ht2.
    vm_compute in Hv. discriminate Hv.
Qed.


Lemma isLinked_spec (linkArray : list Link) (x : string) :
  isLinked linkArray x = true <->
  exists l, In l linkArray /\ (x = source l \/ x = target l).
Proof.
  unfold isLinked. rewrite existsb_exists. split.
  - intros [l [Hin Hor]]. exists l. split; [assumption|].
    apply orb_true_iff in Hor. destruct Hor as [H|H]; apply String.eqb_eq in H; auto.
  - intros [l [Hin [Heq|Heq]]]; subst x; exists l; split; try assumption;
      rewrite String.eqb_refl; auto using orb_true_r.
Qed.

Lemma In_map_values {V : Type} (v : V) (m : Map V) :
  In v (map_values m) <-> exists k, In (k, v) m.
Proof.
  unfold map_values. rewrite in_map_iff. split.
  - intros [[k v'] [<- Hin]]. now exists k.
  - intros [k Hin]. now exists (k, v).
Qed.

Lemma map_has_entry {V : Type} (k : string) (m : Map V) :
  map_has k m = true -> exists v, In (k, v) m.
Proof.
  unfold map_has. destruct (map_get k m) as [v|] eqn:Hget; [|discriminate].
  intros _. exists v. now apply map_get_In.
Qed.

(** A node for [k] in the node map is handed out as soon as [k] is an end of
    some edge. *)
Lemma linked_node_kept (courses : list CourseSaveFile) (k : string) (n : Node) :
  In (k, n) (finalNodeMap courses) ->
  isLinked (links (generateNodesAndLinks courses)) k = true ->
  exists n', In n' (nodes (generateNodesAndLinks courses)) /\ id n' = k.
Proof.
  intros Hin Hlinked.
  destruct (nodes_own _ _ (finalMaps_assembled courses) k n Hin) as [Hid _].
  eexists. split.
  - rewrite nodes_generate. apply filter_In. split.
    + apply in_map_iff. exists (k, n). split; [reflexivity|assumption].
    + simpl. now rewrite Hid.
  - simpl. assumption.
Qed.

(** X1.  The graph handed out is closed: both ends of every edge are among
    its nodes, and every node is an end of one of its edges (a course without
    any edge is pruned). *)
Theorem X1_graph_closed :
  forall courses : list CourseSaveFile,
    let g := generateNodesAndLinks courses in
    (forall l, In l (links g) ->
       (exists n, In n (nodes g) /\ id n = source l) /\
       (exists n, In n (nodes g) /\ id n = target l)) /\
    (forall n, In n (nodes g) ->
       exists l, In l (links g) /\ (id n = source l \/ id n = target l)).
Proof.
  intros courses g. unfold g. split.
  - intros l Hl.
    assert (Hlinked : isLinked (links (generateNodesAndLinks courses)) (source l)
                      = true /\
                      isLinked (links (generateNodesAndLinks courses)) (target l)
                      = true).
    { split; apply isLinked_spec; exists l; auto. }
    rewrite links_generate in Hl. apply In_map_values in Hl.
    destruct Hl as [k Hkl].
    destruct (links_own _ _ (finalMaps_assembled courses) k l Hkl)
      as [_ [Hs Ht]]. simpl in Hs, Ht.
    apply map_has_entry in Hs, Ht.
    destruct Hs as [ns Hns], Ht as [nt Hnt]. destruct Hlinked as [Hls Hlt].
    split; eauto using linked_node_kept.
  - intros n Hn. rewrite nodes_generate in Hn. apply filter_In in Hn.
    destruct Hn as [_ Hlinked]. now apply isLinked_spec.
Qed.

Lemma NoDup_filter {A : Type} (f : A -> bool) (l : list A) :
  NoDup l -> NoDup (filter f l).
Proof.
  induction 1 as [|a l Hnotin _ IH]; simpl; [constructor|].
  destruct (f a); [|assumption].
  constructor; [|assumption]. intros Hin. apply filter_In in Hin. tauto.
Qed.

Lemma map_ext_entries {V A : Type} (f g : string * V -> A) (m : Map V) :
  (forall k v, In (k, v) m -> f (k, v) = g (k, v)) -> map f m = map g m.
Proof.
  intros H. apply map_ext_in. intros [k v] Hin. now apply H.
Qed.

(** X2.  Deduplication: no two nodes of the graph share an identifier, and
    no two edges share a key source->target. *)
Theorem X2_nodes_and_edges_distinct :
  forall courses : list CourseSaveFile,
    NoDup (map id (nodes (generateNodesAndLinks courses))) /\
    NoDup (map edgeKey (links (generateNodesAndLinks courses))).
Proof.
  intros courses. pose proof (finalMaps_assembled courses) as Hfinal. split.
  - rewrite nodes_generate.
    set (sized := map _ (finalNodeMap courses)).
    assert (Hids : map id sized = map fst (finalNodeMap courses)).
    { unfold sized. rewrite map_map. apply map_ext_entries.
      intros k n Hin. simpl.
      now destruct (nodes_own _ _ Hfinal k n Hin) as [Hid _]. }
    assert (Hnd : NoDup (map id sized))
      by (rewrite Hids; exact (nodes_once _ _ Hfinal)).
    clearbody sized. clear Hids.
    induction sized as [|n sized IH]; simpl; [constructor|].
    inversion Hnd as [|? ? Hnotin Hnd']; subst.
    destruct (isLinked _ (id n)); simpl; [|now apply IH].
    constructor; [|now apply IH].
    intros Hin. apply Hnotin. apply in_map_iff in Hin.
    destruct Hin as [n' [Hid Hin]]. apply filter_In in Hin.
    apply in_map_iff. exists n'. tauto.
  - rewrite links_generate. unfold map_values. rewrite map_map.
    rewrite (map_ext_entries (fun x => edgeKey (snd x)) fst).
    + exact (links_once _ _ Hfinal).
    + intros k l Hin. simpl.
      now destruct (links_own _ _ Hfinal k l Hin) as [-> _].
Qed.

Lemma countIncoming_from (linkArray : list Link) (k : string) :
  forall counts : Map nat,
    getOrZero k
      (fold_left
         (fun incomingCounts l =>
            map_set (target l) (getOrZero (target l) incomingCounts + 1)
              incomingCounts)
         linkArray counts) =
    getOrZero k counts + inDegree linkArray k.
Proof.
  unfold inDegree.
  induction linkArray as [|l ls IH]; intros counts; simpl; [lia|].
  rewrite IH. destruct (String.eqb_spec (target l) k) as [<-|Hne]; simpl.
  - rewrite getOrZero_set_same. lia.
  - now rewrite getOrZero_set_other.
Qed.

Lemma countIncoming_inDegree (linkArray : list Link) (k : string) :
  getOrZero k (countIncoming linkArray) = inDegree linkArray k.
Proof.
  unfold countIncoming. now rewrite countIncoming_from.
Qed.

Lemma node_of_entry (courses : list CourseSaveFile) (n : Node) :
  In n (nodes (generateNodesAndLinks courses)) ->
  exists k n0,
    In (k, n0) (finalNodeMap courses) /\
    n = setSize n0
          (getOrZero k (countIncoming (links (generateNodesAndLinks courses)))).
Proof.
  rewrite nodes_generate. intros Hin. apply filter_In in Hin.
  destruct Hin as [Hin _]. apply in_map_iff in Hin.
  destruct Hin as [[k n0] [<- Hin]]. now exists k, n0.
Qed.

(** X3.  The size of every node of the graph is its in-degree: the number
    of edges of the graph whose target is the node. *)
Theorem X3_size_is_in_degree :
  forall (courses : list CourseSaveFile) (n : Node),
    In n (nodes (generateNodesAndLinks courses)) ->
    size n = inDegree (links (generateNodesAndLinks courses)) (id n).
Proof.
  intros courses n Hn. destruct (node_of_entry courses n Hn) as [k [n0 [Hin ->]]].
  destruct (nodes_own _ _ (finalMaps_assembled courses) k n0 Hin) as [Hid _].
  simpl. rewrite Hid. apply countIncoming_inDegree.
Qed.

(** X3 at the course X that needs one of A, B, C. *)
Lemma X3_size_is_in_degree_witness :
  size {| id := "X"; title := "X"; dept := "X"; size := 3; depth := 1 |} =
  inDegree (links (generateNodesAndLinks oneOfThree)) "X".
Proof.
  refine (X3_size_is_in_degree oneOfThree
            {| id := "X"; title := "X"; dept := "X"; size := 3; depth := 1 |} _).
  vm_compute. left. reflexivity.
Defined.

(** X4.  Every node of the graph carries the depth the resolver gave its
    course (0 for a course the resolver never saw) and its identifier as
    title. *)
Theorem X4_node_depth_is_resolved :
  forall (courses : list CourseSaveFile) (n : Node),
    In n (nodes (generateNodesAndLinks courses)) ->
    depth n = getOrZero (id n) (resolveDepths (parsedCoursesOf courses)) /\
    title n = id n.
Proof.
  intros courses n Hn. destruct (node_of_entry courses n Hn) as [k [n0 [Hin ->]]].
  destruct (nodes_own _ _ (finalMaps_assembled courses) k n0 Hin)
    as [Hid [Hdepth [_ Htitle]]].
  simpl. rewrite Hid. tauto.
Qed.

(** X4 at the course X that needs one of A, B, C. *)
Lemma X4_node_depth_is_resolved_witness :
  depth {| id := "X"; title := "X"; dept := "X"; size := 3; depth := 1 |} =
    getOrZero "X" (resolveDepths (parsedCoursesOf oneOfThree)) /\
  "X" = "X".
Proof.
  refine (X4_node_depth_is_resolved oneOfThree
            {| id := "X"; title := "X"; dept := "X"; size := 3; depth := 1 |} _).
  vm_compute. left. reflexivity.
Defined.

(* ================================================================== *)
(** ** Depth of one requirement tree: further facts *)

Lemma sort_nth_In (l : list nat) (i : nat) :
  i < List.length l -> In (nth i (sort l) 0) l.
Proof.
  intros Hi. apply (Permutation_in _ (Permutation_sym (sort_permutation l))).
  apply nth_In. now rewrite <- (Permutation_length (sort_permutation l)).
Qed.

(** The depth of a group with a non-zero child is one of its non-zero child
    depths. *)
Lemma group_depth_member (logic : Logic) (children : list Requirements)
    (courseDepths : Map nat) :
  nonZeroChildDepths children courseDepths <> []%list ->
  In (calculatePrerequisiteDepth (RequirementGroup logic children) courseDepths)
    (nonZeroChildDepths children courseDepths).
Proof.
  intros Hne. rewrite group_depth. cbv zeta.
  destruct (nonZeroChildDepths children courseDepths) as [|d ds] eqn:Hds;
    [congruence|].
  destruct logic.
  - apply Math_max_is_max. discriminate.
  - apply Math_min_is_min. discriminate.
  - rewrite <- (Permutation_length (sort_permutation (d :: ds))).
    destruct (Nat.leb_spec 2 (List.length (d :: ds))).
    + apply sort_nth_In. lia.
    + apply sort_nth_In. simpl. lia.
Qed.

Lemma nonZeroChildDepths_positive (children : list Requirements)
    (courseDepths : Map nat) (x : nat) :
  In x (nonZeroChildDepths children courseDepths) -> 0 < x.
Proof.
  unfold nonZeroChildDepths. intros Hin. apply filter_In in Hin.
  destruct Hin as [_ Hpos]. now apply Nat.ltb_lt.
Qed.

Lemma nonZeroChildDepths_nil (children : list Requirements)
    (courseDepths : Map nat) :
  nonZeroChildDepths children courseDepths = []%list <->
  Forall (fun c => calculatePrerequisiteDepth c courseDepths = 0) children.
Proof.
  unfold nonZeroChildDepths.
  induction children as [|c cs IH]; simpl; [split; auto|].
  destruct (Nat.ltb_spec 0 (calculatePrerequisiteDepth c courseDepths)).
  - split; [discriminate|]. intros Hall. inversion Hall. lia.
  - rewrite IH. split.
    + intros H'. constructor; [lia|assumption].
    + intros H'. now inversion H'.
Qed.

Lemma flat_map_nil {A B : Type} (f : A -> list B) (l : list A) :
  flat_map f l = []%list <-> Forall (fun a => f a = []%list) l.
Proof.
  induction l as [|a l IH]; simpl; [split; auto|]. split.
  - intros H. apply app_eq_nil in H. destruct H as [Ha Hl].
    constructor; [assumption|now apply IH].
  - intros H. inversion H as [|? ? Ha Hl]; subst.
    rewrite Ha. now apply IH.
Qed.

Lemma depth_zero_iff (r : Requirements) (courseDepths : Map nat) :
  calculatePrerequisiteDepth r courseDepths = 0 <-> courseLeaves r = []%list.
Proof.
  induction r as [logic children IH|r Hr] using Requirements_nested_ind.
  - simpl courseLeaves. rewrite flat_map_nil.
    assert (Hall : Forall (fun c => calculatePrerequisiteDepth c courseDepths = 0)
                     children <->
                   Forall (fun c => courseLeaves c = []%list) children).
    { clear logic. induction IH as [|c cs Hc _ IHcs]; [split; auto|].
      split; intros H; inversion H; subst; constructor; tauto. }
    rewrite <- Hall, <- nonZeroChildDepths_nil. split.
    + intros Hzero.
      destruct (nonZeroChildDepths children courseDepths) as [|d ds] eqn:Hds;
        [reflexivity|].
      assert (Hne : nonZeroChildDepths children courseDepths <> []%list)
        by (rewrite Hds; discriminate).
      pose proof (group_depth_member logic children courseDepths Hne) as Hin.
      apply nonZeroChildDepths_positive in Hin. lia.
    + intros Hnil. rewrite group_depth. cbv zeta. now rewrite Hnil.
  - destruct r; try discriminate Hr; simpl; split; try reflexivity;
      try discriminate; lia.
Qed.

(** X5.  A requirement tree has depth 0, whatever the depth table, exactly
    when it holds no [course] leaf, that is exactly when the extractor emits
    nothing for it. *)
Theorem X5_depth_zero_iff_no_course :
  forall (r : Requirements) (courseDepths : Map nat) (w : Q),
    (calculatePrerequisiteDepth r courseDepths = 0 <->
     courseLeaves r = []%list) /\
    (calculatePrerequisiteDepth r courseDepths = 0 <->
     extractCourseRequirementsWithValues r w = []%list).
Proof.
  intros r courseDepths w. split; [apply depth_zero_iff|].
  rewrite depth_zero_iff, <- (extract_leaves r w). split.
  - intros H. now destruct (extractCourseRequirementsWithValues r w).
  - intros ->. reflexivity.
Qed.

(** X6.  On the same children and the same depth table a ONE_OF group is
    never deeper than the TWO_OF group, which is never deeper than the
    ALL_OF group. *)
Theorem X6_logic_order :
  forall (children : list Requirements) (courseDepths : Map nat),
    calculatePrerequisiteDepth (RequirementGroup ONE_OF children) courseDepths
    <= calculatePrerequisiteDepth (RequirementGroup TWO_OF children) courseDepths
    /\
    calculatePrerequisiteDepth (RequirementGroup TWO_OF children) courseDepths
    <= calculatePrerequisiteDepth (RequirementGroup ALL_OF children) courseDepths.
Proof.
  intros children courseDepths.
  destruct (nonZeroChildDepths children courseDepths) as [|d ds] eqn:Hds.
  - rewrite !group_depth. cbv zeta. rewrite Hds. lia.
  - assert (Hne : nonZeroChildDepths children courseDepths <> []%list)
      by (rewrite Hds; discriminate).
    pose proof (group_depth_member TWO_OF children courseDepths Hne) as Htwo.
    split.
    + rewrite (group_depth ONE_OF). cbv zeta. rewrite Hds, <- Hds.
      now apply (Math_min_is_min _ Hne).
    + rewrite (group_depth ALL_OF). cbv zeta. rewrite Hds, <- Hds.
      now apply (Math_max_is_max _ Hne).
Qed.


(* ================================================================== *)
(** ** Depth resolution: bounds *)

Lemma depth_bounded (r : Requirements) (courseDepths : Map nat) (bound : nat) :
  boundedBy bound courseDepths ->
  calculatePrerequisiteDepth r courseDepths <= S bound.
Proof.
  intros Hb.
  induction r as [logic children IH|r Hr] using Requirements_nested_ind.
  - destruct (nonZeroChildDepths children courseDepths) as [|d ds] eqn:Hds.
    + rewrite group_depth. cbv zeta. rewrite Hds. lia.
    + assert (Hne : nonZeroChildDepths children courseDepths <> []%list)
        by (rewrite Hds; discriminate).
      pose proof (group_depth_member logic children courseDepths Hne) as Hin.
      unfold nonZeroChildDepths in Hin. apply filter_In in Hin.
      destruct Hin as [Hin _]. apply in_map_iff in Hin.
      destruct Hin as [c [<- Hc]].
      rewrite Forall_forall in IH. now apply IH.
  - destruct r as [| c g can must | | | | | | ];
      try discriminate Hr; simpl; try lia.
    specialize (Hb c). lia.
Qed.

Lemma maxWith_bounded (m bound : nat) (tree : option Requirements)
    (courseDepths : Map nat) :
  boundedBy bound courseDepths -> m <= S bound ->
  maxWith m tree courseDepths <= S bound.
Proof.
  intros Hb Hm. destruct tree as [r|]; simpl; [|assumption].
  pose proof (depth_bounded r courseDepths bound Hb). lia.
Qed.

(** What a course does to the state, with the value it writes. *)
Lemma relaxCourse_value (d : Map nat) (ch : bool) (c : CourseSaveFile) :
  relaxCourse (d, ch) c = (d, ch) \/
  exists req,
    parsedRequirements c = Some req /\
    let m := maxWith (maxWith 0 (prerequisites req) d) (corequisites req) d in
    getOrZero (course c) d < m /\
    relaxCourse (d, ch) c = (map_set (course c) m d, true).
Proof.
  unfold relaxCourse. destruct (parsedRequirements c) as [req|]; [|now left].
  cbv zeta.
  destruct (Nat.ltb_spec (getOrZero (course c) d)
              (maxWith (maxWith 0 (prerequisites req) d) (corequisites req) d))
    as [Hlt|Hge]; [right|now left].
  exists req. auto.
Qed.

Lemma relaxCourse_bounded (st : Map nat * bool) (c : CourseSaveFile)
    (bound : nat) :
  boundedBy bound (fst st) -> boundedBy (S bound) (fst (relaxCourse st c)).
Proof.
  destruct st as [d ch]. cbn [fst]. intros Hb.
  destruct (relaxCourse_value d ch c) as [->|[req [_ [_ ->]]]].
  - intros k. specialize (Hb k). simpl. lia.
  - intros k. simpl. destruct (String.eqb_spec (course c) k) as [<-|Hne].
    + rewrite getOrZero_set_same. apply maxWith_bounded; [assumption|].
      apply maxWith_bounded; [assumption|lia].
    + rewrite getOrZero_set_other by assumption. specialize (Hb k). lia.
Qed.

Lemma relaxPass_bounded (parsedCourses : list CourseSaveFile) (d : Map nat)
    (bound : nat) :
  boundedBy bound d ->
  boundedBy (bound + List.length parsedCourses) (fst (relaxPass parsedCourses d)).
Proof.
  unfold relaxPass. intros Hb.
  change d with (fst (d, false)) in Hb. revert Hb.
  generalize (d, false) as st.
  revert bound. induction parsedCourses as [|c cs IH]; intros bound st Hb; simpl.
  - now rewrite Nat.add_0_r.
  - rewrite <- Nat.add_succ_comm. apply IH. now apply relaxCourse_bounded.
Qed.

Lemma relaxLoop_bounded (parsedCourses : list CourseSaveFile) (rounds : nat) :
  forall (changed : bool) (d : Map nat) (bound : nat),
    boundedBy bound d ->
    boundedBy (bound + rounds * List.length parsedCourses)
      (relaxLoop parsedCourses rounds changed d).
Proof.
  induction rounds as [|rounds IH]; intros changed d bound Hb; simpl.
  - now rewrite Nat.add_0_r.
  - destruct changed.
    + pose proof (relaxPass_bounded parsedCourses d bound Hb) as Hpass.
      destruct (relaxPass parsedCourses d) as [d' ch']. simpl in Hpass.
      specialize (IH ch' d' _ Hpass).
      intros k. specialize (IH k). lia.
    + intros k. specialize (Hb k). lia.
Qed.

(** X7.  However the courses depend on one another, no resolved depth
    exceeds the iteration ceiling times the number of parsed courses; two
    courses that require each other reach this bound (2 courses, depth 20). *)
Theorem X7_depth_bound :
  (forall (parsedCourses : list CourseSaveFile) (k : string),
      getOrZero k (resolveDepths parsedCourses)
      <= maxIterations * List.length parsedCourses) /\
  getOrZero "B" (resolveDepths cyclicPair) = maxIterations * List.length cyclicPair.
Proof.
  split; [|reflexivity].
  intros parsedCourses k. unfold resolveDepths.
  apply (relaxLoop_bounded parsedCourses maxIterations true
           (initialDepths parsedCourses) 0).
  intros k'. now rewrite (proj1 (initialDepths_zero parsedCourses) k').
Qed.

Lemma hasCourseLeaf_false (tree : option Requirements) (m : nat)
    (courseDepths : Map nat) :
  hasCourseLeaf tree = false -> maxWith m tree courseDepths = m.
Proof.
  destruct tree as [r|]; simpl; [|reflexivity].
  intros H. apply negb_false_iff, Nat.eqb_eq in H.
  assert (Hzero : calculatePrerequisiteDepth r courseDepths = 0).
  { apply depth_zero_iff. now destruct (courseLeaves r). }
  rewrite Hzero. lia.
Qed.

Lemma hasCourseLeaf_true (tree : option Requirements) (m : nat)
    (courseDepths : Map nat) :
  hasCourseLeaf tree = true -> 1 <= maxWith m tree courseDepths.
Proof.
  destruct tree as [r|]; simpl; [|discriminate].
  intros H. apply negb_true_iff, Nat.eqb_neq in H.
  assert (Hnz : calculatePrerequisiteDepth r courseDepths <> 0).
  { intros Hzero. apply depth_zero_iff in Hzero. now rewrite Hzero in H. }
  lia.
Qed.

Lemma maxWith_ge (m : nat) (tree : option Requirements) (courseDepths : Map nat) :
  m <= maxWith m tree courseDepths.
Proof. destruct tree; simpl; lia. Qed.

Lemma relaxCourse_silent (d : Map nat) (ch : bool) (c : CourseSaveFile) :
  namesCourse c = false -> relaxCourse (d, ch) c = (d, ch).
Proof.
  unfold namesCourse, relaxCourse.
  destruct (parsedRequirements c) as [req|]; [|reflexivity].
  intros H. apply orb_false_iff in H. destruct H as [Hp Hc]. cbv zeta.
  rewrite (hasCourseLeaf_false _ 0 d Hp), (hasCourseLeaf_false _ 0 d Hc).
  reflexivity.
Qed.

Lemma relaxCourse_raises (d : Map nat) (ch : bool) (c : CourseSaveFile) :
  namesCourse c = true ->
  1 <= getOrZero (course c) (fst (relaxCourse (d, ch) c)).
Proof.
  unfold namesCourse, relaxCourse.
  destruct (parsedRequirements c) as [req|]; [|discriminate].
  intros H. cbv zeta.
  assert (Hmax : 1 <= maxWith (maxWith 0 (prerequisites req) d)
                        (corequisites req) d).
  { apply orb_true_iff in H. destruct H as [Hp|Hc].
    - pose proof (hasCourseLeaf_true _ 0 d Hp).
      pose proof (maxWith_ge (maxWith 0 (prerequisites req) d)
                    (corequisites req) d). lia.
    - now apply hasCourseLeaf_true. }
  destruct (Nat.ltb_spec (getOrZero (course c) d)
              (maxWith (maxWith 0 (prerequisites req) d) (corequisites req) d));
    simpl.
  - now rewrite getOrZero_set_same.
  - lia.
Qed.

Lemma relaxLoop_grows (parsedCourses : list CourseSaveFile) (rounds : nat)
    (k : string) :
  forall (changed : bool) (d : Map nat),
    getOrZero k d <= getOrZero k (relaxLoop parsedCourses rounds changed d).
Proof.
  induction rounds as [|rounds IH]; intros changed d; simpl; [lia|].
  destruct changed; [|lia].
  pose proof (proj1 (relaxPass_grows parsedCourses d) k) as Hpass.
  destruct (relaxPass parsedCourses d) as [d' ch']. simpl in Hpass.
  specialize (IH ch' d'). lia.
Qed.

Lemma relaxLoop_first (parsedCourses : list CourseSaveFile) (rounds : nat)
    (d : Map nat) :
  relaxLoop parsedCourses (S rounds) true d =
  relaxLoop parsedCourses rounds (snd (relaxPass parsedCourses d))
    (fst (relaxPass parsedCourses d)).
Proof. simpl. now destruct (relaxPass parsedCourses d). Qed.

(** X8.  A course ends at depth 0 exactly when none of its parsed records
    names a course among its prerequisites or corequisites: one named
    course, parsed or not, is enough to put it at depth 1 or more, and a
    course without a parsed record stays at depth 0. *)
Theorem X8_depth_zero_courses :
  forall (parsedCourses : list CourseSaveFile) (k : string),
    getOrZero k (resolveDepths parsedCourses) = 0 <->
    (forall c, In c parsedCourses -> course c = k -> namesCourse c = false).
Proof.
  intros parsedCourses k. split.
  - intros Hzero c Hc Hk. destruct (namesCourse c) eqn:Hnames; [|reflexivity].
    exfalso. unfold resolveDepths, maxIterations in Hzero.
    rewrite relaxLoop_first in Hzero.
    assert (Hfirst : 1 <= getOrZero k
                            (fst (relaxPass parsedCourses
                                    (initialDepths parsedCourses)))).
    { unfold relaxPass.
      generalize (initialDepths parsedCourses, false).
      apply (fold_left_reaches relaxCourse
               (fun st => 1 <= getOrZero k (fst st)) _ c Hc).
      - intros [d ch]. rewrite <- Hk. now apply relaxCourse_raises.
      - intros st b Hst. pose proof (relaxCourse_grows st b k). lia. }
    pose proof (relaxLoop_grows parsedCourses 9 k
                  (snd (relaxPass parsedCourses (initialDepths parsedCourses)))
                  (fst (relaxPass parsedCourses (initialDepths parsedCourses)))).
    lia.
  - intros Hquiet. unfold resolveDepths.
    assert (Hloop : forall rounds changed d,
               getOrZero k d = 0 ->
               getOrZero k (relaxLoop parsedCourses rounds changed d) = 0).
    { induction rounds as [|rounds IH]; intros changed d Hd; simpl;
        [assumption|].
      destruct changed; [|assumption].
      assert (Hpass : getOrZero k (fst (relaxPass parsedCourses d)) = 0).
      { unfold relaxPass.
        apply (fold_left_invariant relaxCourse
                 (fun st => getOrZero k (fst st) = 0)); [|assumption].
        intros [d0 ch0] b Hb Hst.
        destruct (String.eqb_spec (course b) k) as [Heq|Hne].
        - now rewrite (relaxCourse_silent d0 ch0 b (Hquiet b Hb Heq)).
        - destruct (relaxCourse_cases d0 ch0 b) as [->|[m [_ ->]]];
            [assumption|].
          simpl. now rewrite getOrZero_set_other. }
      destruct (relaxPass parsedCourses d) as [d' ch']. now apply IH. }
    apply Hloop. apply initialDepths_zero.
Qed.


(* ================================================================== *)
(** ** Schema validator: the typed trees it accepts *)

Lemma strings_are_strings (xs : list string) :
  forallb (fun d => typeof d =? "string") (map (fun x => JString x) xs) = true.
Proof. induction xs; simpl; auto. Qed.

Lemma levels_are_valid (xs : list courseLevels) :
  forallb (fun l => (typeof l =? "string") && includes validLevels l)
    (map (fun x => JString (levelName x)) xs) = true.
Proof.
  induction xs as [|x xs IH]; simpl; auto. rewrite IH. now destruct x.
Qed.

Lemma checkDepartment_typed (d : oneOrMany string) :
  checkDepartment (oneOrManyToJs (fun s => s) d) = None.
Proof.
  destruct d as [s|xs]; simpl; [reflexivity|].
  unfold checkDepartment. simpl. now rewrite strings_are_strings.
Qed.

Lemma checkLevel_typed rev (l : oneOrMany courseLevels) :
  checkLevel rev (oneOrManyToJs levelName l) = None.
Proof.
  destruct l as [x|xs]; unfold checkLevel; simpl.
  - now destruct x.
  - now rewrite levels_are_valid.
Qed.

Ltac answer := try (eexists; split; reflexivity).

Lemma course_answers rev c g can must :
  answers (validateRequirements rev (toJs (RequirementCourse c g can must)))
    (RequirementCourse c g can must).
Proof.
  unfold answers. rewrite validateRequirements_eq.
  unfold validateRequirementsBody, validateRequirementCourse.
  destruct g as [n|], can as [can|], must as [must|];
    cbn -[num_ltb]; unfold nonEmpty; destruct (c =? EmptyString);
    cbn -[num_ltb]; answer;
    unfold badMinGrade, ltNumber, gtNumber; cbn -[num_ltb];
    destruct (num_ltb n (num_of_Z 0)), (num_ltb (num_of_Z 100) n); cbn; answer.
Qed.

Ltac split_grade :=
  match goal with
  | |- context [num_ltb ?g (num_of_Z 0)] =>
      destruct (num_ltb g (num_of_Z 0)), (num_ltb (num_of_Z 100) g)
  end.

Ltac count_answers rev n :=
  cbn -[num_ltb num_leb truthy checkDepartment checkLevel oneOrManyToJs
        badMinGrade];
  unfold positiveNumber, leNumber;
  destruct (truthy (JNumber n));
  cbn -[num_ltb num_leb checkDepartment checkLevel oneOrManyToJs badMinGrade];
  answer;
  destruct (num_leb n (num_of_Z 0));
  cbn -[num_ltb num_leb checkDepartment checkLevel oneOrManyToJs badMinGrade];
  answer;
  rewrite ?checkDepartment_typed, ?checkLevel_typed;
  try change (checkDepartment JUndefined) with (@None string);
  try change (checkLevel rev JUndefined) with (@None string);
  cbn -[num_ltb]; unfold badMinGrade, ltNumber, gtNumber; cbn -[num_ltb];
  answer;
  split_grade; cbn; answer.

Lemma creditCount_answers rev n d l g :
  answers (validateRequirements rev (toJs (RequirementCreditCount n d l g)))
    (RequirementCreditCount n d l g).
Proof.
  unfold answers. rewrite validateRequirements_eq.
  unfold validateRequirementsBody, validateRequirementCreditCount,
    validateCountOptions.
  destruct d as [d|], l as [l|], g as [g|]; count_answers rev n.
Qed.

Lemma courseCount_answers rev n d l g :
  answers (validateRequirements rev (toJs (RequirementCourseCount n d l g)))
    (RequirementCourseCount n d l g).
Proof.
  unfold answers. rewrite validateRequirements_eq.
  unfold validateRequirementsBody, validateRequirementCourseCount,
    validateCountOptions.
  destruct d as [d|], l as [l|], g as [g|]; count_answers rev n.
Qed.

Lemma text_answers rev (r : Requirements) :
  isGroup r = false -> answers (validateRequirements rev (toJs r)) r.
Proof.
  destruct r as [| c g can must | n d l g | n d l g | s | p | n | n];
    intros Hr; try discriminate Hr.
  - apply course_answers.
  - apply creditCount_answers.
  - apply courseCount_answers.
  - unfold answers. rewrite validateRequirements_eq. destruct s; answer.
  - unfold answers. rewrite validateRequirements_eq.
    unfold validateRequirementsBody, validateRequirementProgram. cbn.
    unfold nonEmpty. destruct (p =? EmptyString); cbn; answer.
  - unfold answers. rewrite validateRequirements_eq.
    unfold validateRequirementsBody, validateRequirementPermission. cbn.
    unfold nonEmpty. destruct (n =? EmptyString); cbn; answer.
  - unfold answers. rewrite validateRequirements_eq.
    unfold validateRequirementsBody, validateRequirementOther. cbn.
    unfold nonEmpty. destruct (n =? EmptyString); cbn; answer.
Qed.

Lemma forChildren_typed (self : JsValue -> completion ValidationResult)
    (cs : list Requirements) :
  Forall (fun c => answers (self (toJs c)) c) cs ->
  forall i, exists res,
    forChildren self i (map toJs cs) (Normal valid) = Normal res /\
    isValid res = forallb wellFormed cs.
Proof.
  induction 1 as [|c cs [res [Hres Hflag]] _ IH]; intros i; simpl.
  - now exists valid.
  - rewrite Hres. cbn [bind]. rewrite <- Hflag.
    destruct (isValid res); cbn [negb andb]; [apply IH|].
    eexists. split; reflexivity.
Qed.

Lemma typed_answers rev (r : Requirements) :
  answers (validateRequirements rev (toJs r)) r.
Proof.
  induction r as [logic children IH|r Hr] using Requirements_nested_ind;
    [|now apply text_answers].
  unfold answers.
  assert (Hlogic : includes groupLogics (JString (logicName logic)) = true)
    by now destruct logic.
  change (toJs (RequirementGroup logic children))
    with (JObject [("type", JString "group");
                   ("logic", JString (logicName logic));
                   ("children", JArray (map toJs children))]).
  rewrite (group_unfold rev
             [("type", JString "group"); ("logic", JString (logicName logic));
              ("children", JArray (map toJs children))]
             (map toJs children) eq_refl Hlogic eq_refl).
  rewrite length_map. cbn [wellFormed].
  destruct (List.length children =? 0)%nat; cbn [negb andb].
  - eexists. split; reflexivity.
  - assert (Hafter : afterChildren rev
                       (JObject [("type", JString "group");
                                 ("logic", JString (logicName logic));
                                 ("children", JArray (map toJs children))])
                     = Normal valid) by now destruct rev.
    rewrite Hafter. now apply forChildren_typed.
Qed.

(** X11.  Validity of a typed tree is compositional and the same in both
    copies of the validator: the run-time object of a tree is accepted
    exactly when every group in it has at least one child and all its
    children are accepted, every course, program and note text is not empty,
    every credits or count number is truthy and not at most 0, and every
    minGrade is neither below 0 nor above 100.  No call raises, and an
    accepted tree gets the record without a message. *)
Theorem X11_typed_validity :
  forall (rev : Revision) (r : Requirements),
    (exists res, validateRequirements rev (toJs r) = Normal res /\
                 isValid res = wellFormed r) /\
    (validateRequirements rev (toJs r) = Normal valid <-> wellFormed r = true) /\
    (forall logic children,
        r = RequirementGroup logic children ->
        (wellFormed r = true <->
         children <> []%list /\ Forall (fun c => wellFormed c = true) children)).
Proof.
  intros rev r. pose proof (typed_answers rev r) as [res [Hres Hflag]].
  split; [now exists res|]. split.
  - rewrite Hres, <- Hflag. split.
    + now intros [= ->].
    + intros Hvalid.
      destruct (validateRequirements_returns rev (toJs r)) as [res' [Hres' Hwf]].
      rewrite Hres in Hres'. injection Hres' as Heq. subst res'.
      destruct Hwf as [[_ Herr]|[Hbad _]]; [|congruence].
      destruct res as [flag err]. simpl in Hvalid, Herr. subst flag err.
      reflexivity.
  - intros logic children ->. cbn [wellFormed].
    rewrite andb_true_iff, negb_true_iff, Nat.eqb_neq, forallb_forall,
      Forall_forall.
    destruct children; simpl; split; intros [H1 H2]; split;
      try congruence; try lia; auto.
Qed.

Lemma truthy_toJs (r : Requirements) : truthy (toJs r) = true.
Proof. now destruct r. Qed.

Lemma validateOptional_typed rev (data : JsValue) (field label : string)
    (next : completion ValidationResult) (tree : option Requirements) :
  getProp data field =
    Normal match tree with Some r => toJs r | None => JUndefined end ->
  exists msg,
    validateOptional rev data field label next =
    if wellFormedOption tree then next else Normal (invalid msg).
Proof.
  intros Hget. unfold validateOptional. rewrite Hget. cbn [bind].
  destruct tree as [r|]; simpl; [|now exists EmptyString].
  rewrite truthy_toJs.
  destruct (typed_answers rev r) as [res [-> Hflag]]. cbn [bind].
  rewrite Hflag. destruct (wellFormed r); cbn [negb]; eauto.
Qed.

(** X12.  A typed record is accepted by [validateParsedRequirements]
    exactly when its department and code are not empty and each of the
    requirement trees it holds is accepted; an absent tree is not looked
    at. *)
Theorem X12_typed_record_validity :
  forall (rev : Revision) (p : CourseParsedRequirements),
    isValid (validateParsedRequirements rev (parsedToJs p)) =
    nonEmpty (department p) && nonEmpty (code p)
    && wellFormedOption (prerequisites p)
    && wellFormedOption (corequisites p)
    && wellFormedOption (recommendedPrerequisites p)
    && wellFormedOption (recommendedCorequisites p).
Proof.
  intros rev [dept cd pre co rpre rco]. cbn [department code prerequisites
    corequisites recommendedPrerequisites recommendedCorequisites].
  set (data := parsedToJs _).
  assert (Hpre : getProp data "prerequisites" =
                 Normal match pre with Some r => toJs r | None => JUndefined end)
    by (destruct pre, co, rpre, rco; reflexivity).
  assert (Hco : getProp data "corequisites" =
                Normal match co with Some r => toJs r | None => JUndefined end)
    by (destruct pre, co, rpre, rco; reflexivity).
  assert (Hrpre : getProp data "recommendedPrerequisites" =
                  Normal match rpre with Some r => toJs r | None => JUndefined end)
    by (destruct pre, co, rpre, rco; reflexivity).
  assert (Hrco : getProp data "recommendedCorequisites" =
                 Normal match rco with Some r => toJs r | None => JUndefined end)
    by (destruct pre, co, rpre, rco; reflexivity).
  assert (Hdept : getProp data "department" = Normal (JString dept)) by reflexivity.
  assert (Hcode : getProp data "code" = Normal (JString cd)) by reflexivity.
  assert (Hobj : negb (truthy data) || negb (typeof data =? "object") = false)
    by reflexivity.
  unfold validateParsedRequirements, validateParsedRequirementsTry.
  rewrite Hobj, Hdept. cbn [bind truthy typeof]. unfold nonEmpty.
  destruct (dept =? EmptyString); [reflexivity|].
  rewrite Hcode. cbn [bind truthy typeof].
  destruct (cd =? EmptyString); [reflexivity|].
  assert (Hs : ("string" =? "string") = true) by reflexivity.
  rewrite Hs. cbn [negb orb].
  destruct (validateOptional_typed rev data "recommendedCorequisites"
              "recommended corequisites" (ret valid) rco Hrco) as [m4 ->].
  destruct (validateOptional_typed rev data "recommendedPrerequisites"
              "recommended prerequisites"
              (if wellFormedOption rco then ret valid else Normal (invalid m4))
              rpre Hrpre) as [m3 ->].
  destruct (validateOptional_typed rev data "corequisites" "corequisites"
              (if wellFormedOption rpre
               then if wellFormedOption rco then ret valid
                    else Normal (invalid m4)
               else Normal (invalid m3)) co Hco) as [m2 ->].
  destruct (validateOptional_typed rev data "prerequisites" "prerequisites"
              (if wellFormedOption co
               then if wellFormedOption rpre
                    then if wellFormedOption rco then ret valid
                         else Normal (invalid m4)
                    else Normal (invalid m3)
               else Normal (invalid m2)) pre Hpre) as [m1 ->].
  destruct (wellFormedOption pre), (wellFormedOption co),
    (wellFormedOption rpre), (wellFormedOption rco); reflexivity.
Qed.

(* ================================================================== *)
(** ** Schema validator: the two copies *)

Lemma valid_record (r : ValidationResult) :
  wellFormedResult r -> isValid r = true -> r = valid.
Proof.
  intros [[_ Herr]|[Hbad _]] Hok; [|congruence].
  destruct r as [flag err]. simpl in *. now subst.
Qed.

(** A loop that ends with the valid record met no failing child and fell
    through to what follows it. *)
Lemma forChildren_valid (self : JsValue -> completion ValidationResult)
    (cs : list JsValue) :
  forall i after,
    forChildren self i cs after = Normal valid ->
    (forall c, In c cs -> exists r, self c = Normal r /\ isValid r = true) /\
    after = Normal valid.
Proof.
  induction cs as [|c cs IH]; intros i after H; simpl in H.
  - split; [intros c []|assumption].
  - destruct (self c) as [r|e] eqn:Hc; cbn [bind] in H; [|discriminate].
    destruct (isValid r) eqn:Hr; cbn [negb] in H; [|discriminate].
    destruct (IH _ _ H) as [Hall Hafter]. split; [|assumption].
    intros c' [<-|Hin]; eauto.
Qed.

Lemma forChildren_passes (self : JsValue -> completion ValidationResult)
    (cs : list JsValue) :
  (forall c, In c cs -> exists r, self c = Normal r /\ isValid r = true) ->
  forall i after, forChildren self i cs after = after.
Proof.
  induction cs as [|c cs IH]; intros Hall i after; simpl; [reflexivity|].
  destruct (Hall c (or_introl eq_refl)) as [r [-> Hr]]. cbn [bind].
  rewrite Hr. cbn [negb]. apply IH. intros c' Hc'. apply Hall. now right.
Qed.

Lemma checkLevel_same (rev1 rev2 : Revision) (level : JsValue) :
  checkLevel rev1 level = None -> checkLevel rev2 level = None.
Proof.
  unfold checkLevel.
  destruct (negb (isUndefined level)); [|reflexivity].
  destruct (typeof level =? "string").
  - destruct (negb (includes validLevels level)); [discriminate|reflexivity].
  - destruct level; try discriminate.
    destruct (negb (forallb _ elements)); [discriminate|reflexivity].
Qed.

Lemma validateCountOptions_stricter (req : JsValue) :
  validateCountOptions utilities_copy req = Normal valid ->
  validateCountOptions utilities_ts req = Normal valid.
Proof.
  unfold validateCountOptions.
  destruct (getProp req "department") as [d|]; cbn [bind]; [|discriminate].
  destruct (checkDepartment d); [discriminate|].
  destruct (getProp req "level") as [l|]; cbn [bind]; [|discriminate].
  destruct (checkLevel utilities_copy l) eqn:Hl; [discriminate|].
  now rewrite (checkLevel_same _ utilities_ts l Hl).
Qed.

Lemma validateRequirementsBody_stricter
    (selfCopy selfTs : JsValue -> completion ValidationResult) (req : JsValue) :
  (forall c, In c (childrenOf req) -> returnsRecord (selfCopy c)) ->
  (forall c, In c (childrenOf req) ->
     selfCopy c = Normal valid -> selfTs c = Normal valid) ->
  validateRequirementsBody utilities_copy selfCopy req = Normal valid ->
  validateRequirementsBody utilities_ts selfTs req = Normal valid.
Proof.
  intros Hwf Hself. unfold validateRequirementsBody.
  destruct (negb (truthy req) || negb (typeof req =? "object")); [auto|].
  destruct (getProp req "type") as [type|]; cbn [bind]; [|discriminate].
  destruct (negb (truthy type) || negb (typeof type =? "string")); [auto|].
  destruct type as [| | | |t| |]; auto.
  destruct (t =? "group").
  { unfold validateRequirementGroup.
    destruct (getProp req "logic") as [logic|]; cbn [bind]; [|discriminate].
    destruct (negb (truthy logic) || _); [auto|].
    destruct (getProp req "children") as [children|] eqn:Hchildren;
      cbn [bind]; [|discriminate].
    destruct children as [| | | | |cs|]; auto.
    destruct (List.length cs =? 0)%nat; [auto|].
    intros Hcopy. apply forChildren_valid in Hcopy.
    destruct Hcopy as [Hall _].
    assert (Hcs : childrenOf req = cs).
    { destruct req; simpl in Hchildren; try discriminate.
      injection Hchildren as Hc. simpl. now rewrite Hc. }
    rewrite Hcs in *.
    rewrite forChildren_passes; [reflexivity|].
    intros c Hc. destruct (Hall c Hc) as [r [Hr Hok]].
    destruct (Hwf c Hc) as [r' [Hr' Hrec]].
    rewrite Hr in Hr'. injection Hr' as <-.
    exists valid. split; [|reflexivity].
    apply Hself; [assumption|]. now rewrite Hr, (valid_record r Hrec Hok). }
  destruct (t =? "course"); [auto|].
  destruct (t =? "credit_count").
  { unfold validateRequirementCreditCount.
    destruct (getProp req "credits") as [n|]; cbn [bind]; [|discriminate].
    destruct (negb (truthy n) || _ || _); [auto|].
    apply validateCountOptions_stricter. }
  destruct (t =? "course_count").
  { unfold validateRequirementCourseCount.
    destruct (getProp req "count") as [n|]; cbn [bind]; [|discriminate].
    destruct (negb (truthy n) || _ || _); [auto|].
    apply validateCountOptions_stricter. }
  auto.
Qed.

Lemma validateRequirements_stricter (req : JsValue) :
  validateRequirements utilities_copy req = Normal valid ->
  validateRequirements utilities_ts req = Normal valid.
Proof.
  remember (nesting req) as n eqn:Hn.
  assert (Hle : nesting req <= n) by lia. clear Hn. revert req Hle.
  induction n as [n IH] using lt_wf_ind. intros req Hle.
  rewrite !validateRequirements_eq.
  apply validateRequirementsBody_stricter.
  - intros c _. apply validateRequirements_returns.
  - intros c Hc. pose proof (nesting_child req c Hc).
    apply (IH (nesting c)); lia.
Qed.

Lemma validateOptional_stricter (data : JsValue) (field label : string)
    (nextCopy nextTs : completion ValidationResult) :
  (nextCopy = Normal valid -> nextTs = Normal valid) ->
  validateOptional utilities_copy data field label nextCopy = Normal valid ->
  validateOptional utilities_ts data field label nextTs = Normal valid.
Proof.
  intros Hnext. unfold validateOptional.
  destruct (getProp data field) as [f|]; cbn [bind]; [|discriminate].
  destruct (truthy f); [|assumption].
  destruct (validateRequirements_returns utilities_copy f) as [r [Hr Hrec]].
  rewrite Hr. cbn [bind].
  destruct (isValid r) eqn:Hok; cbn [negb]; [|discriminate].
  intros Hcopy.
  rewrite (validateRequirements_stricter f)
    by now rewrite Hr, (valid_record r Hrec Hok).
  cbn [bind isValid valid negb]. auto.
Qed.

(** X13.  The second copy of the validator is the stricter one: a
    requirement it accepts is accepted by [source/utilities.ts], and so is a
    record; the converse fails, on a group whose [recommended] field is the
    boolean [true]. *)
Theorem X13_copy_is_stricter :
  (forall req : JsValue,
      validateRequirements utilities_copy req = Normal valid ->
      validateRequirements utilities_ts req = Normal valid) /\
  (forall data : JsValue,
      isValid (validateParsedRequirements utilities_copy data) = true ->
      isValid (validateParsedRequirements utilities_ts data) = true) /\
  (validateRequirements utilities_ts recommendedGroup = Normal valid /\
   validateRequirements utilities_copy recommendedGroup =
   Normal (invalid ("recommended field must be " ++ quote ++ "true" ++ quote
                    ++ " if present"))).
Proof.
  split; [exact validateRequirements_stricter|]. split; [|split; reflexivity].
  intros data Hcopy.
  destruct (validateParsedRequirementsTry_returns utilities_copy data)
    as [r [Hr Hrec]].
  unfold validateParsedRequirements in *. rewrite Hr in Hcopy. simpl in Hcopy.
  rewrite (valid_record r Hrec Hcopy) in Hr. clear Hcopy Hrec r.
  assert (Hts : validateParsedRequirementsTry utilities_ts data = Normal valid).
  { revert Hr. unfold validateParsedRequirementsTry.
    destruct (negb (truthy data) || negb (typeof data =? "object")); [auto|].
    destruct (getProp data "department") as [d|]; cbn [bind]; [|discriminate].
    destruct (negb (truthy d) || negb (typeof d =? "string")); [auto|].
    destruct (getProp data "code") as [c|]; cbn [bind]; [|discriminate].
    destruct (negb (truthy c) || negb (typeof c =? "string")); [auto|].
    repeat apply validateOptional_stricter. auto. }
  now rewrite Hts.
Qed.


(* ================================================================== *)
(** ** Schema validator: values that are no requirement, and field order *)

Lemma unknown_type_dispatch (t : string) :
  ~ In t knownTypes ->
  (t =? "group") = false /\ (t =? "course") = false /\
  (t =? "credit_count") = false /\ (t =? "course_count") = false /\
  (t =? "standing") = false /\ (t =? "program") = false /\
  (t =? "permission") = false /\ (t =? "other") = false.
Proof.
  intros Hnot. repeat split; apply String.eqb_neq; intros ->; apply Hnot;
    simpl; tauto.
Qed.

(** X14.  What is no requirement: [undefined], [null], a boolean, a number
    and a string are rejected as not being an object; an array is rejected
    for its type field, whatever it holds; and an object whose type is a
    non-empty string other than the eight discriminants (which are case
    sensitive) is rejected with a message that names that string. *)
Theorem X14_not_a_requirement :
  forall rev : Revision,
    (forall req : JsValue,
        match req with JArray _ | JObject _ => False | _ => True end ->
        validateRequirements rev req =
        Normal (invalid "Requirement must be an object")) /\
    (forall elements : list JsValue,
        validateRequirements rev (JArray elements) =
        Normal (invalid "Requirement must have a valid type field")) /\
    (forall (props : list (string * JsValue)) (t : string),
        lookup "type" props = JString t ->
        t <> EmptyString -> ~ In t knownTypes ->
        validateRequirements rev (JObject props) =
        Normal (invalid ("Unknown requirement type: " ++ t))) /\
    validateRequirements rev (JObject [("type", JString "Course");
                                       ("course", JString "CPSC 110")]) =
    Normal (invalid "Unknown requirement type: Course").
Proof.
  intros rev. split; [|split; [|split]].
  - intros req Hreq. rewrite validateRequirements_eq.
    destruct req as [| |b| |s| |]; try contradiction; try reflexivity.
    + unfold validateRequirementsBody. simpl. now destruct b.
    + unfold validateRequirementsBody. simpl. destruct n as [q| | |]; simpl;
        try reflexivity. now destruct (Qeq_bool q 0).
    + unfold validateRequirementsBody. simpl.
      now destruct (s =? EmptyString).
  - intros elements. now rewrite validateRequirements_eq.
  - intros props t Htype Hne Hnot. rewrite validateRequirements_eq.
    unfold validateRequirementsBody. cbn [getProp bind truthy typeof].
    rewrite Htype. cbn [truthy typeof].
    rewrite (eqb_empty_false t Hne).
    destruct (unknown_type_dispatch t Hnot)
      as (-> & -> & -> & -> & -> & -> & -> & ->).
    reflexivity.
  - reflexivity.
Qed.

Lemma validateOptional_passes rev (props : list (string * JsValue))
    (field label : string) (next : completion ValidationResult) :
  passes rev (lookup field props) ->
  validateOptional rev (JObject props) field label next = next.
Proof.
  unfold validateOptional. cbn [getProp bind]. intros [Hfalsy|Hvalid].
  - now rewrite Hfalsy.
  - destruct (truthy (lookup field props)); [|reflexivity].
    now rewrite Hvalid.
Qed.

Lemma validateOptional_fails rev (props : list (string * JsValue))
    (field label : string) (next : completion ValidationResult)
    (r : ValidationResult) :
  truthy (lookup field props) = true ->
  validateRequirements rev (lookup field props) = Normal r ->
  isValid r = false ->
  validateOptional rev (JObject props) field label next =
  Normal (invalid ("Invalid " ++ label ++ ": " ++ errorText r)).
Proof.
  unfold validateOptional. cbn [getProp bind]. intros -> -> Hbad.
  cbn [bind]. now rewrite Hbad.
Qed.

Lemma record_with_identity rev (props : list (string * JsValue)) :
  hasIdentity props ->
  validateParsedRequirements rev (JObject props) =
  catchValidation
    (validateOptional rev (JObject props) "prerequisites" "prerequisites"
       (validateOptional rev (JObject props) "corequisites" "corequisites"
          (validateOptional rev (JObject props) "recommendedPrerequisites"
             "recommended prerequisites"
             (validateOptional rev (JObject props) "recommendedCorequisites"
                "recommended corequisites" (ret valid))))).
Proof.
  intros [[d [Hd Hdne]] [c [Hc Hcne]]].
  unfold validateParsedRequirements, validateParsedRequirementsTry.
  cbn [getProp bind truthy typeof]. rewrite Hd, Hc. cbn [truthy typeof].
  rewrite (eqb_empty_false d Hdne), (eqb_empty_false c Hcne). reflexivity.
Qed.

(** X15.  On a record with a department and a code, the optional fields
    are validated in a fixed order (prerequisites, corequisites, recommended
    prerequisites, recommended corequisites); a field that is falsy ([null],
    [false], 0, the empty string) is skipped like an absent one; the first
    field that holds a rejected requirement decides the answer, "Invalid
    <label>: <its reason>", whatever the later fields hold; and when no
    field stops the validation the record is accepted. *)
Theorem X15_optional_fields_in_order :
  forall (rev : Revision) (props : list (string * JsValue)),
    hasIdentity props ->
    (forall (i : nat) (field label : string) (r : ValidationResult),
        nth_error optionalFields i = Some (field, label) ->
        (forall j f l, j < i -> nth_error optionalFields j = Some (f, l) ->
           passes rev (lookup f props)) ->
        truthy (lookup field props) = true ->
        validateRequirements rev (lookup field props) = Normal r ->
        isValid r = false ->
        validateParsedRequirements rev (JObject props) =
        invalid ("Invalid " ++ label ++ ": " ++ errorText r)) /\
    ((forall f l, In (f, l) optionalFields -> passes rev (lookup f props)) ->
     validateParsedRequirements rev (JObject props) = valid).
Proof.
  intros rev props Hid. rewrite (record_with_identity rev props Hid). split.
  - intros i field label r Hnth Hbefore Htruthy Hr Hbad.
    assert (Hpass : forall j f l, j < i ->
               nth_error optionalFields j = Some (f, l) ->
               forall next,
                 validateOptional rev (JObject props) f l next = next).
    { intros j f l Hj Hjth next. apply validateOptional_passes.
      exact (Hbefore j f l Hj Hjth). }
    destruct i as [|[|[|[|i]]]]; simpl in Hnth;
      try (injection Hnth as <- <-);
      try (destruct i; discriminate Hnth).
    + now rewrite (validateOptional_fails rev props _ _ _ r Htruthy Hr Hbad).
    + rewrite (Hpass 0 _ _ (Nat.lt_0_succ _) eq_refl).
      now rewrite (validateOptional_fails rev props _ _ _ r Htruthy Hr Hbad).
    + rewrite (Hpass 0 _ _ (Nat.lt_0_succ _) eq_refl).
      rewrite (Hpass 1 "corequisites" "corequisites") by (lia || reflexivity).
      now rewrite (validateOptional_fails rev props _ _ _ r Htruthy Hr Hbad).
    + rewrite (Hpass 0 _ _ (Nat.lt_0_succ _) eq_refl).
      rewrite (Hpass 1 "corequisites" "corequisites") by (lia || reflexivity).
      rewrite (Hpass 2 "recommendedPrerequisites" "recommended prerequisites")
        by (lia || reflexivity).
      now rewrite (validateOptional_fails rev props _ _ _ r Htruthy Hr Hbad).
  - intros Hall.
    rewrite !validateOptional_passes; [reflexivity| | | |];
      eapply Hall; simpl; eauto 6.
Qed.

(** X15 at a record whose prerequisites are [null] and whose corequisites
    are a group without children. *)
Lemma X15_optional_fields_in_order_witness :
  validateParsedRequirements utilities_ts
    (JObject [("department", JString "CPSC"); ("code", JString "213");
              ("prerequisites", JNull);
              ("corequisites", toJs (RequirementGroup ALL_OF []))]) =
  invalid "Invalid corequisites: Group must have at least one child".
Proof.
  assert (Hid : hasIdentity
                  [("department", JString "CPSC"); ("code", JString "213");
                   ("prerequisites", JNull);
                   ("corequisites", toJs (RequirementGroup ALL_OF []))]).
  { split; eexists; (split; [reflexivity|discriminate]). }
  refine (proj1 (X15_optional_fields_in_order utilities_ts _ Hid)
            1 "corequisites" "corequisites"
            (invalid "Group must have at least one child")
            eq_refl _ eq_refl eq_refl eq_refl).
  intros j f l Hj Hnth. destruct j as [|j]; [|lia].
  injection Hnth as <- <-. left. reflexivity.
Defined.


(* ================================================================== *)
(** ** Statistics: nesting depth and type counts *)

Lemma maxOf_from (l : list depthValue) :
  forall a,
    fold_left maxValue l a = MinusInfinity <->
    a = MinusInfinity /\ Forall (fun v => v = MinusInfinity) l.
Proof.
  induction l as [|v l IH]; intros a; simpl.
  - split; [auto|tauto].
  - rewrite IH. split.
    + intros [Hmax Hall]. destruct a, v; simpl in Hmax; try discriminate.
      auto.
    + intros [-> Hall]. inversion Hall; subst. auto.
Qed.

Lemma maxOf_levels (l : list Requirements) :
  Forall (fun c => getRequirementDepth c = Levels (height c)) l ->
  forall a,
    fold_left maxValue (map getRequirementDepth l) (Levels a) =
    Levels (fold_left Nat.max (map height l) a).
Proof.
  induction 1 as [|c l Hc _ IH]; intros a; simpl; [reflexivity|].
  rewrite Hc. simpl. apply IH.
Qed.

Lemma depth_hollow (r : Requirements) :
  getRequirementDepth r = MinusInfinity <-> hollow r = true.
Proof.
  induction r as [logic children IH|r Hr] using Requirements_nested_ind.
  - simpl. unfold maxOf.
    destruct (fold_left maxValue (map getRequirementDepth children) MinusInfinity)
      as [|n] eqn:Hmax; simpl.
    + apply maxOf_from in Hmax. destruct Hmax as [_ Hall].
      split; [intros _|reflexivity].
      apply forallb_forall. intros c Hc. rewrite Forall_forall in IH, Hall.
      apply IH; [assumption|]. apply Hall. now apply in_map.
    + split; [discriminate|]. intros Hhollow. exfalso.
      assert (Hinf : fold_left maxValue (map getRequirementDepth children)
                       MinusInfinity = MinusInfinity).
      { apply maxOf_from. split; [reflexivity|].
        rewrite Forall_forall. intros v Hv. apply in_map_iff in Hv.
        destruct Hv as [c [<- Hc]]. rewrite Forall_forall in IH.
        apply IH; [assumption|].
        rewrite forallb_forall in Hhollow. now apply Hhollow. }
      congruence.
  - destruct r; try discriminate Hr; simpl; split; discriminate.
Qed.

Lemma depth_height (r : Requirements) :
  noEmptyGroup r = true -> getRequirementDepth r = Levels (height r).
Proof.
  induction r as [logic children IH|r Hr] using Requirements_nested_ind.
  - intros Hne. simpl in Hne. apply andb_true_iff in Hne.
    destruct Hne as [Hlen Hall].
    assert (Hchildren : Forall (fun c => getRequirementDepth c = Levels (height c))
                          children).
    { rewrite Forall_forall in *. rewrite forallb_forall in Hall. auto. }
    destruct children as [|c cs]; [discriminate Hlen|].
    inversion Hchildren as [|? ? Hc Hcs]; subst.
    simpl. unfold maxOf. simpl. rewrite Hc. simpl.
    now rewrite (maxOf_levels cs Hcs).
  - intros _. destruct r; try discriminate Hr; reflexivity.
Qed.

Lemma wellFormed_noEmptyGroup (r : Requirements) :
  wellFormed r = true -> noEmptyGroup r = true.
Proof.
  induction r as [logic children IH|r Hr] using Requirements_nested_ind.
  - simpl. rewrite !andb_true_iff, !forallb_forall. intros [Hlen Hall].
    split; [assumption|]. rewrite Forall_forall in IH. auto.
  - intros _. destruct r; try discriminate Hr; reflexivity.
Qed.

(** X16.  [getRequirementDepth] is -Infinity exactly on a group all of
    whose children are groups of that kind, the group without children
    first of all; on a tree without an empty group it is the number of
    nodes on the longest path from the root to a leaf; and every tree the
    validator accepts is such a tree. *)
Theorem X16_requirement_depth :
  forall r : Requirements,
    (getRequirementDepth r = MinusInfinity <-> hollow r = true) /\
    (noEmptyGroup r = true ->
     getRequirementDepth r = Levels (height r) /\ 1 <= height r) /\
    (forall rev, validateRequirements rev (toJs r) = Normal valid ->
       getRequirementDepth r = Levels (height r)).
Proof.
  intros r. split; [apply depth_hollow|]. split.
  - intros Hne. split; [now apply depth_height|].
    destruct r; simpl; lia.
  - intros rev Hvalid. apply depth_height, wellFormed_noEmptyGroup.
    destruct (typed_answers rev r) as [res [Hres Hflag]].
    rewrite Hres in Hvalid. injection Hvalid as ->. now rewrite <- Hflag.
Qed.

Lemma count_one_more (t k : string) (counts : Map nat) :
  getOrZero k (map_set t (getOrZero t counts + 1) counts) =
  getOrZero k counts + (if t =? k then 1 else 0).
Proof.
  destruct (String.eqb_spec t k) as [->|Hne].
  - now rewrite getOrZero_set_same.
  - rewrite getOrZero_set_other by assumption. lia.
Qed.

Lemma count_children (k : string) (children : list Requirements) :
  Forall (fun c => forall counts,
            getOrZero k (analyzeRequirementTypes c counts) =
            getOrZero k counts + countType k c) children ->
  forall counts,
    getOrZero k (fold_left (fun counts child => analyzeRequirementTypes child counts)
                   children counts) =
    getOrZero k counts + list_sum (map (countType k) children).
Proof.
  induction 1 as [|c cs Hc _ IH]; intros counts; simpl; [lia|].
  rewrite IH, Hc. lia.
Qed.

Lemma analyze_counts (k : string) (r : Requirements) :
  forall counts,
    getOrZero k (analyzeRequirementTypes r counts) =
    getOrZero k counts + countType k r.
Proof.
  induction r as [logic children IH|r Hr] using Requirements_nested_ind;
    intros counts.
  - cbn [analyzeRequirementTypes countType].
    rewrite (count_children k children IH), count_one_more. lia.
  - destruct r; try discriminate Hr;
      cbn [analyzeRequirementTypes countType]; rewrite count_one_more; lia.
Qed.

Lemma count_course_leaves (r : Requirements) :
  countType "course" r = List.length (courseLeaves r).
Proof.
  induction r as [logic children IH|r Hr] using Requirements_nested_ind.
  - cbn [countType courseLeaves typeName]. rewrite length_flat_map.
    change ("group" =? "course") with false. cbn [Nat.add].
    f_equal. apply map_ext_Forall. exact IH.
  - destruct r; try discriminate Hr; reflexivity.
Qed.

(** X17.  [analyzeRequirementTypes] raises the counter of each type by the
    number of nodes of that type in the tree and leaves every other
    counter as it was; so the counter of courses grows by the number of
    pairs the extractor of the exporter emits for the same tree. *)
Theorem X17_type_counts :
  forall (r : Requirements) (counts : Map nat),
    (forall k, getOrZero k (analyzeRequirementTypes r counts) =
               getOrZero k counts + countType k r) /\
    (forall k, (forall c, In c [ "group"; "course"; "credit_count"; "course_count";
                                 "standing"; "program"; "permission"; "other" ] ->
                          k <> c) ->
               getOrZero k (analyzeRequirementTypes r counts) = getOrZero k counts) /\
    (forall w, getOrZero "course" (analyzeRequirementTypes r counts) =
               getOrZero "course" counts +
               List.length (extractCourseRequirementsWithValues r w)).
Proof.
  intros r counts. split; [intros k; apply analyze_counts|]. split.
  - intros k Hother. rewrite analyze_counts.
    assert (Hzero : countType k r = 0); [|lia].
    induction r as [logic children IH|r Hr] using Requirements_nested_ind.
    + cbn [countType typeName].
      destruct (String.eqb_spec "group" k) as [<-|_].
      * exfalso. apply (Hother "group"); simpl; auto.
      * simpl. induction IH as [|c cs Hc _ IHcs]; simpl; [reflexivity|].
        now rewrite Hc, IHcs.
    + destruct r; try discriminate Hr; cbn [countType typeName];
        match goal with
        | |- context [?t =? k] =>
            destruct (String.eqb_spec t k) as [<-|_];
            [exfalso; apply (Hother t); simpl; tauto|reflexivity]
        end.
  - intros w. rewrite analyze_counts, count_course_leaves.
    now rewrite <- (extract_leaves r w), length_map.
Qed.


(* ================================================================== *)
(** ** Statistics: the class of a validator message *)

Lemma includes_after_digits (u : Decimal.uint) (rest k : string) :
  In k keywords ->
  includesText (NilEmpty.string_of_uint u ++ rest) k = includesText rest k.
Proof.
  intros Hk. induction u; try exact IHu;
    cbn [NilEmpty.string_of_uint append]; try reflexivity;
    simpl in Hk;
    repeat (destruct Hk as [<-|Hk]; [cbn [includesText]; exact IHu|]);
    contradiction.
Qed.

Lemma child_message_includes (i : nat) (e k : string) :
  In k keywords ->
  includesText ("Invalid child at index " ++ indexText i ++ ": " ++ e) k =
  includesText e k.
Proof.
  intros Hk. unfold indexText. simpl in Hk.
  repeat (destruct Hk as [<-|Hk];
          [cbn; rewrite includes_after_digits by (simpl; tauto); reflexivity|]).
  contradiction.
Qed.

Lemma child_message_quiet (i : nat) (e : string) :
  quiet ("Invalid child at index " ++ indexText i ++ ": " ++ e) = quiet e.
Proof.
  unfold quiet, keywords. cbn [forallb].
  now rewrite !child_message_includes by (simpl; tauto).
Qed.

Ltac quietly := try (eexists; split; reflexivity).

Lemma course_quiet rev c g can must :
  answersQuietly
    (validateRequirements rev (toJs (RequirementCourse c g can must))).
Proof.
  unfold answersQuietly. rewrite validateRequirements_eq.
  unfold validateRequirementsBody, validateRequirementCourse.
  destruct g as [n|], can as [can|], must as [must|];
    cbn -[num_ltb quiet]; destruct (c =? EmptyString);
    cbn -[num_ltb quiet]; quietly;
    unfold badMinGrade, ltNumber, gtNumber; cbn -[num_ltb quiet];
    destruct (num_ltb n (num_of_Z 0)), (num_ltb (num_of_Z 100) n);
    cbn -[quiet]; quietly.
Qed.

Ltac count_quiet rev n :=
  cbn -[num_ltb num_leb truthy checkDepartment checkLevel oneOrManyToJs
        badMinGrade quiet];
  unfold leNumber;
  destruct (truthy (JNumber n));
  cbn -[num_ltb num_leb checkDepartment checkLevel oneOrManyToJs badMinGrade
        quiet];
  quietly;
  destruct (num_leb n (num_of_Z 0));
  cbn -[num_ltb num_leb checkDepartment checkLevel oneOrManyToJs badMinGrade
        quiet];
  quietly;
  rewrite ?checkDepartment_typed, ?checkLevel_typed;
  try change (checkDepartment JUndefined) with (@None string);
  try change (checkLevel rev JUndefined) with (@None string);
  cbn -[num_ltb quiet]; unfold badMinGrade, ltNumber, gtNumber;
  cbn -[num_ltb quiet];
  quietly;
  split_grade; cbn -[quiet]; quietly.

Lemma creditCount_quiet rev n d l g :
  answersQuietly
    (validateRequirements rev (toJs (RequirementCreditCount n d l g))).
Proof.
  unfold answersQuietly. rewrite validateRequirements_eq.
  unfold validateRequirementsBody, validateRequirementCreditCount,
    validateCountOptions.
  destruct d as [d|], l as [l|], g as [g|]; count_quiet rev n.
Qed.

Lemma courseCount_quiet rev n d l g :
  answersQuietly
    (validateRequirements rev (toJs (RequirementCourseCount n d l g))).
Proof.
  unfold answersQuietly. rewrite validateRequirements_eq.
  unfold validateRequirementsBody, validateRequirementCourseCount,
    validateCountOptions.
  destruct d as [d|], l as [l|], g as [g|]; count_quiet rev n.
Qed.

Lemma text_quiet rev (r : Requirements) :
  isGroup r = false -> answersQuietly (validateRequirements rev (toJs r)).
Proof.
  destruct r as [| c g can must | n d l g | n d l g | s | p | n | n];
    intros Hr; try discriminate Hr.
  - apply course_quiet.
  - apply creditCount_quiet.
  - apply courseCount_quiet.
  - unfold answersQuietly. rewrite validateRequirements_eq. destruct s; quietly.
  - unfold answersQuietly. rewrite validateRequirements_eq.
    unfold validateRequirementsBody, validateRequirementProgram. cbn -[quiet].
    destruct (p =? EmptyString); cbn -[quiet]; quietly.
  - unfold answersQuietly. rewrite validateRequirements_eq.
    unfold validateRequirementsBody, validateRequirementPermission. cbn -[quiet].
    destruct (n =? EmptyString); cbn -[quiet]; quietly.
  - unfold answersQuietly. rewrite validateRequirements_eq.
    unfold validateRequirementsBody, validateRequirementOther. cbn -[quiet].
    destruct (n =? EmptyString); cbn -[quiet]; quietly.
Qed.

Lemma forChildren_quiet (self : JsValue -> completion ValidationResult)
    (cs : list Requirements) :
  Forall (fun c => answersQuietly (self (toJs c))) cs ->
  forall i, answersQuietly (forChildren self i (map toJs cs) (Normal valid)).
Proof.
  induction 1 as [|c cs [res [Hres Hquiet]] _ IH]; intros i; simpl.
  - now exists valid.
  - rewrite Hres. cbn [bind].
    destruct (isValid res) eqn:Hflag; cbn [negb]; [apply IH|].
    eexists. split; [reflexivity|].
    change (quiet ("Invalid child at index " ++ indexText i ++ ": "
                   ++ errorText res) = true).
    rewrite child_message_quiet. exact Hquiet.
Qed.

Lemma typed_quiet rev (r : Requirements) :
  answersQuietly (validateRequirements rev (toJs r)).
Proof.
  induction r as [logic children IH|r Hr] using Requirements_nested_ind;
    [|now apply text_quiet].
  assert (Hlogic : includes groupLogics (JString (logicName logic)) = true)
    by now destruct logic.
  change (toJs (RequirementGroup logic children))
    with (JObject [("type", JString "group");
                   ("logic", JString (logicName logic));
                   ("children", JArray (map toJs children))]).
  rewrite (group_unfold rev
             [("type", JString "group"); ("logic", JString (logicName logic));
              ("children", JArray (map toJs children))]
             (map toJs children) eq_refl Hlogic eq_refl).
  rewrite length_map.
  destruct (List.length children =? 0)%nat.
  - eexists. split; reflexivity.
  - assert (Hafter : afterChildren rev
                       (JObject [("type", JString "group");
                                 ("logic", JString (logicName logic));
                                 ("children", JArray (map toJs children))])
                     = Normal valid) by now destruct rev.
    rewrite Hafter. now apply forChildren_quiet.
Qed.

Lemma label_includes (field label k e : string) :
  In (field, label) optionalFields -> In k keywords ->
  includesText ("Invalid " ++ label ++ ": " ++ e) k =
  includesText label k || includesText e k.
Proof.
  intros Hlabel Hk. simpl in Hlabel, Hk.
  repeat (destruct Hlabel as [[= <- <-]|Hlabel];
          [repeat (destruct Hk as [<-|Hk]; [reflexivity|]); contradiction|]).
  contradiction.
Qed.

Lemma class_of_label (field label e : string) :
  In (field, label) optionalFields ->
  extractErrorType ("Invalid " ++ label ++ ": " ++ e) =
  if includesText e "validation" then "Validation Error"
  else if includesText e "schema" then "Schema Error"
  else if includesText e "JSON" then "JSON Parse Error"
  else if includesText label "prerequisites" || includesText e "prerequisites"
       then "Prerequisites Error"
       else "Corequisites Error".
Proof.
  intros Hlabel. unfold extractErrorType.
  rewrite !(label_includes field label _ e Hlabel) by (simpl; tauto).
  simpl in Hlabel.
  repeat (destruct Hlabel as [[= <- <-]|Hlabel]; [reflexivity|]).
  contradiction.
Qed.

Lemma class_of_quiet (field label e : string) :
  In (field, label) optionalFields -> quiet e = true ->
  extractErrorType ("Invalid " ++ label ++ ": " ++ e) =
  if includesText label "prerequisites" then "Prerequisites Error"
  else "Corequisites Error".
Proof.
  intros Hlabel Hquiet. rewrite (class_of_label field label e Hlabel).
  unfold quiet, keywords in Hquiet. cbn [forallb] in Hquiet.
  rewrite !andb_true_iff, !negb_true_iff in Hquiet.
  destruct Hquiet as (-> & -> & -> & -> & _).
  now rewrite orb_false_r.
Qed.

Lemma validateOptional_class rev (data : JsValue) (field label : string)
    (next : completion ValidationResult) (tree : option Requirements) :
  In (field, label) optionalFields ->
  getProp data field =
    Normal match tree with Some r => toJs r | None => JUndefined end ->
  exists msg,
    validateOptional rev data field label next =
    (if wellFormedOption tree then next else Normal (invalid msg)) /\
    extractErrorType msg =
    if includesText label "prerequisites" then "Prerequisites Error"
    else "Corequisites Error".
Proof.
  intros Hlabel Hget. unfold validateOptional. rewrite Hget. cbn [bind].
  assert (Hnone : extractErrorType ("Invalid " ++ label ++ ": " ++ EmptyString) =
                  if includesText label "prerequisites" then "Prerequisites Error"
                  else "Corequisites Error")
    by now apply (class_of_quiet field).
  destruct tree as [r|]; simpl; [|eauto].
  rewrite truthy_toJs.
  destruct (typed_answers rev r) as [res [Hres Hflag]].
  destruct (typed_quiet rev r) as [res' [Hres' Hquiet]].
  rewrite Hres in Hres'. injection Hres' as <-.
  rewrite Hres. cbn [bind]. rewrite Hflag in *.
  destruct (wellFormed r); cbn [negb]; [eauto|].
  eexists. split; [reflexivity|]. now apply (class_of_quiet field).
Qed.

Lemma typed_record_class rev (p : CourseParsedRequirements) :
  isValid (validateParsedRequirements rev (parsedToJs p)) = false ->
  extractErrorType (errorText (validateParsedRequirements rev (parsedToJs p))) =
  errorClass p.
Proof.
  destruct p as [dept cd pre co rpre rco]. unfold errorClass.
  cbn [department code prerequisites corequisites recommendedPrerequisites
       recommendedCorequisites].
  set (data := parsedToJs _).
  assert (Hpre : getProp data "prerequisites" =
                 Normal match pre with Some r => toJs r | None => JUndefined end)
    by (destruct pre, co, rpre, rco; reflexivity).
  assert (Hco : getProp data "corequisites" =
                Normal match co with Some r => toJs r | None => JUndefined end)
    by (destruct pre, co, rpre, rco; reflexivity).
  assert (Hrpre : getProp data "recommendedPrerequisites" =
                  Normal match rpre with Some r => toJs r | None => JUndefined end)
    by (destruct pre, co, rpre, rco; reflexivity).
  assert (Hrco : getProp data "recommendedCorequisites" =
                 Normal match rco with Some r => toJs r | None => JUndefined end)
    by (destruct pre, co, rpre, rco; reflexivity).
  assert (Hdept : getProp data "department" = Normal (JString dept)) by reflexivity.
  assert (Hcode : getProp data "code" = Normal (JString cd)) by reflexivity.
  assert (Hobj : negb (truthy data) || negb (typeof data =? "object") = false)
    by reflexivity.
  unfold validateParsedRequirements, validateParsedRequirementsTry.
  rewrite Hobj, Hdept. cbn [bind truthy typeof]. unfold nonEmpty.
  destruct (dept =? EmptyString); [reflexivity|].
  rewrite Hcode. cbn [bind truthy typeof].
  destruct (cd =? EmptyString); [reflexivity|].
  assert (Hs : ("string" =? "string") = true) by reflexivity.
  rewrite Hs. cbn [negb orb].
  destruct (validateOptional_class rev data "recommendedCorequisites"
              "recommended corequisites" (ret valid) rco
              ltac:(simpl; tauto) Hrco) as [m4 [-> H4]].
  destruct (validateOptional_class rev data "recommendedPrerequisites"
              "recommended prerequisites"
              (if wellFormedOption rco then ret valid else Normal (invalid m4))
              rpre ltac:(simpl; tauto) Hrpre) as [m3 [-> H3]].
  destruct (validateOptional_class rev data "corequisites" "corequisites"
              (if wellFormedOption rpre
               then if wellFormedOption rco then ret valid
                    else Normal (invalid m4)
               else Normal (invalid m3)) co ltac:(simpl; tauto) Hco)
    as [m2 [-> H2]].
  destruct (validateOptional_class rev data "prerequisites" "prerequisites"
              (if wellFormedOption co
               then if wellFormedOption rpre
                    then if wellFormedOption rco then ret valid
                         else Normal (invalid m4)
                    else Normal (invalid m3)
               else Normal (invalid m2)) pre ltac:(simpl; tauto) Hpre)
    as [m1 [-> H1]].
  destruct (wellFormedOption pre), (wellFormedOption co),
    (wellFormedOption rpre), (wellFormedOption rco);
    cbn [catchValidation ret isValid invalid valid errorText error negb];
    intros Hbad; try discriminate Hbad; assumption.
Qed.

(** X18.  What the statistics make of a rejected typed record: its message
    is classed by the first thing that is wrong in it, a missing department
    or code as "Other Error", a rejected tree under prerequisites or
    recommended prerequisites as "Prerequisites Error", one under
    corequisites or recommended corequisites as "Corequisites Error"; no
    such record is counted as a validation, schema or JSON error. *)
Theorem X18_class_of_typed_record :
  forall (rev : Revision) (p : CourseParsedRequirements),
    isValid (validateParsedRequirements rev (parsedToJs p)) = false ->
    extractErrorType (errorText (validateParsedRequirements rev (parsedToJs p))) =
      errorClass p /\
    In (extractErrorType
          (errorText (validateParsedRequirements rev (parsedToJs p))))
       [ "Prerequisites Error"; "Corequisites Error"; "Other Error" ].
Proof.
  intros rev p Hbad. rewrite (typed_record_class rev p Hbad).
  split; [reflexivity|]. unfold errorClass.
  repeat match goal with
         | |- context [if ?b then _ else _] => destruct b
         end; simpl; tauto.
Qed.

Lemma X18_class_of_typed_record_witness :
  isValid
    (validateParsedRequirements utilities_ts
       (parsedToJs
          {| department := "CPSC"; code := "210";
             prerequisites := Some (courseNamed "CPSC 110");
             corequisites := None;
             recommendedPrerequisites := None;
             recommendedCorequisites := Some (RequirementGroup ALL_OF []) |}))
  = false /\
  extractErrorType
    (errorText
       (validateParsedRequirements utilities_ts
          (parsedToJs
             {| department := "CPSC"; code := "210";
                prerequisites := Some (courseNamed "CPSC 110");
                corequisites := None;
                recommendedPrerequisites := None;
                recommendedCorequisites := Some (RequirementGroup ALL_OF []) |})))
  = "Corequisites Error".
Proof.
  split; [reflexivity|].
  exact (proj1 (X18_class_of_typed_record utilities_ts
                  {| department := "CPSC"; code := "210";
                     prerequisites := Some (courseNamed "CPSC 110");
                     corequisites := None;
                     recommendedPrerequisites := None;
                     recommendedCorequisites :=
                       Some (RequirementGroup ALL_OF []) |} eq_refl)).
Defined.

(** X19.  The messages of [validateParsedRequirements] under
    [extractErrorType], whatever the reason [e] that follows the label: a
    message for one of the four optional fields is never "Other Error"; it
    is a validation, schema or JSON error only when the reason itself holds
    that word, a prerequisites error under prerequisites and recommended
    prerequisites, and under the two corequisites labels a corequisites
    error unless the reason holds the word prerequisites.  The message of
    the [catch] branch, "Validation error: ...", is classed by the text of
    the exception alone: its capital V is not the word looked for. *)
Theorem X19_class_of_message :
  forall e : string,
    extractErrorType ("Validation error: " ++ e) = extractErrorType e /\
    (forall field label, In (field, label) optionalFields ->
       extractErrorType ("Invalid " ++ label ++ ": " ++ e) <> "Other Error" /\
       extractErrorType ("Invalid " ++ label ++ ": " ++ e) =
       if includesText e "validation" then "Validation Error"
       else if includesText e "schema" then "Schema Error"
       else if includesText e "JSON" then "JSON Parse Error"
       else if includesText label "prerequisites"
               || includesText e "prerequisites"
            then "Prerequisites Error"
            else "Corequisites Error").
Proof.
  intros e. split; [reflexivity|]. intros field label Hlabel.
  rewrite (class_of_label field label e Hlabel). split; [|reflexivity].
  repeat match goal with
         | |- context [if ?b then _ else _] => destruct b
         end; discriminate.
Qed.


(* ================================================================== *)
(** ** Pretty printer: letter grades *)

Lemma Qle_bool_false (a b : Q) : Qle_bool a b = false -> (b < a)%Q.
Proof.
  intros H. apply Qnot_le_lt. intros Hle.
  apply Qle_bool_iff in Hle. congruence.
Qed.

Ltac cut_at t q :=
  let H := fresh "H" in
  destruct (Qle_bool (inject_Z t) q) eqn:H;
  [ apply Qle_bool_iff in H | apply Qle_bool_false in H ];
  unfold inject_Z in H.

Ltac settle_ranks :=
  cbn; unfold inject_Z; repeat split; intros; try lia; try lra.

Lemma gradeStr_ranks (q : Q) :
  (11 <= letterRank (gradeStr (Finite q)) <-> (85 <= q)%Q) /\
  (10 <= letterRank (gradeStr (Finite q)) <-> (80 <= q)%Q) /\
  (9 <= letterRank (gradeStr (Finite q)) <-> (77 <= q)%Q) /\
  (8 <= letterRank (gradeStr (Finite q)) <-> (73 <= q)%Q) /\
  (7 <= letterRank (gradeStr (Finite q)) <-> (70 <= q)%Q) /\
  (6 <= letterRank (gradeStr (Finite q)) <-> (67 <= q)%Q) /\
  (5 <= letterRank (gradeStr (Finite q)) <-> (64 <= q)%Q) /\
  (4 <= letterRank (gradeStr (Finite q)) <-> (60 <= q)%Q) /\
  (3 <= letterRank (gradeStr (Finite q)) <-> (57 <= q)%Q) /\
  (2 <= letterRank (gradeStr (Finite q)) <-> (53 <= q)%Q) /\
  (1 <= letterRank (gradeStr (Finite q)) <-> (50 <= q)%Q) /\
  letterRank (gradeStr (Finite q)) <= 11.
Proof.
  unfold gradeStr, geNumber, num_leb, num_of_Z.
  cut_at 85%Z q; [settle_ranks|].
  cut_at 80%Z q; [settle_ranks|].
  cut_at 77%Z q; [settle_ranks|].
  cut_at 73%Z q; [settle_ranks|].
  cut_at 70%Z q; [settle_ranks|].
  cut_at 67%Z q; [settle_ranks|].
  cut_at 64%Z q; [settle_ranks|].
  cut_at 60%Z q; [settle_ranks|].
  cut_at 57%Z q; [settle_ranks|].
  cut_at 53%Z q; [settle_ranks|].
  cut_at 50%Z q; settle_ranks.
Qed.

Ltac settle_ends :=
  cbn; unfold inject_Z; repeat split; intros;
  try reflexivity; try discriminate; try lra.

Lemma gradeStr_ends (q : Q) :
  (gradeStr (Finite q) = "A" <-> (85 <= q)%Q) /\
  (gradeStr (Finite q) = "F" <-> (q < 50)%Q).
Proof.
  unfold gradeStr, geNumber, num_leb, num_of_Z.
  cut_at 85%Z q; [settle_ends|].
  cut_at 80%Z q; [settle_ends|].
  cut_at 77%Z q; [settle_ends|].
  cut_at 73%Z q; [settle_ends|].
  cut_at 70%Z q; [settle_ends|].
  cut_at 67%Z q; [settle_ends|].
  cut_at 64%Z q; [settle_ends|].
  cut_at 60%Z q; [settle_ends|].
  cut_at 57%Z q; [settle_ends|].
  cut_at 53%Z q; [settle_ends|].
  cut_at 50%Z q; settle_ends.
Qed.

Lemma gradeStr_monotone (q1 q2 : Q) :
  (q1 <= q2)%Q ->
  letterRank (gradeStr (Finite q1)) <= letterRank (gradeStr (Finite q2)).
Proof.
  intros Hle.
  destruct (gradeStr_ranks q1)
    as (A1 & B1 & C1 & D1 & E1 & F1 & G1 & H1 & I1 & J1 & K1 & L1).
  destruct (gradeStr_ranks q2)
    as (A2 & B2 & C2 & D2 & E2 & F2 & G2 & H2 & I2 & J2 & K2 & L2).
  assert (Hup : forall t : Q, (t <= q1)%Q -> (t <= q2)%Q)
    by (intros t Ht; lra).
  destruct (le_lt_dec 11 (letterRank (gradeStr (Finite q1)))) as [Hr|Hr];
    [apply A1, Hup, A2 in Hr; lia|].
  destruct (le_lt_dec 10 (letterRank (gradeStr (Finite q1)))) as [Hr'|Hr'];
    [apply B1, Hup, B2 in Hr'; lia|]. clear Hr.
  destruct (le_lt_dec 9 (letterRank (gradeStr (Finite q1)))) as [Hr|Hr];
    [apply C1, Hup, C2 in Hr; lia|]. clear Hr'.
  destruct (le_lt_dec 8 (letterRank (gradeStr (Finite q1)))) as [Hr'|Hr'];
    [apply D1, Hup, D2 in Hr'; lia|]. clear Hr.
  destruct (le_lt_dec 7 (letterRank (gradeStr (Finite q1)))) as [Hr|Hr];
    [apply E1, Hup, E2 in Hr; lia|]. clear Hr'.
  destruct (le_lt_dec 6 (letterRank (gradeStr (Finite q1)))) as [Hr'|Hr'];
    [apply F1, Hup, F2 in Hr'; lia|]. clear Hr.
  destruct (le_lt_dec 5 (letterRank (gradeStr (Finite q1)))) as [Hr|Hr];
    [apply G1, Hup, G2 in Hr; lia|]. clear Hr'.
  destruct (le_lt_dec 4 (letterRank (gradeStr (Finite q1)))) as [Hr'|Hr'];
    [apply H1, Hup, H2 in Hr'; lia|]. clear Hr.
  destruct (le_lt_dec 3 (letterRank (gradeStr (Finite q1)))) as [Hr|Hr];
    [apply I1, Hup, I2 in Hr; lia|]. clear Hr'.
  destruct (le_lt_dec 2 (letterRank (gradeStr (Finite q1)))) as [Hr'|Hr'];
    [apply J1, Hup, J2 in Hr'; lia|]. clear Hr.
  destruct (le_lt_dec 1 (letterRank (gradeStr (Finite q1)))) as [Hr|Hr];
    [apply K1, Hup, K2 in Hr; lia|]. lia.
Qed.

Lemma gradeSuffix_empty (q : Q) :
  gradeSuffix (Some (Finite q)) = EmptyString <-> (q == 0)%Q.
Proof.
  unfold gradeSuffix. cbn [truthy].
  destruct (Qeq_bool q 0) eqn:Hq; cbn [negb].
  - apply Qeq_bool_iff in Hq. tauto.
  - split; [discriminate|]. intros Hzero. apply Qeq_bool_iff in Hzero.
    congruence.
Qed.

(** X20.  The letter a minimum grade is printed with: a higher percentage
    never gets a lower letter; the letter is "A" exactly from 85 on and
    "F" exactly below 50, so a negative grade prints as "F"; the printer
    leaves the grade out exactly when it is 0, which is a grade the range
    check of the validator lets through. *)
Theorem X20_letter_grades :
  (forall q1 q2 : Q, (q1 <= q2)%Q ->
     letterRank (gradeStr (Finite q1)) <= letterRank (gradeStr (Finite q2))) /\
  (forall q : Q, (gradeStr (Finite q) = "A" <-> (85 <= q)%Q) /\
                 (gradeStr (Finite q) = "F" <-> (q < 50)%Q)) /\
  (forall q : Q, gradeSuffix (Some (Finite q)) = EmptyString <-> (q == 0)%Q) /\
  (forall q : Q, (q == 0)%Q -> gradeInRange (Some (Finite q)) = true).
Proof.
  split; [exact gradeStr_monotone|]. split; [exact gradeStr_ends|].
  split; [exact gradeSuffix_empty|].
  intros q Hq. unfold gradeInRange, num_ltb, num_of_Z, Qltb.
  assert (H0 : Qle_bool (inject_Z 0) q = true)
    by (apply Qle_bool_iff; unfold inject_Z; lra).
  assert (H100 : Qle_bool q (inject_Z 100) = true)
    by (apply Qle_bool_iff; unfold inject_Z; lra).
  now rewrite H0, H100.
Qed.


(* ================================================================== *)
(** ** Pretty printer: the outline of a tree *)

Lemma append_assoc (a b c : string) : (a ++ b) ++ c = a ++ b ++ c.
Proof. induction a as [|x a IH]; simpl; [reflexivity|now rewrite IH]. Qed.

Lemma append_empty_r (a : string) : a ++ EmptyString = a.
Proof. induction a as [|x a IH]; simpl; [reflexivity|now rewrite IH]. Qed.

Lemma append_not_empty (a : string) (c : ascii) (b : string) :
  a ++ String c b <> EmptyString.
Proof. destruct a; discriminate. Qed.

Lemma prefix_append (a b : string) : prefix a (a ++ b) = true.
Proof.
  induction a as [|x a IH]; simpl; [now destruct b|].
  destruct (ascii_dec x x) as [_|Hne]; [exact IH|now elim Hne].
Qed.

Lemma prefix_weaken (a s line : string) :
  prefix (a ++ s) line = true -> prefix a line = true.
Proof.
  revert line. induction a as [|x a IH]; intros line; [now destruct line|].
  destruct line as [|y line]; simpl; [discriminate|].
  destruct (ascii_dec x y); [apply IH|discriminate].
Qed.

Lemma repeatText_end (s : string) (n : nat) :
  repeatText s (n + 1) = repeatText s n ++ s.
Proof.
  induction n as [|n IH]; simpl.
  - apply append_empty_r.
  - now rewrite IH, append_assoc.
Qed.

Lemma joinText_cons (sep x : string) (l : list string) :
  l <> [] -> joinText sep (x :: l) = x ++ sep ++ joinText sep l.
Proof. destruct l; [congruence|reflexivity]. Qed.

Lemma joinText_app (sep : string) (l1 l2 : list string) :
  l1 <> [] -> l2 <> [] ->
  joinText sep (l1 ++ l2) = joinText sep l1 ++ sep ++ joinText sep l2.
Proof.
  intros H1 H2. induction l1 as [|x l1 IH]; [congruence|].
  destruct l1 as [|y l1].
  - simpl app. now rewrite joinText_cons.
  - change ((x :: y :: l1) ++ l2)%list with (x :: ((y :: l1) ++ l2))%list.
    rewrite joinText_cons by discriminate.
    rewrite IH by discriminate.
    rewrite (joinText_cons sep x (y :: l1)) by discriminate.
    now rewrite !append_assoc.
Qed.

Section Outline.

Variable numberText : number -> string.

Lemma outline_not_nil (r : Requirements) (indent : nat) :
  outline numberText r indent <> [].
Proof. destruct r; discriminate. Qed.

Lemma print_children (children : list Requirements) (indent : nat) :
  Forall (fun c => forall i,
            prettyPrintRequirements numberText c i =
            joinText newline (outline numberText c i)) children ->
  forall lines : list string,
    lines <> [] ->
    fold_left
      (fun result child =>
         result ++ newline ++ prettyPrintRequirements numberText child (indent + 1))
      children (joinText newline lines) =
    joinText newline
      (lines ++ flat_map (fun c => outline numberText c (indent + 1)) children).
Proof.
  induction 1 as [|c cs Hc _ IH]; intros lines Hlines;
    cbn [fold_left flat_map].
  - now rewrite app_nil_r.
  - rewrite Hc, <- joinText_app by (try apply outline_not_nil; assumption).
    rewrite IH by (intros Hnil; apply app_eq_nil in Hnil; tauto).
    now rewrite <- app_assoc.
Qed.

Lemma print_outline (r : Requirements) :
  forall indent,
    prettyPrintRequirements numberText r indent =
    joinText newline (outline numberText r indent).
Proof.
  induction r as [logic children IH|r Hr] using Requirements_nested_ind;
    intros indent.
  - cbn [prettyPrintRequirements outline].
    exact (print_children children indent IH
             [repeatText "  " indent ++ "Group (" ++ logicName logic ++ "):"]
             ltac:(discriminate)).
  - destruct r; try discriminate Hr; reflexivity.
Qed.

Lemma outline_length (r : Requirements) :
  forall indent, List.length (outline numberText r indent) = nodeCount r.
Proof.
  induction r as [logic children IH|r Hr] using Requirements_nested_ind;
    intros indent.
  - cbn [outline nodeCount List.length]. rewrite length_flat_map.
    change (1 + ?n) with (S n). do 2 f_equal. apply map_ext_Forall.
    revert IH. apply Forall_impl. intros c Hc. apply Hc.
  - destruct r; try discriminate Hr; reflexivity.
Qed.

Lemma outline_indented (r : Requirements) :
  forall indent,
    Forall (fun line => prefix (repeatText "  " indent) line = true)
      (outline numberText r indent).
Proof.
  induction r as [logic children IH|r Hr] using Requirements_nested_ind;
    intros indent.
  - cbn [outline]. constructor; [apply prefix_append|].
    rewrite Forall_forall. intros line Hline.
    apply in_flat_map in Hline. destruct Hline as [c [Hc Hline]].
    rewrite Forall_forall in IH. specialize (IH c Hc (indent + 1)).
    rewrite Forall_forall in IH. specialize (IH line Hline).
    rewrite repeatText_end in IH. now apply prefix_weaken in IH.
  - destruct r; try discriminate Hr; cbn [outline prettyPrintRequirements];
      constructor; try apply Forall_nil; apply prefix_append.
Qed.

Lemma joinText_filled (lines : list string) :
  startsFilled lines -> lines <> [] -> joinText newline lines <> EmptyString.
Proof.
  destruct lines as [|x lines]; [congruence|]. intros Hx _.
  destruct x as [|c x]; [now elim Hx|].
  destruct lines; discriminate.
Qed.

Lemma sectionLines_filled (lines : list string) (tree : option Requirements)
    (c : ascii) (header : string) (spacing : nat) :
  startsFilled lines ->
  startsFilled (lines ++ sectionLines numberText tree (String c header) spacing).
Proof.
  destruct lines as [|x lines]; [|trivial]. intros _.
  destruct tree as [r|]; cbn [sectionLines app startsFilled]; [|trivial].
  apply append_not_empty.
Qed.

Lemma printSection_lines (lines : list string) (tree : option Requirements)
    (c : ascii) (header : string) (spacing : nat) :
  startsFilled lines ->
  printSection numberText (joinText newline lines) tree (String c header) spacing
  = joinText newline
      (lines ++ sectionLines numberText tree (String c header) spacing).
Proof.
  intros Hfilled.
  destruct tree as [r|]; cbn [printSection sectionLines];
    [|now rewrite app_nil_r].
  rewrite print_outline.
  assert (Hsection :
            repeatText "  " spacing ++ String c header ++ newline
            ++ joinText newline (outline numberText r spacing) =
            joinText newline
              ((repeatText "  " spacing ++ String c header)
               :: outline numberText r spacing)).
  { rewrite joinText_cons by apply outline_not_nil.
    now rewrite append_assoc. }
  destruct lines as [|x lines].
  - cbn [joinText app]. change (EmptyString =? EmptyString) with true.
    cbn [negb]. exact Hsection.
  - rewrite eqb_empty_false by (apply joinText_filled; [assumption|discriminate]).
    rewrite joinText_app by discriminate.
    cbn [negb]. now rewrite append_assoc, Hsection.
Qed.

Lemma print_record (p : CourseParsedRequirements) (spacing : nat) :
  prettyPrintCourseParsedRequirements numberText p spacing =
  joinText newline (recordLines numberText p spacing).
Proof.
  unfold prettyPrintCourseParsedRequirements, recordLines.
  change EmptyString with (joinText newline []) at 1.
  rewrite printSection_lines by exact I.
  rewrite printSection_lines by (now apply sectionLines_filled).
  rewrite printSection_lines by (now do 2 apply sectionLines_filled).
  rewrite printSection_lines by (now do 3 apply sectionLines_filled).
  cbn [app]. now rewrite <- !app_assoc.
Qed.

End Outline.

(** X21.  The text [prettyPrintRequirements] gives for a tree is its
    outline joined by line feeds: one entry for each node, a group before
    its children, and every entry starts with two spaces for each level of
    [indent], the children of a group one level further in. *)
Theorem X21_printed_outline :
  forall (numberText : number -> string) (r : Requirements) (indent : nat),
    prettyPrintRequirements numberText r indent =
      joinText newline (outline numberText r indent) /\
    List.length (outline numberText r indent) = nodeCount r /\
    Forall (fun line => prefix (repeatText "  " indent) line = true)
      (outline numberText r indent).
Proof.
  intros numberText r indent. split; [apply print_outline|].
  split; [apply outline_length|apply outline_indented].
Qed.

(** X22.  The text [prettyPrintCourseParsedRequirements] gives for a record
    is made of the sections of the trees the record has, in the order
    prerequisites, corequisites, recommended prerequisites, recommended
    corequisites, each a header line followed by the outline of its tree,
    with one line feed between any two lines and none at the end; it is
    empty exactly when the record has no tree. *)
Theorem X22_printed_record :
  forall (numberText : number -> string) (p : CourseParsedRequirements)
         (spacing : nat),
    prettyPrintCourseParsedRequirements numberText p spacing =
      joinText newline (recordLines numberText p spacing) /\
    (prettyPrintCourseParsedRequirements numberText p spacing = EmptyString <->
     prerequisites p = None /\ corequisites p = None /\
     recommendedPrerequisites p = None /\ recommendedCorequisites p = None).
Proof.
  intros numberText p spacing. split; [apply print_record|].
  rewrite print_record. split.
  - intros Hempty.
    assert (Hnil : recordLines numberText p spacing = []).
    { destruct (recordLines numberText p spacing) as [|x l] eqn:Hlines;
        [reflexivity|].
      exfalso. revert Hempty. rewrite <- Hlines. apply joinText_filled.
      - unfold recordLines.
        pose proof (sectionLines_filled numberText [] (prerequisites p)
                      "P"%char "rerequisite:" spacing I) as H1.
        pose proof (sectionLines_filled numberText _ (corequisites p)
                      "C"%char "orequisite:" spacing H1) as H2.
        pose proof (sectionLines_filled numberText _ (recommendedPrerequisites p)
                      "R"%char "ecommended Prerequisite:" spacing H2) as H3.
        pose proof (sectionLines_filled numberText _ (recommendedCorequisites p)
                      "R"%char "ecommended Corequisite:" spacing H3) as H4.
        cbn [app] in H4. now rewrite <- !app_assoc in H4.
      - rewrite Hlines. discriminate. }
    unfold recordLines in Hnil.
    destruct (prerequisites p), (corequisites p), (recommendedPrerequisites p),
      (recommendedCorequisites p); try discriminate Hnil; tauto.
  - intros (H1 & H2 & H3 & H4). unfold recordLines.
    now rewrite H1, H2, H3, H4.
Qed.


(* ================================================================== *)
(** ** Graph assembly: the department of a node *)

Lemma ensureNode_entries (P : string -> Node -> Prop) (ns : Map Node)
    (k d : string) (n : nat) :
  (forall k' x, In (k', x) ns -> P k' x) ->
  P k {| id := k; title := k; dept := d; size := 0; depth := n |} ->
  forall k' x, In (k', x) (ensureNode ns k d n) -> P k' x.
Proof.
  intros Hns Hnew k' x Hin. unfold ensureNode in Hin.
  destruct (negb (map_has k ns)); [|now apply Hns].
  apply map_set_In in Hin. destruct Hin as [[-> ->]|Hin]; [assumption|].
  now apply Hns.
Qed.

Section Departments.

Variable courses : list CourseSaveFile.
Variable courseDepths : Map nat.

Let named (ns : Map Node) : Prop :=
  forall k x, In (k, x) ns -> namedDept courses k (dept x).

Lemma addPrerequisite_named (targetId : string) (st : Map Node * Map Link)
    (p : string * Q) :
  named (fst st) -> named (fst (addPrerequisite courseDepths targetId st p)).
Proof.
  destruct st as [ns ls], p as [q w]. cbn [addPrerequisite fst]. intros Hns.
  unfold named. intros k x.
  apply (ensureNode_entries (fun k x => namedDept courses k (dept x)));
    [exact Hns|]. now left.
Qed.

Lemma addCorequisite_named (targetId : string) (st : Map Node * Map Link)
    (p : string * Q) :
  named (fst st) -> named (fst (addCorequisite courseDepths targetId st p)).
Proof.
  destruct st as [ns ls], p as [q w]. cbn [addCorequisite fst]. intros Hns.
  unfold named. intros k x.
  apply (ensureNode_entries (fun k x => namedDept courses k (dept x)));
    [exact Hns|]. now left.
Qed.

Lemma addCourse_named (st : Map Node * Map Link) (c : CourseSaveFile) :
  In c (parsedCoursesOf courses) ->
  named (fst st) -> named (fst (addCourse courseDepths st c)).
Proof.
  intros Hc Hst. unfold addCourse.
  destruct (parsedRequirements c) as [req|] eqn:Hreq; [|assumption].
  destruct st as [ns ls].
  set (st1 := (ensureNode ns (course c) (department req)
                 (getOrZero (course c) courseDepths), ls)).
  assert (H1 : named (fst st1)).
  { unfold named, st1. cbn [fst]. intros k x.
    apply (ensureNode_entries (fun k x => namedDept courses k (dept x)));
      [exact Hst|]. right. now exists c, req. }
  clearbody st1.
  assert (H2 : named
                 (fst match prerequisites req with
                      | Some tree =>
                          fold_left (addPrerequisite courseDepths (course c))
                            (extractCourseRequirementsWithValues tree 1%Q) st1
                      | None => st1
                      end)).
  { destruct (prerequisites req) as [tree|]; [|assumption].
    apply (fold_left_invariant _ (fun st => named (fst st))); [|assumption].
    intros a b _. apply addPrerequisite_named. }
  destruct (corequisites req) as [tree|]; [|assumption].
  apply (fold_left_invariant _ (fun st => named (fst st))); [|assumption].
  intros a b _. apply addCorequisite_named.
Qed.

Lemma secondPass_named :
  named (fst (secondPass (parsedCoursesOf courses) courseDepths)).
Proof.
  unfold secondPass.
  apply (fold_left_invariant _ (fun st => named (fst st))).
  - intros st c Hc. now apply addCourse_named.
  - intros k x [].
Qed.

End Departments.




Lemma map_get_app {V : Type} (k : string) (m1 m2 : Map V) :
  map_get k (m1 ++ m2)%list =
  match map_get k m1 with
  | Some v => Some v
  | None => map_get k m2
  end.
Proof.
  induction m1 as [|[k' v'] m1 IH]; simpl; [reflexivity|].
  now destruct (k =? k').
Qed.

Lemma ensureNode_first (ns : Map Node) (ms : list (string * string))
    (k d : string) (n : nat) :
  deptsFirst ns ms -> deptsFirst (ensureNode ns k d n) (ms ++ [(k, d)])%list.
Proof.
  intros Hfirst k'. rewrite map_get_app. specialize (Hfirst k') as Hk'.
  unfold ensureNode, map_has.
  destruct (map_get k ns) as [x|] eqn:Hget; cbn [negb].
  - rewrite Hk'. destruct (map_get k' ms) as [v|] eqn:Hms; [reflexivity|].
    simpl. destruct (String.eqb_spec k' k) as [->|Hne]; [|reflexivity].
    rewrite Hget in Hk'. discriminate Hk'.
  - destruct (String.eqb_spec k k') as [<-|Hne].
    + rewrite map_get_set_same. rewrite Hget in Hk'. rewrite <- Hk'.
      simpl. now rewrite String.eqb_refl.
    + rewrite map_get_set_other by assumption. rewrite Hk'.
      destruct (map_get k' ms); [reflexivity|]. simpl.
      destruct (String.eqb_spec k' k) as [->|_]; [now elim Hne|reflexivity].
Qed.

Section FirstMention.

Variable courseDepths : Map nat.

Lemma addPrerequisites_first (targetId : string) (pairs : list (string * Q)) :
  forall (st : Map Node * Map Link) (ms : list (string * string)),
    deptsFirst (fst st) ms ->
    deptsFirst
      (fst (fold_left (addPrerequisite courseDepths targetId) pairs st))
      (ms ++ map (fun q => (q, deptOfId q)) (map fst pairs))%list.
Proof.
  induction pairs as [|[q w] pairs IH]; intros [ns ls] ms Hst;
    cbn [fold_left map fst].
  - now rewrite app_nil_r.
  - change ((q, deptOfId q) :: ?l) with ([(q, deptOfId q)] ++ l)%list.
    rewrite app_assoc. apply IH. cbn [addPrerequisite fst].
    now apply ensureNode_first.
Qed.

Lemma addCorequisites_first (targetId : string) (pairs : list (string * Q)) :
  forall (st : Map Node * Map Link) (ms : list (string * string)),
    deptsFirst (fst st) ms ->
    deptsFirst
      (fst (fold_left (addCorequisite courseDepths targetId) pairs st))
      (ms ++ map (fun q => (q, deptOfId q)) (map fst pairs))%list.
Proof.
  induction pairs as [|[q w] pairs IH]; intros [ns ls] ms Hst;
    cbn [fold_left map fst].
  - now rewrite app_nil_r.
  - change ((q, deptOfId q) :: ?l) with ([(q, deptOfId q)] ++ l)%list.
    rewrite app_assoc. apply IH. cbn [addCorequisite fst].
    now apply ensureNode_first.
Qed.

Lemma addCourse_first (st : Map Node * Map Link) (c : CourseSaveFile)
    (ms : list (string * string)) :
  deptsFirst (fst st) ms ->
  deptsFirst (fst (addCourse courseDepths st c)) (ms ++ mentions c)%list.
Proof.
  intros Hst. unfold addCourse, mentions.
  destruct (parsedRequirements c) as [req|]; [|now rewrite app_nil_r].
  destruct st as [ns ls].
  set (st1 := (ensureNode ns (course c) (department req)
                 (getOrZero (course c) courseDepths), ls)).
  assert (H1 : deptsFirst (fst st1) (ms ++ [(course c, department req)])%list)
    by now apply ensureNode_first.
  clearbody st1.
  change ((course c, department req) :: ?l)
    with ([(course c, department req)] ++ l)%list.
  rewrite app_assoc.
  set (ms1 := (ms ++ [(course c, department req)])%list) in *. clearbody ms1.
  rewrite app_assoc.
  assert (H2 : deptsFirst
                 (fst match prerequisites req with
                      | Some tree =>
                          fold_left (addPrerequisite courseDepths (course c))
                            (extractCourseRequirementsWithValues tree 1%Q) st1
                      | None => st1
                      end)
                 (ms1 ++ map (fun q => (q, deptOfId q))
                           (optionLeaves (prerequisites req)))%list).
  { destruct (prerequisites req) as [tree|]; cbn [optionLeaves map].
    - rewrite <- (extract_leaves tree 1%Q). now apply addPrerequisites_first.
    - now rewrite app_nil_r. }
  destruct (corequisites req) as [tree|]; cbn [optionLeaves map].
  - rewrite <- (extract_leaves tree 1%Q). now apply addCorequisites_first.
  - now rewrite app_nil_r.
Qed.

Lemma addCourses_first (parsedCourses : list CourseSaveFile) :
  forall (st : Map Node * Map Link) (ms : list (string * string)),
    deptsFirst (fst st) ms ->
    deptsFirst (fst (fold_left (addCourse courseDepths) parsedCourses st))
      (ms ++ flat_map mentions parsedCourses)%list.
Proof.
  induction parsedCourses as [|c cs IH]; intros st ms Hst;
    cbn [fold_left flat_map].
  - now rewrite app_nil_r.
  - rewrite app_assoc. apply IH. now apply addCourse_first.
Qed.

End FirstMention.

Lemma finalNodeMap_first (courses : list CourseSaveFile) :
  deptsFirst (finalNodeMap courses) (mentioned courses).
Proof.
  unfold finalNodeMap, mentioned, secondPass.
  apply (addCourses_first (resolvedDepths courses) (parsedCoursesOf courses)
           ([], []) []).
  intros k. reflexivity.
Qed.

(** X23.  The department a node of the graph carries is decided by the
    first time the second pass comes upon the course: the pass goes
    through the parsed courses in their order and, for each, comes upon the
    course itself, with the department of its record, then upon the courses
    its prerequisites name and then upon those its corequisites name, each
    with the first word of its id; the node keeps what the first of these
    gave it.  So the department is the first word of the id or the
    department of a record of that course, and which of the two depends on
    the order: a course referred to before its own record comes gets the
    first word of its id, whatever its record says. *)
Theorem X23_node_department :
  forall (courses : list CourseSaveFile) (n : Node),
    In n (nodes (generateNodesAndLinks courses)) ->
    map_get (id n) (mentioned courses) = Some (dept n) /\
    namedDept courses (id n) (dept n).
Proof.
  intros courses n Hn.
  destruct (node_of_entry courses n Hn) as [k [n0 [Hin ->]]].
  destruct (finalMaps_assembled courses) as [Hown Honce _ _].
  destruct (Hown k n0 Hin) as [Hid _]. cbn [setSize id dept]. rewrite Hid.
  split.
  - rewrite <- (finalNodeMap_first courses k).
    pose proof (map_In_get k n0 (finalNodeMap courses) Honce Hin) as Hget.
    now rewrite Hget.
  - exact (secondPass_named courses (resolvedDepths courses) k n0 Hin).
Qed.

Lemma X23_node_department_witness :
  (map_get "C 1" (mentioned referredFirst) = Some "C" /\
   namedDept referredFirst "C 1" "C") /\
  (map_get "C 1" (mentioned recordFirst) = Some "ZED" /\
   namedDept recordFirst "C 1" "ZED").
Proof.
  split.
  - refine (X23_node_department referredFirst
              {| id := "C 1"; title := "C 1"; dept := "C"; size := 0;
                 depth := 0 |} _).
    vm_compute. right. left. reflexivity.
  - refine (X23_node_department recordFirst
              {| id := "C 1"; title := "C 1"; dept := "ZED"; size := 0;
                 depth := 0 |} _).
    vm_compute. left. reflexivity.
Defined.


(* ================================================================== *)
(** ** CSV writer: what a reader gets back *)

Lemma prefix_empty (s : string) : prefix EmptyString s = true.
Proof. now destruct s. Qed.

Lemma includes_char (c a : ascii) (x : string) :
  includesText (String a x) (String c EmptyString) =
  Ascii.eqb c a || includesText x (String c EmptyString).
Proof.
  cbn [includesText prefix]. rewrite prefix_empty.
  destruct (ascii_dec c a) as [->|Hne].
  - now rewrite Ascii.eqb_refl.
  - apply Ascii.eqb_neq in Hne. now rewrite Hne.
Qed.

Lemma plainText_cons (a : ascii) (x : string) :
  plainText (String a x) = true ->
  Ascii.eqb a ","%char = false /\ Ascii.eqb a quoteChar = false /\
  plainText x = true.
Proof.
  unfold plainText, quote. rewrite !includes_char.
  rewrite !negb_orb, !andb_true_iff, !negb_true_iff.
  rewrite (Ascii.eqb_sym a ","%char), (Ascii.eqb_sym a quoteChar).
  unfold quoteChar. tauto.
Qed.

Lemma readCsv_plain (x : string) :
  forall tail field,
    plainText x = true ->
    readCsv (x ++ tail) false field = readCsv tail false (field ++ x).
Proof.
  induction x as [|a x IH]; intros tail field Hplain.
  - now rewrite append_empty_r.
  - apply plainText_cons in Hplain. destruct Hplain as (Hcomma & Hquote & Hx).
    cbn [append readCsv]. rewrite Hcomma, Hquote. cbn [andb].
    rewrite IH by assumption. now rewrite append_assoc.
Qed.

Lemma readCsv_quoted (x : string) :
  forall tail field,
    tail = EmptyString \/ (exists r, tail = String ","%char r) ->
    readCsv (doubleQuotes x ++ String quoteChar tail) true field =
    readCsv tail false (field ++ x).
Proof.
  induction x as [|a x IH]; intros tail field Htail.
  - rewrite append_empty_r. cbn [doubleQuotes append readCsv].
    rewrite Ascii.eqb_refl.
    destruct Htail as [->|[r ->]]; reflexivity.
  - cbn [doubleQuotes]. destruct (Ascii.eqb_spec a quoteChar) as [->|Hne].
    + cbn [append readCsv]. rewrite !Ascii.eqb_refl.
      rewrite IH by assumption. now rewrite append_assoc.
    + cbn [append readCsv]. apply Ascii.eqb_neq in Hne. rewrite Hne.
      rewrite IH by assumption. now rewrite append_assoc.
Qed.

Section Reader.

Variable numberText : number -> string.

Lemma readCsv_value (row : list (string * JsValue)) (header tail : string) :
  writable numberText (lookup header row) ->
  tail = EmptyString \/ (exists r, tail = String ","%char r) ->
  readCsv (joinedText numberText (csvValue row header) ++ tail) false EmptyString
  = readCsv tail false (joinedText numberText (lookup header row)).
Proof.
  intros Hwritable Htail. unfold csvValue.
  destruct (lookup header row) as [| |b|n|s|elements|props] eqn:Hvalue;
    try (now apply readCsv_plain).
  destruct (includesText s "," || includesText s quote) eqn:Hspecial.
  - cbn [joinedText]. unfold quote. fold quoteChar.
    cbn [append]. rewrite append_assoc. cbn [append readCsv].
    assert (Hq : Ascii.eqb quoteChar ","%char = false) by reflexivity.
    rewrite Hq, Ascii.eqb_refl. cbn [andb String.eqb].
    now rewrite readCsv_quoted.
  - cbn [joinedText]. apply readCsv_plain. unfold plainText.
    apply orb_false_iff in Hspecial. destruct Hspecial as [-> ->].
    reflexivity.
Qed.

Lemma readCsv_row (row : list (string * JsValue)) (headers : list string) :
  headers <> [] ->
  (forall h, In h headers -> writable numberText (lookup h row)) ->
  readCsv (csvRow numberText headers row) false EmptyString =
  map (fun h => joinedText numberText (lookup h row)) headers.
Proof.
  unfold csvRow. induction headers as [|h hs IH]; [congruence|].
  intros _ Hwritable. destruct hs as [|h' hs].
  - cbn [map joinText].
    rewrite <- (append_empty_r (joinedText numberText (csvValue row h))).
    rewrite readCsv_value by (auto; apply Hwritable; now left).
    reflexivity.
  - change (map ?f (h :: h' :: hs)) with (f h :: map f (h' :: hs)).
    rewrite joinText_cons by discriminate.
    change ("," ++ ?rest) with (String ","%char rest).
    rewrite readCsv_value by (eauto; apply Hwritable; now left).
    cbn [readCsv]. change (Ascii.eqb "," ",") with true. cbv iota.
    rewrite IH; [reflexivity|discriminate|].
    intros x Hx. apply Hwritable. now right.
Qed.

End Reader.

(** X25.  What [arrayToCSV] writes for a row can be read back: when every
    value of the row is a string, or a value whose text holds no comma and
    no quote, a reader of CSV that splits the line at the commas outside
    quotes and undoes the doubling of quotes gets exactly the values of the
    row, whatever commas and quotes its strings hold.  So it is for the row
    of a node, as long as the texts of its two numbers are plain.  The text
    written is the line of the keys of the first row followed by one such
    line for each row. *)
Theorem X25_csv_row_read_back :
  forall (numberText : number -> string),
    (forall (headers : list string) (row : list (string * JsValue)),
        headers <> [] ->
        (forall h, In h headers -> writable numberText (lookup h row)) ->
        readCsv (csvRow numberText headers row) false EmptyString =
        map (fun h => joinedText numberText (lookup h row)) headers) /\
    (forall n : Node,
        plainText (numberText (num_of_Z (Z.of_nat (size n)))) = true ->
        plainText (numberText (num_of_Z (Z.of_nat (depth n)))) = true ->
        readCsv (csvRow numberText (map fst (nodeObject n)) (nodeObject n))
          false EmptyString =
        [id n; title n; dept n;
         numberText (num_of_Z (Z.of_nat (size n)));
         numberText (num_of_Z (Z.of_nat (depth n)))]) /\
    (forall (first : list (string * JsValue))
            (others : list (list (string * JsValue))),
        arrayToCSV numberText (first :: others) =
        joinText newline
          (joinText "," (map fst first)
           :: map (csvRow numberText (map fst first)) (first :: others))).
Proof.
  intros numberText. split; [|split; [|reflexivity]].
  - intros headers row. apply readCsv_row.
  - intros n Hsize Hdepth. rewrite readCsv_row; [reflexivity|discriminate|].
    cbn [nodeObject map fst]. intros h Hin.
    repeat (destruct Hin as [<-|Hin]; [cbn; auto|]). contradiction.
Qed.
